(** * VarSpeedServo (megaavr): a shallow embedding of VarSpeedServo.cpp

    The servo table, the per-timer channel cursor, the write protocol and the
    sequence player of [src/megaavr/VarSpeedServo.cpp], with the fixed-width
    integer arithmetic of the AVR target written out ([int] is 16 bits wide,
    [long] 32 bits). *)

From Stdlib Require Import ZArith Lia Bool List.
From stdpp Require Import base list.
Import ListNotations.

Local Open Scope Z_scope.

(** ** Fixed-width integers *)

Module CInt.

Definition wrap_unsigned (w x : Z) : Z := x mod 2 ^ w.
Definition wrap_signed (w x : Z) : Z := (x + 2 ^ (w - 1)) mod 2 ^ w - 2 ^ (w - 1).

Definition to_uint8 := wrap_unsigned 8.
Definition to_int8 := wrap_signed 8.
Definition to_uint16 := wrap_unsigned 16.   (* unsigned int, uint16_t *)
Definition to_int := wrap_signed 16.        (* int *)
Definition to_long := wrap_signed 32.       (* long *)
Definition to_ulong := wrap_unsigned 32.    (* unsigned long *)

Definition in_int8 (x : Z) : Prop := -128 <= x <= 127.
Definition in_uint8 (x : Z) : Prop := 0 <= x <= 255.
Definition in_int (x : Z) : Prop := -32768 <= x <= 32767.
Definition in_uint16 (x : Z) : Prop := 0 <= x <= 65535.

End CInt.
Import CInt.

(** ** Outcomes of the embedded code

    An access to [servos] or [currentServoIndex] outside the array and a
    division by zero have no defined result in C++: the embedding stops there
    with a [Fault]. (A store past the end of the table lands in whatever the
    linker put there; nothing can be said of the globals afterwards.) *)

Inductive fault : Type :=
  | OutOfBounds (index : Z)
  | DivisionByZero.

Inductive result (A : Type) : Type :=
  | Ok (a : A)
  | Fault (f : fault).
Arguments Ok {A} a.
Arguments Fault {A} f.

Definition bind {A B : Type} (c : result A) (k : A -> result B) : result B :=
  match c with
  | Ok a => k a
  | Fault f => Fault f
  end.

Notation "'let*' x ':=' c1 'in' c2" := (bind c1 (fun x => c2))
  (at level 10, x name, c1 at level 100, c2 at level 200).

(** ** The platform

    [VarSpeedServo.h], the Arduino core and the device header are not part of
    the sources: what [VarSpeedServo.cpp] takes from them and the spec does not
    fix is a parameter of the development. *)

Class Platform : Type := {
  clockCyclesPerMicrosecond : Z;   (* F_CPU / 1000000L, a long *)
  SERVOS_PER_TIMER : Z;
  _Nbr_16timers : Z;
  TCB_CLKSEL_CLKTCA_gc : Z;
  TCB_CNTMODE_INT_gc : Z;
  TCB_CAPTEI_bm : Z;
  TCB_ENABLE_bm : Z;
  TCB_CAPT_bm : Z
}.

(** Modelled from the spec: the constants of [VarSpeedServo.h] (absent), as the
    spec's compatibility contract gives them: default minimum pulse width
    544 us, default maximum 2400 us; the invalid-index and stopped sentinels
    are the largest [uint8_t]; the pulse width of a servo that was never
    written is the 1500 us of the Arduino Servo library. *)
Definition MIN_PULSE_WIDTH : Z := 544.
Definition MAX_PULSE_WIDTH : Z := 2400.
Definition DEFAULT_PULSE_WIDTH : Z := 1500.
Definition INVALID_SERVO : Z := 255.
Definition CURRENT_SEQUENCE_STOP : Z := 255.

Definition TRIM_DURATION : Z := 5.
Definition REFRESH_INTERVAL : Z := 16000.

(** Modelled from the spec: the servo record of [VarSpeedServo.h] (absent), with
    the fields of the spec's data model: [ticks] is ticksCurrent, [target]
    ticksTarget, [value] lastWrittenValue. The three are [unsigned int]. *)
Record ServoPin_t : Type := { nbr : Z; isActive : bool }.

Record servo_t : Type := {
  Pin : ServoPin_t;
  ticks : Z;
  value : Z;
  target : Z;
  speed : Z
}.

(** One waypoint of a sequence. *)
Record servoSequencePoint : Type := { position : Z; seq_speed : Z }.

(** The registers of the timer peripheral [_timer]. *)
Record TCB_t : Type := {
  CTRLA : Z;
  CTRLB : Z;
  INTCTRL : Z;
  INTFLAGS : Z;
  CCMP : Z
}.

(** Pin operations of the Arduino core, kept as a trace (latest first). *)
Inductive pin_event : Type :=
  | pinMode_OUTPUT (pin : Z)
  | digitalWrite (pin : Z) (level : bool).

Definition LOW : bool := false.
Definition HIGH : bool := true.

(** The globals of the translation unit. *)
Record state : Type := {
  servos : list servo_t;            (* static servo_t servos[MAX_SERVOS] *)
  ServoCount : Z;                   (* uint8_t *)
  currentServoIndex : list Z;       (* volatile int8_t [_Nbr_16timers] *)
  timer_regs : TCB_t;               (* *_timer *)
  pins : list pin_event
}.

(** Address of a waypoint array: the file's own [initSeq], or one of the
    caller's. *)
Inductive seq_ptr : Type :=
  | initSeq_ptr
  | caller_ptr (a : Z).

Definition seq_ptr_eqb (p q : seq_ptr) : bool :=
  match p, q with
  | initSeq_ptr, initSeq_ptr => true
  | caller_ptr a, caller_ptr b => a =? b
  | _, _ => false
  end.

(** A sequence argument: the address that [curSequence] is compared with, and
    the waypoints found in memory from that address on. The array is the
    caller's and [sequencePlay] is only told how many positions to play: the
    embedding lets any entry be loaded (a load on the AVR changes nothing)
    and [sequencePlay] records the indices it loads. *)
Record sequence_ref : Type := {
  seq_addr : seq_ptr;
  seq_at : Z -> servoSequencePoint
}.

(** The fields of a [VarSpeedServo] object. *)
Record VarSpeedServo : Type := {
  servoIndex : Z;            (* uint8_t *)
  min : Z;                   (* int8_t *)
  max : Z;                   (* int8_t *)
  curSeqPosition : Z;        (* uint8_t *)
  curSequence : seq_ptr      (* servoSequencePoint * *)
}.

(** *** Field updates *)

Definition set_nbr (pin : Z) (s : servo_t) : servo_t :=
  {| Pin := {| nbr := pin; isActive := isActive (Pin s) |};
     ticks := ticks s; value := value s; target := target s; speed := speed s |}.
Definition set_isActive (b : bool) (s : servo_t) : servo_t :=
  {| Pin := {| nbr := nbr (Pin s); isActive := b |};
     ticks := ticks s; value := value s; target := target s; speed := speed s |}.
Definition set_ticks (v : Z) (s : servo_t) : servo_t :=
  {| Pin := Pin s; ticks := v; value := value s; target := target s; speed := speed s |}.
Definition set_value (v : Z) (s : servo_t) : servo_t :=
  {| Pin := Pin s; ticks := ticks s; value := v; target := target s; speed := speed s |}.
Definition set_target (v : Z) (s : servo_t) : servo_t :=
  {| Pin := Pin s; ticks := ticks s; value := value s; target := v; speed := speed s |}.
Definition set_speed (v : Z) (s : servo_t) : servo_t :=
  {| Pin := Pin s; ticks := ticks s; value := value s; target := target s; speed := v |}.

Definition set_servos (st : state) (l : list servo_t) : state :=
  {| servos := l; ServoCount := ServoCount st;
     currentServoIndex := currentServoIndex st;
     timer_regs := timer_regs st; pins := pins st |}.
Definition set_ServoCount (st : state) (n : Z) : state :=
  {| servos := servos st; ServoCount := n;
     currentServoIndex := currentServoIndex st;
     timer_regs := timer_regs st; pins := pins st |}.
Definition set_currentServoIndex (st : state) (l : list Z) : state :=
  {| servos := servos st; ServoCount := ServoCount st;
     currentServoIndex := l;
     timer_regs := timer_regs st; pins := pins st |}.
Definition set_timer_regs (st : state) (r : TCB_t) : state :=
  {| servos := servos st; ServoCount := ServoCount st;
     currentServoIndex := currentServoIndex st;
     timer_regs := r; pins := pins st |}.
Definition emit (st : state) (e : pin_event) : state :=
  {| servos := servos st; ServoCount := ServoCount st;
     currentServoIndex := currentServoIndex st;
     timer_regs := timer_regs st; pins := e :: pins st |}.

Definition set_CCMP (st : state) (v : Z) : state :=
  set_timer_regs st
    {| CTRLA := CTRLA (timer_regs st); CTRLB := CTRLB (timer_regs st);
       INTCTRL := INTCTRL (timer_regs st); INTFLAGS := INTFLAGS (timer_regs st);
       CCMP := v |}.
Definition set_INTFLAGS (st : state) (v : Z) : state :=
  set_timer_regs st
    {| CTRLA := CTRLA (timer_regs st); CTRLB := CTRLB (timer_regs st);
       INTCTRL := INTCTRL (timer_regs st); INTFLAGS := v;
       CCMP := CCMP (timer_regs st) |}.
Definition set_INTCTRL (st : state) (v : Z) : state :=
  set_timer_regs st
    {| CTRLA := CTRLA (timer_regs st); CTRLB := CTRLB (timer_regs st);
       INTCTRL := v; INTFLAGS := INTFLAGS (timer_regs st);
       CCMP := CCMP (timer_regs st) |}.
Definition set_CTRLA (st : state) (v : Z) : state :=
  set_timer_regs st
    {| CTRLA := v; CTRLB := CTRLB (timer_regs st);
       INTCTRL := INTCTRL (timer_regs st); INTFLAGS := INTFLAGS (timer_regs st);
       CCMP := CCMP (timer_regs st) |}.
Definition set_CTRLB (st : state) (v : Z) : state :=
  set_timer_regs st
    {| CTRLA := CTRLA (timer_regs st); CTRLB := v;
       INTCTRL := INTCTRL (timer_regs st); INTFLAGS := INTFLAGS (timer_regs st);
       CCMP := CCMP (timer_regs st) |}.

(** *** Array accesses *)

Definition servo_load (st : state) (i : Z) : result servo_t :=
  if i <? 0 then Fault (OutOfBounds i)
  else match servos st !! Z.to_nat i with
       | Some s => Ok s
       | None => Fault (OutOfBounds i)
       end.

(** [servos[i].field = v]. *)
Definition servo_store (st : state) (i : Z) (f : servo_t -> servo_t) : result state :=
  let* s := servo_load st i in
  Ok (set_servos st (<[Z.to_nat i := f s]> (servos st))).

Definition index_load (st : state) (timer : Z) : result Z :=
  if timer <? 0 then Fault (OutOfBounds timer)
  else match currentServoIndex st !! Z.to_nat timer with
       | Some i => Ok i
       | None => Fault (OutOfBounds timer)
       end.

Definition index_store (st : state) (timer v : Z) : result state :=
  let* _i := index_load st timer in
  Ok (set_currentServoIndex st (<[Z.to_nat timer := v]> (currentServoIndex st))).

(** ** Arduino core helpers *)

(** [long map(long x, long in_min, long in_max, long out_min, long out_max)]. *)
Definition map (x in_min in_max out_min out_max : Z) : result Z :=
  let d := to_long (in_max - in_min) in
  if d =? 0 then Fault DivisionByZero
  else Ok (to_long
             (Z.quot (to_long (to_long (x - in_min) * to_long (out_max - out_min))) d
              + out_min)).

(** The [constrain(amt, low, high)] macro. *)
Definition constrain (amt low high : Z) : Z :=
  if amt <? low then low else if amt >? high then high else amt.

(** ** VarSpeedServo.cpp *)

Section Code.

Context {P : Platform}.

(** Modelled from the spec: the capacity of the servo table, a constant of
    [VarSpeedServo.h] (absent). A servo index is a timer and a channel of
    that timer, so the table holds [SERVOS_PER_TIMER] channels for each of
    the [_Nbr_16timers] timers. *)
Definition MAX_SERVOS : Z := _Nbr_16timers * SERVOS_PER_TIMER.

(** [#define usToTicks(_us) ((clockCyclesPerMicrosecond() / 16 * _us) / 4)],
    computed on [long]. *)
Definition usToTicks (_us : Z) : Z :=
  Z.quot (to_long (to_long (Z.quot clockCyclesPerMicrosecond 16) * _us)) 4.

(** [#define ticksToUs(_ticks)
      (((unsigned) _ticks * 16) / (clockCyclesPerMicrosecond() / 4))]:
    the product is an [unsigned int], the quotient a [long]. *)
Definition ticksToUs (_ticks : Z) : result Z :=
  let d := Z.quot clockCyclesPerMicrosecond 4 in
  if d =? 0 then Fault DivisionByZero
  else Ok (Z.quot (to_uint16 (to_uint16 _ticks * 16)) d).

Definition SERVO_INDEX_TO_TIMER (_servo_nbr : Z) : Z :=
  Z.quot _servo_nbr SERVOS_PER_TIMER.
Definition SERVO_INDEX_TO_CHANNEL (_servo_nbr : Z) : Z :=
  Z.rem _servo_nbr SERVOS_PER_TIMER.
Definition SERVO_INDEX (_timer _channel : Z) : Z :=
  to_int (to_int (_timer * SERVOS_PER_TIMER) + _channel).

Definition SERVO_MIN (this : VarSpeedServo) : Z :=
  to_int (MIN_PULSE_WIDTH - to_int (min this * 4)).
Definition SERVO_MAX (this : VarSpeedServo) : Z :=
  to_int (MAX_PULSE_WIDTH - to_int (max this * 4)).

(** *** Static functions *)

Definition ServoHandler (timer : Z) (st : state) : result state :=
  let* idx := index_load st timer in
  let* st1 :=
    if idx <? 0 then
      Ok (set_CCMP st 0)
    else if SERVO_INDEX timer idx <? ServoCount st then
      let* s := servo_load st (SERVO_INDEX timer idx) in
      if isActive (Pin s)
      then Ok (emit st (digitalWrite (nbr (Pin s)) LOW))
      else Ok st
    else Ok st in
  (* currentServoIndex[timer]++ *)
  let idx' := to_int8 (idx + 1) in
  let* st2 := index_store st1 timer idx' in
  let* st3 :=
    if (SERVO_INDEX timer idx' <? ServoCount st2) && (idx' <? SERVOS_PER_TIMER) then
      let* s := servo_load st2 (SERVO_INDEX timer idx') in
      let st2' :=
        if isActive (Pin s)
        then emit st2 (digitalWrite (nbr (Pin s)) HIGH)
        else st2 in
      let tcCounterValue := 0 in
      Ok (set_CCMP st2' (to_uint16 (tcCounterValue + ticks s)))
    else
      let tcCounterValue := CCMP (timer_regs st2) in
      let st2' :=
        if to_ulong (tcCounterValue + 4) <? to_ulong (usToTicks REFRESH_INTERVAL)
        then set_CCMP st2 (to_uint16 (usToTicks REFRESH_INTERVAL))
        else set_CCMP st2 (to_uint16 (to_ulong (tcCounterValue + 4))) in
      index_store st2' timer (-1) in
  (* clear flag *)
  Ok (set_INTFLAGS st3 TCB_CAPT_bm).

Definition initISR (timer : Z) (st : state) : state :=
  let st := set_CTRLA st TCB_CLKSEL_CLKTCA_gc in
  let st := set_CTRLB st TCB_CNTMODE_INT_gc in
  let st := set_INTCTRL st TCB_CAPTEI_bm in
  set_CTRLA st (Z.lor (CTRLA (timer_regs st)) TCB_ENABLE_bm).

Definition finISR (timer : Z) (st : state) : state :=
  set_INTCTRL st 0.

(** The [for] loop of [isTimerActive], from [channel] on, [n] channels left. *)
Fixpoint isTimerActive_from (st : state) (timer channel : Z) (n : nat) : result bool :=
  match n with
  | O => Ok false
  | S n' =>
      let* s := servo_load st (SERVO_INDEX timer channel) in
      if isActive (Pin s) then Ok true
      else isTimerActive_from st timer (channel + 1) n'
  end.

Definition isTimerActive (st : state) (timer : Z) : result bool :=
  isTimerActive_from st timer 0 (Z.to_nat SERVOS_PER_TIMER).

(** *** Methods *)

(** The constructor, run on the object's storage [this] as it was found. *)
Definition VarSpeedServo_new (this : VarSpeedServo) (st : state)
  : result (VarSpeedServo * state) :=
  if ServoCount st <? MAX_SERVOS then
    let idx := ServoCount st in
    let st := set_ServoCount st (to_uint8 (ServoCount st + 1)) in
    let* st := servo_store st idx (set_ticks (to_uint16 (usToTicks DEFAULT_PULSE_WIDTH))) in
    Ok ({| servoIndex := idx; min := min this; max := max this;
           curSeqPosition := 0; curSequence := initSeq_ptr |}, st)
  else
    Ok ({| servoIndex := INVALID_SERVO; min := min this; max := max this;
           curSeqPosition := curSeqPosition this;
           curSequence := curSequence this |}, st).

(** [attach(pin, min, max)]: the returned index, the object, the globals. *)
Definition attach (pin min_arg max_arg : Z) (this : VarSpeedServo) (st : state)
  : result (Z * VarSpeedServo * state) :=
  if servoIndex this <? MAX_SERVOS then
    let st := emit st (pinMode_OUTPUT pin) in
    let* st := servo_store st (servoIndex this) (set_nbr pin) in
    let this' :=
      {| servoIndex := servoIndex this;
         min := to_int8 (Z.quot (to_int (MIN_PULSE_WIDTH - min_arg)) 4);
         max := to_int8 (Z.quot (to_int (MAX_PULSE_WIDTH - max_arg)) 4);
         curSeqPosition := curSeqPosition this;
         curSequence := curSequence this |} in
    let timer := SERVO_INDEX_TO_TIMER (servoIndex this) in
    let* active := isTimerActive st timer in
    let st := if active then st else initISR timer st in
    (* this must be set after the check for isTimerActive *)
    let* st := servo_store st (servoIndex this) (set_isActive true) in
    Ok (servoIndex this, this', st)
  else Ok (servoIndex this, this, st).

Definition detach (this : VarSpeedServo) (st : state) : result state :=
  let* st := servo_store st (servoIndex this) (set_isActive false) in
  let timer := SERVO_INDEX_TO_TIMER (servoIndex this) in
  let* active := isTimerActive st timer in
  Ok (if active then st else finISR timer st).

Definition writeMicroseconds (value : Z) (this : VarSpeedServo) (st : state)
  : result state :=
  let channel := servoIndex this in
  let* st := servo_store st channel (set_value (to_uint16 value)) in
  if (channel >=? 0) && (channel <? MAX_SERVOS) then
    let value :=
      if value <? SERVO_MIN this then SERVO_MIN this
      else if value >? SERVO_MAX this then SERVO_MAX this
      else value in
    let value := to_int (value - TRIM_DURATION) in
    let value := to_int (usToTicks value) in
    servo_store st channel (set_ticks (to_uint16 value))
  else Ok st.

Definition write (value : Z) (this : VarSpeedServo) (st : state) : result state :=
  let* value :=
    if value <? MIN_PULSE_WIDTH then
      let value :=
        if value <? 0 then 0
        else if value >? 180 then 180
        else value in
      let* m := map value 0 180 (SERVO_MIN this) (SERVO_MAX this) in
      Ok (to_int m)
    else Ok value in
  writeMicroseconds value this st.

(** [write(int value, uint8_t speed)]; the [cli()] / [SREG] pair around the
    two stores has no effect on a run without interrupts. *)
Definition write_speed (value speed : Z) (this : VarSpeedServo) (st : state)
  : result state :=
  let channel := servoIndex this in
  let* st := servo_store st channel (set_value (to_uint16 value)) in
  if negb (speed =? 0) then
    let* value :=
      if value <? MIN_PULSE_WIDTH then
        let value := constrain value 0 180 in
        let* m := map value 0 180 (SERVO_MIN this) (SERVO_MAX this) in
        Ok (to_int m)
      else Ok value in
    if (channel >=? 0) && (channel <? MAX_SERVOS) then
      let value := constrain value (SERVO_MIN this) (SERVO_MAX this) in
      let value := to_int (value - TRIM_DURATION) in
      let value := to_int (usToTicks value) in
      let* st := servo_store st channel (set_target (to_uint16 value)) in
      servo_store st channel (set_speed speed)
    else Ok st
  else write value this st.

Definition readMicroseconds (this : VarSpeedServo) (st : state) : result Z :=
  let* pulsewidth :=
    if negb (servoIndex this =? INVALID_SERVO) then
      let* s := servo_load st (servoIndex this) in
      let* us := ticksToUs (ticks s) in
      Ok (to_uint16 (us + TRIM_DURATION))
    else Ok 0 in
  Ok (to_int pulsewidth).

Definition read (this : VarSpeedServo) (st : state) : result Z :=
  let* us := readMicroseconds this st in
  let* m := map (to_int (us + 1)) (SERVO_MIN this) (SERVO_MAX this) 0 180 in
  Ok (to_int m).

(** What a call of [sequencePlay] leaves: the returned index, the object,
    the globals, and the indices at which [sequenceIn] was read, in order. *)
Record played : Type := {
  play_ret : Z;
  play_this : VarSpeedServo;
  play_state : state;
  play_reads : list Z
}.

Definition set_sequence (this : VarSpeedServo) (seq : seq_ptr) (pos : Z) : VarSpeedServo :=
  {| servoIndex := servoIndex this; min := min this; max := max this;
     curSeqPosition := pos; curSequence := seq |}.

Definition sequencePlay (sequenceIn : sequence_ref) (numPositions : Z)
    (loop : bool) (startPos : Z) (this : VarSpeedServo) (st : state)
  : result played :=
  let oldSeqPosition := curSeqPosition this in
  let '(this, oldSeqPosition) :=
    if negb (seq_ptr_eqb (curSequence this) (seq_addr sequenceIn))
    then (set_sequence this (seq_addr sequenceIn) startPos, 255)
    else (this, oldSeqPosition) in
  (* read() == sequenceIn[curSeqPosition].position is evaluated before the
     test against CURRENT_SEQUENCE_STOP *)
  let* angle := read this st in
  let reads := [curSeqPosition this] in
  let this :=
    if (angle =? position (seq_at sequenceIn (curSeqPosition this)))
       && negb (curSeqPosition this =? CURRENT_SEQUENCE_STOP)
    then
      let pos := to_uint8 (curSeqPosition this + 1) in
      let pos :=
        if pos >=? numPositions
        then (if loop then 0 else CURRENT_SEQUENCE_STOP)
        else pos in
      set_sequence this (curSequence this) pos
    else this in
  if negb (curSeqPosition this =? oldSeqPosition)
     && negb (curSeqPosition this =? CURRENT_SEQUENCE_STOP)
  then
    let p := seq_at sequenceIn (curSeqPosition this) in
    let* st := write_speed (position p) (seq_speed p) this st in
    Ok {| play_ret := curSeqPosition this; play_this := this; play_state := st;
          play_reads := reads ++ [curSeqPosition this; curSeqPosition this] |}
  else
    Ok {| play_ret := curSeqPosition this; play_this := this; play_state := st;
          play_reads := reads |}.

(** [isMoving]: the last written value against what the servo reports, as
    degrees when the value is below 544. *)
Definition isMoving (this : VarSpeedServo) (st : state) : result bool :=
  let channel := servoIndex this in
  let* s := servo_load st channel in
  let value := to_int (value s) in
  if value <? MIN_PULSE_WIDTH then
    let* angle := read this st in
    Ok (negb (angle =? value))
  else
    let* us := readMicroseconds this st in
    Ok (negb (us =? value)).

Definition sequenceStop (this : VarSpeedServo) (st : state)
  : result (VarSpeedServo * state) :=
  let* angle := read this st in
  let* st := write angle this st in
  Ok (set_sequence this (curSequence this) CURRENT_SEQUENCE_STOP, st).

End Code.

(** ** Well-formed platforms, tables and objects *)

Section WellFormed.

Context {P : Platform}.

(** The clock rate is that of a microcontroller: below 256 MHz. *)
Definition clock_ok : Prop := 0 <= clockCyclesPerMicrosecond <= 255.

(** A servo index is a [uint8_t] and 255 is its invalid value. *)
Definition capacity_ok : Prop :=
  0 < SERVOS_PER_TIMER <= 127 /\ 0 < _Nbr_16timers /\ MAX_SERVOS <= 255.

(** [servos] has [MAX_SERVOS] entries. *)
Definition table_ok (st : state) : Prop :=
  Z.of_nat (length (servos st)) = MAX_SERVOS.

(** An object whose constructor found a free slot; [min] and [max] are
    [int8_t]. *)
Definition valid_servo (this : VarSpeedServo) : Prop :=
  0 <= servoIndex this < MAX_SERVOS /\ in_int8 (min this) /\ in_int8 (max this).

(** The servo's calibrated range in microseconds. *)
Definition calibrated_min (this : VarSpeedServo) : Z := MIN_PULSE_WIDTH - 4 * min this.
Definition calibrated_max (this : VarSpeedServo) : Z := MAX_PULSE_WIDTH - 4 * max this.

End WellFormed.

(** ** The write protocol in the spec's words *)

Section WriteProtocol.

Context {P : Platform}.

Definition clamp (lo hi x : Z) : Z := Z.max lo (Z.min hi x).

(** An angle in degrees, linearly mapped onto the calibrated range. *)
Definition angle_to_pulse (this : VarSpeedServo) (a : Z) : Z :=
  calibrated_min this + a * (calibrated_max this - calibrated_min this) / 180.

(** Below the minimum valid pulse width a value is an angle, clamped to
    [0,180]; from there on it is a pulse width in microseconds. *)
Definition requested_pulse (this : VarSpeedServo) (v : Z) : Z :=
  if v <? MIN_PULSE_WIDTH then angle_to_pulse this (clamp 0 180 v) else v.

Definition pulse_to_ticks (us : Z) : Z := (clockCyclesPerMicrosecond / 16 * us) / 4.

(** Clamped to the calibrated range, less the trim, in ticks. *)
Definition commanded_ticks (this : VarSpeedServo) (v : Z) : Z :=
  pulse_to_ticks
    (clamp (calibrated_min this) (calibrated_max this) (requested_pulse this v)
     - TRIM_DURATION).

End WriteProtocol.

(** ** A concrete platform and concrete states

    The Arduino Nano Every: an ATmega4809 at 16 MHz, one timer of 12
    channels, the TCB bit masks of its device header. *)

Definition nano_every : Platform :=
  {| clockCyclesPerMicrosecond := 16;
     SERVOS_PER_TIMER := 12;
     _Nbr_16timers := 1;
     TCB_CLKSEL_CLKTCA_gc := 4;
     TCB_CNTMODE_INT_gc := 0;
     TCB_CAPTEI_bm := 1;
     TCB_ENABLE_bm := 1;
     TCB_CAPT_bm := 1 |}.

(** A zero-initialised servo record and the zero-initialised globals. *)
Definition servo_zero : servo_t :=
  {| Pin := {| nbr := 0; isActive := false |};
     ticks := 0; value := 0; target := 0; speed := 0 |}.

Definition regs_zero : TCB_t :=
  {| CTRLA := 0; CTRLB := 0; INTCTRL := 0; INTFLAGS := 0; CCMP := 0 |}.

Definition boot_state {P : Platform} : state :=
  {| servos := replicate (Z.to_nat MAX_SERVOS) servo_zero;
     ServoCount := 0;
     currentServoIndex := replicate (Z.to_nat _Nbr_16timers) 0;
     timer_regs := regs_zero;
     pins := [] |}.

(** The storage of an object with static storage duration. *)
Definition object_zero : VarSpeedServo :=
  {| servoIndex := 0; min := 0; max := 0; curSeqPosition := 0;
     curSequence := caller_ptr 0 |}.

(** The first servo of a sketch: constructed, then attached to pin 9 with the
    default bounds. *)
Definition first_servo : VarSpeedServo :=
  {| servoIndex := 0; min := 0; max := 0; curSeqPosition := 0;
     curSequence := initSeq_ptr |}.

Definition first_attached : state :=
  {| servos :=
       {| Pin := {| nbr := 9; isActive := true |};
          ticks := 375; value := 0; target := 0; speed := 0 |}
       :: replicate 11 servo_zero;
     ServoCount := 1;
     currentServoIndex := [0];
     timer_regs :=
       {| CTRLA := 5; CTRLB := 0; INTCTRL := 1; INTFLAGS := 0; CCMP := 0 |};
     pins := [pinMode_OUTPUT 9] |}.

(** An object constructed when the table was full. *)
Definition surplus_servo : VarSpeedServo :=
  {| servoIndex := INVALID_SERVO; min := 0; max := 0; curSeqPosition := 0;
     curSequence := caller_ptr 0 |}.

(** The table after twelve constructions: no slot is left. *)
Definition full_state : state :=
  {| servos := replicate 12 (set_ticks 375 servo_zero);
     ServoCount := 12;
     currentServoIndex := [0];
     timer_regs := regs_zero;
     pins := [] |}.

(** ** The channel cursor of the pulse scheduler *)

Section Cursor.

Context {P : Platform}.

(** The cursor of a timer is the sentinel -1 or a channel of the timer. *)
Definition cursor_ok (idx : Z) : Prop :=
  idx = -1 \/ 0 <= idx < SERVOS_PER_TIMER.

Definition cursors_ok (st : state) : Prop :=
  forall (t : nat) (idx : Z), currentServoIndex st !! t = Some idx -> cursor_ok idx.

(** Every timer is between two refresh cycles. *)
Definition between_cycles (st : state) : Prop :=
  forall (t : nat) (idx : Z), currentServoIndex st !! t = Some idx -> idx = -1.

(** The globals have their declared sizes: [MAX_SERVOS] records of which
    [ServoCount] are registered, one cursor per timer, a 16-bit compare
    register. *)
Definition handler_ready (st : state) : Prop :=
  table_ok st
  /\ 0 <= ServoCount st <= MAX_SERVOS
  /\ Z.of_nat (length (currentServoIndex st)) = _Nbr_16timers
  /\ in_uint16 (CCMP (timer_regs st)).

(** One interrupt after the other, each for the timer it names. *)
Fixpoint run_handler (timers : list Z) (st : state) : result state :=
  match timers with
  | [] => Ok st
  | t :: ts => let* st' := ServoHandler t st in run_handler ts st'
  end.

End Cursor.

(** The same sketch after the first interrupt: the pin was pulled low, the
    refresh wait is armed and the timer is between two cycles. *)
Definition first_idle : state :=
  {| servos := servos first_attached;
     ServoCount := 1;
     currentServoIndex := [-1];
     timer_regs :=
       {| CTRLA := 5; CTRLB := 0; INTCTRL := 1; INTFLAGS := 1; CCMP := 4000 |};
     pins := [digitalWrite 9 LOW; pinMode_OUTPUT 9] |}.

(** ** Active channels of a timer *)

Section TimerChannels.

Context {P : Platform}.

(** Some channel of [timer] is active: one of the [SERVOS_PER_TIMER] records
    [SERVO(timer, channel)] has its [isActive] flag set. *)
Definition channel_active (st : state) (timer : Z) : Prop :=
  exists (c : Z) (s : servo_t),
    0 <= c < SERVOS_PER_TIMER
    /\ servos st !! Z.to_nat (timer * SERVOS_PER_TIMER + c) = Some s
    /\ isActive (Pin s) = true.

End TimerChannels.

(** A second servo of the same sketch, constructed but not attached. *)
Definition second_servo : VarSpeedServo :=
  {| servoIndex := 1; min := 0; max := 0; curSeqPosition := 0;
     curSequence := initSeq_ptr |}.

Definition two_constructed : state :=
  {| servos :=
       {| Pin := {| nbr := 9; isActive := true |};
          ticks := 375; value := 0; target := 0; speed := 0 |}
       :: set_ticks 375 servo_zero
       :: replicate 10 servo_zero;
     ServoCount := 2;
     currentServoIndex := [0];
     timer_regs :=
       {| CTRLA := 5; CTRLB := 0; INTCTRL := 1; INTFLAGS := 0; CCMP := 0 |};
     pins := [pinMode_OUTPUT 9] |}.

(** ** Polling a sequence *)

Section Polling.

Context {P : Platform}.

(** The waypoint index that a call of [sequencePlay] starts from: the start
    position when the array is a new one, the stored index otherwise. *)
Definition index_in_effect (sequenceIn : sequence_ref) (startPos : Z)
    (this : VarSpeedServo) : Z :=
  if seq_ptr_eqb (curSequence this) (seq_addr sequenceIn)
  then curSeqPosition this
  else startPos.

(** Calls of [sequencePlay] on the same array without looping, one after the
    other; each call comes with its [numPositions] and [startPos] and with the
    globals as it finds them. *)
Fixpoint poll (sequenceIn : sequence_ref) (calls : list (Z * Z * state))
    (this : VarSpeedServo) : result (list played) :=
  match calls with
  | [] => Ok []
  | (numPositions, startPos, st) :: rest =>
      let* r := sequencePlay sequenceIn numPositions false startPos this st in
      let* rs := poll sequenceIn rest (play_this r) in
      Ok (r :: rs)
  end.

(** What a call on a stopped sequence leaves. *)
Definition stopped_call (this : VarSpeedServo) (call : Z * Z * state) : played :=
  {| play_ret := CURRENT_SEQUENCE_STOP; play_this := this;
     play_state := snd call; play_reads := [CURRENT_SEQUENCE_STOP] |}.

End Polling.

(** A caller's array of two waypoints, (0,100) and (45,100), and what the
    memory behind it happens to hold. *)
Definition two_waypoints : sequence_ref :=
  {| seq_addr := caller_ptr 1;
     seq_at := fun i =>
       if i =? 0 then {| position := 0; seq_speed := 100 |}
       else if i =? 1 then {| position := 45; seq_speed := 100 |}
       else {| position := 7; seq_speed := 7 |} |}.

(** The first servo while it plays [two_waypoints], at the last waypoint, and
    after the sequence has stopped. *)
Definition first_at_last : VarSpeedServo :=
  set_sequence first_servo (caller_ptr 1) 1.

Definition first_stopped : VarSpeedServo :=
  set_sequence first_servo (caller_ptr 1) CURRENT_SEQUENCE_STOP.

(** The first servo where [read] reports 45 degrees: at 251 ticks, as
    [writeMicroseconds 1010] leaves it. *)
Definition first_at_45 : state :=
  set_servos first_attached
    ({| Pin := {| nbr := 9; isActive := true |};
        ticks := 251; value := 1010; target := 0; speed := 0 |}
     :: replicate 11 servo_zero).

(** The same board clocked at 20 MHz. *)
Definition nano_every_20MHz : Platform :=
  {| clockCyclesPerMicrosecond := 20;
     SERVOS_PER_TIMER := 12;
     _Nbr_16timers := 1;
     TCB_CLKSEL_CLKTCA_gc := 4;
     TCB_CNTMODE_INT_gc := 0;
     TCB_CAPTEI_bm := 1;
     TCB_ENABLE_bm := 1;
     TCB_CAPT_bm := 1 |}.

(** ** Runs of a sketch *)

Section Sketch.

Context {P : Platform}.

(** The number of timers whose cursor is the sentinel. *)
Fixpoint idle_timers (cursors : list Z) : Z :=
  match cursors with
  | [] => 0
  | idx :: rest => (if idx =? -1 then 1 else 0) + idle_timers rest
  end.

(** No tick value that the code computes exceeds [usToTicks 16000] at the
    highest clock rate. *)
Definition armed_bound : Z := 64000.

(** What holds of the globals throughout a run: the sizes are the declared
    ones, each cursor is the sentinel or a channel, the stored ticks are
    bounded, and so is the compare register, by 4 more for each timer that
    finished its cycle. *)
Definition sketch_inv (st : state) : Prop :=
  handler_ready st
  /\ cursors_ok st
  /\ (forall (i : nat) (s : servo_t),
        servos st !! i = Some s -> 0 <= ticks s <= armed_bound)
  /\ CCMP (timer_regs st) <= armed_bound + 4 * idle_timers (currentServoIndex st).

(** The [min] and [max] of an object are [int8_t]. *)
Definition object_typed (this : VarSpeedServo) : Prop :=
  in_int8 (min this) /\ in_int8 (max this).

(** One step of a sketch: an interrupt of one of the timers, or a call of the
    library that returns. *)
Inductive sketch_step : state -> state -> Prop :=
| step_interrupt timer st st' :
    0 <= timer < _Nbr_16timers ->
    ServoHandler timer st = Ok st' ->
    sketch_step st st'
| step_new this this' st st' :
    VarSpeedServo_new this st = Ok (this', st') ->
    sketch_step st st'
| step_attach pin min_arg max_arg this idx this' st st' :
    attach pin min_arg max_arg this st = Ok (idx, this', st') ->
    sketch_step st st'
| step_detach this st st' :
    detach this st = Ok st' ->
    sketch_step st st'
| step_writeMicroseconds value this st st' :
    object_typed this ->
    writeMicroseconds value this st = Ok st' ->
    sketch_step st st'
| step_write value this st st' :
    object_typed this ->
    write value this st = Ok st' ->
    sketch_step st st'
| step_write_speed value speed this st st' :
    object_typed this ->
    write_speed value speed this st = Ok st' ->
    sketch_step st st'
| step_sequencePlay sequenceIn numPositions loop startPos this st r :
    object_typed this ->
    sequencePlay sequenceIn numPositions loop startPos this st = Ok r ->
    sketch_step st (play_state r).

(** The states of a run from the zero-initialised globals. *)
Inductive reachable : state -> Prop :=
| reachable_boot : reachable boot_state
| reachable_step st st' : reachable st -> sketch_step st st' -> reachable st'.

End Sketch.

(** Two states that the scheduler cannot tell apart. *)
Definition same_schedule (st st' : state) : Prop :=
  servos st' = servos st
  /\ ServoCount st' = ServoCount st
  /\ currentServoIndex st' = currentServoIndex st
  /\ CCMP (timer_regs st') = CCMP (timer_regs st).

(** [n] objects constructed one after the other. *)
Fixpoint construct {P : Platform} (n : nat) (st : state) : result state :=
  match n with
  | O => Ok st
  | S n' =>
      let* c := VarSpeedServo_new object_zero st in
      construct n' (snd c)
  end.

(** ** The rest of VarSpeedServo.cpp *)

Section MoreCode.

Context {P : Platform}.

(** The interrupt vector of the timer in use. *)
Definition TCB_INT_vect (st : state) : result state := ServoHandler 0 st.

(** [attach(int pin)]. *)
Definition attach_default (pin : Z) (this : VarSpeedServo) (st : state)
  : result (Z * VarSpeedServo * state) :=
  attach pin MIN_PULSE_WIDTH MAX_PULSE_WIDTH this st.

Definition attached (this : VarSpeedServo) (st : state) : result bool :=
  let* s := servo_load st (servoIndex this) in
  Ok (isActive (Pin s)).

Definition stop (this : VarSpeedServo) (st : state) : result state :=
  let* angle := read this st in
  write angle this st.

Definition slowmove (value speed : Z) (this : VarSpeedServo) (st : state)
  : result state :=
  write_speed value speed this st.

(** [sequencePlay(sequenceIn, numPositions)]. *)
Definition sequencePlay_looping (sequenceIn : sequence_ref) (numPositions : Z)
    (this : VarSpeedServo) (st : state) : result played :=
  sequencePlay sequenceIn numPositions true 0 this st.

(** [delay(5)]: the library does nothing meanwhile; the interrupts of the
    timers named fire. *)
Definition delay (interrupts : list Z) (st : state) : result state :=
  run_handler interrupts st.

(** [while (!arrived) delay(5);], one list of interrupts for each delay that
    is granted. The loop returns with the globals ([Some]), or is still
    waiting when the delays are used up ([None]). *)
Fixpoint poll_until (arrived : state -> result bool) (delays : list (list Z))
    (st : state) : result (option state) :=
  match delays with
  | [] =>
      let* done := arrived st in
      if done then Ok (Some st) else Ok None
  | interrupts :: rest =>
      let* done := arrived st in
      if done then Ok (Some st)
      else let* st := delay interrupts st in poll_until arrived rest st
  end.

(** The two loop conditions of [write(value, speed, wait)] and [wait()]. *)
Definition at_angle (value : Z) (this : VarSpeedServo) (st : state) : result bool :=
  let* angle := read this st in Ok (angle =? value).

Definition at_pulse (value : Z) (this : VarSpeedServo) (st : state) : result bool :=
  let* us := readMicroseconds this st in Ok (us =? value).

(** [write(int value, uint8_t speed, bool wait)]. *)
Definition write_wait (value speed : Z) (wait : bool) (delays : list (list Z))
    (this : VarSpeedServo) (st : state) : result (option state) :=
  let* st := write_speed value speed this st in
  if wait then
    if value <? MIN_PULSE_WIDTH
    then poll_until (at_angle value this) delays st
    else poll_until (at_pulse value this) delays st
  else Ok (Some st).

(** [wait()]. *)
Definition wait (delays : list (list Z)) (this : VarSpeedServo) (st : state)
  : result (option state) :=
  let channel := servoIndex this in
  let* s := servo_load st channel in
  let value := to_int (value s) in
  if value <? MIN_PULSE_WIDTH
  then poll_until (at_angle value this) delays st
  else poll_until (at_pulse value this) delays st.

(** The value that the servo reports in the unit of [value]. *)
Definition reported (value : Z) (this : VarSpeedServo) (st : state) : result Z :=
  if value <? MIN_PULSE_WIDTH then read this st else readMicroseconds this st.

End MoreCode.

(** The angle that [read] computes from a tick count at a 16 MHz clock: four
    microseconds a tick, the trim and one more on top, mapped back to
    degrees with the quotient truncated as C truncates it. *)
Definition angle_of_ticks {P : Platform} (this : VarSpeedServo) (t : Z) : Z :=
  Z.quot ((4 * t + 6 - calibrated_min this) * 180)
         (calibrated_max this - calibrated_min this).

(** The ticks of a servo are those of some pulse width in its calibrated
    range, as the constructor and every write leave them. *)
Definition ticks_calibrated {P : Platform} (this : VarSpeedServo) (t : Z) : Prop :=
  exists c, calibrated_min this <= c <= calibrated_max this /\ t = (c - 5) / 4.

(** ** One refresh cycle of a timer *)

Section RefreshCycle.

Context {P : Platform}.

(** The registered channels of [timer], in channel order. *)
Definition timer_channels (st : state) (timer : Z) : list servo_t :=
  take (Z.to_nat (Z.min SERVOS_PER_TIMER (ServoCount st - timer * SERVOS_PER_TIMER)))
       (drop (Z.to_nat (timer * SERVOS_PER_TIMER)) (servos st)).

(** The pin is driven only for an active channel. *)
Definition edge (level : bool) (s : servo_t) : list pin_event :=
  if isActive (Pin s) then [digitalWrite (nbr (Pin s)) level] else [].

(** The pulse of one channel, in the order of time. *)
Definition pulse (s : servo_t) : list pin_event := edge HIGH s ++ edge LOW s.

(** The edge of channel [c] of [timer], if [c] is a registered channel. *)
Definition channel_edge (level : bool) (st : state) (timer c : Z) : list pin_event :=
  if (0 <=? c) && (c <? SERVOS_PER_TIMER) && (SERVO_INDEX timer c <? ServoCount st)
  then match servos st !! Z.to_nat (SERVO_INDEX timer c) with
       | Some s => edge level s
       | None => []
       end
  else [].

(** The compare value of the refresh wait, from the elapsed ticks read. *)
Definition refresh_compare (tcCounterValue : Z) : Z :=
  if to_ulong (tcCounterValue + 4) <? to_ulong (usToTicks REFRESH_INTERVAL)
  then to_uint16 (usToTicks REFRESH_INTERVAL)
  else to_uint16 (to_ulong (tcCounterValue + 4)).

End RefreshCycle.

(** ** A sketch that polls a sequence *)

Section Replay.

Context {P : Platform}.

(** [loop() { pos = servo.sequencePlay(seq, n, loop, start); delay(..); }]:
    one call of [sequencePlay] per entry of [gaps], each followed by the
    interrupts that arrive before the next; the result is the indices
    returned, in order. *)
Fixpoint replay (sequenceIn : sequence_ref) (numPositions : Z) (loop : bool)
    (startPos : Z) (gaps : list (list Z)) (this : VarSpeedServo) (st : state)
  : result (list Z) :=
  match gaps with
  | [] => Ok []
  | interrupts :: rest =>
      let* r := sequencePlay sequenceIn numPositions loop startPos this st in
      let* st := delay interrupts (play_state r) in
      let* rs := replay sequenceIn numPositions loop startPos rest (play_this r) st in
      Ok (play_ret r :: rs)
  end.

End Replay.

(** ** Objects of a sketch *)

Section Objects.

Context {P : Platform}.

(** The indices that [n] objects get, constructed one after the other. *)
Fixpoint construct_indices (n : nat) (st : state) : result (list Z) :=
  match n with
  | O => Ok []
  | S n' =>
      let* c := VarSpeedServo_new object_zero st in
      let* rest := construct_indices n' (snd c) in
      Ok (servoIndex (fst c) :: rest)
  end.

End Objects.

(** ** A sketch with every channel in use *)

Section Armed.

Context {P : Platform}.

(** [Servo s; s.attach(pin);] for each pin of the list, one after the other. *)
Fixpoint attach_each (pin_list : list Z) (st : state) : result state :=
  match pin_list with
  | [] => Ok st
  | pin :: rest =>
      let* c := VarSpeedServo_new object_zero st in
      let* a := attach_default pin (fst c) (snd c) in
      attach_each rest (snd a)
  end.

(** The compare value that each interrupt of a run arms, in order. *)
Fixpoint armed_values (timers : list Z) (st : state) : result (list Z) :=
  match timers with
  | [] => Ok []
  | t :: ts =>
      let* st' := ServoHandler t st in
      let* rest := armed_values ts st' in
      Ok (CCMP (timer_regs st') :: rest)
  end.

(** The ticks elapsed since a cycle began. [initISR] selects the periodic
    interrupt mode, and [ServoHandler] arms each channel from a counter value
    of 0: every interrupt comes one compare value after the one before, so
    the elapsed ticks are the sum of the compare values armed in the cycle so
    far. *)
Definition elapsed_ticks (armed : list Z) : Z := foldr Z.add 0 armed.

End Armed.

(** The sketch after its first constructor, before any [attach]. *)
Definition first_constructed : state :=
  {| servos := set_ticks 375 servo_zero :: replicate 11 servo_zero;
     ServoCount := 1;
     currentServoIndex := [0];
     timer_regs := regs_zero;
     pins := [] |}.

(** * Properties *)

(** ** Conversions that change nothing *)

Section CIntFacts.

Lemma to_uint8_id x : in_uint8 x -> to_uint8 x = x.
Proof. unfold in_uint8, to_uint8, wrap_unsigned. intros H. apply Z.mod_small. lia. Qed.

Lemma to_uint16_id x : in_uint16 x -> to_uint16 x = x.
Proof. unfold in_uint16, to_uint16, wrap_unsigned. intros H. apply Z.mod_small. lia. Qed.

Lemma to_ulong_id x : 0 <= x < 4294967296 -> to_ulong x = x.
Proof. unfold to_ulong, wrap_unsigned. intros H. apply Z.mod_small. lia. Qed.

Lemma to_int8_id x : in_int8 x -> to_int8 x = x.
Proof.
  unfold in_int8, to_int8, wrap_signed. intros H.
  change (2 ^ (8 - 1)) with 128. change (2 ^ 8) with 256.
  rewrite Z.mod_small; lia.
Qed.

Lemma to_int_id x : in_int x -> to_int x = x.
Proof.
  unfold in_int, to_int, wrap_signed. intros H.
  change (2 ^ (16 - 1)) with 32768. change (2 ^ 16) with 65536.
  rewrite Z.mod_small; lia.
Qed.

Lemma to_long_id x : -2147483648 <= x <= 2147483647 -> to_long x = x.
Proof.
  unfold to_long, wrap_signed. intros H.
  change (2 ^ (32 - 1)) with 2147483648. change (2 ^ 32) with 4294967296.
  rewrite Z.mod_small; lia.
Qed.

Lemma to_int8_range x : in_int8 (to_int8 x).
Proof.
  unfold in_int8, to_int8, wrap_signed.
  change (2 ^ (8 - 1)) with 128. change (2 ^ 8) with 256.
  pose proof (Z.mod_pos_bound (x + 128) 256). lia.
Qed.

Lemma to_uint16_range x : in_uint16 (to_uint16 x).
Proof.
  unfold in_uint16, to_uint16, wrap_unsigned. change (2 ^ 16) with 65536.
  pose proof (Z.mod_pos_bound x 65536). lia.
Qed.

(** Storing an [int] into an [unsigned int] keeps the low 16 bits. *)
Lemma to_uint16_to_int x : to_uint16 (to_int x) = to_uint16 x.
Proof.
  unfold to_uint16, to_int, wrap_unsigned, wrap_signed.
  change (2 ^ (16 - 1)) with 32768. change (2 ^ 16) with 65536.
  rewrite (Z.mod_eq (x + 32768) 65536) by lia.
  replace (x + 32768 - 65536 * ((x + 32768) / 65536) - 32768)
    with (x + (- ((x + 32768) / 65536)) * 65536) by lia.
  apply Z.mod_add. lia.
Qed.

End CIntFacts.

(** ** Table accesses and the calibrated range *)

Section TableFacts.

Context {P : Platform}.

Lemma SERVO_MIN_calibrated this :
  in_int8 (min this) ->
  SERVO_MIN this = calibrated_min this /\ 36 <= calibrated_min this <= 1056.
Proof.
  unfold in_int8, SERVO_MIN, calibrated_min, MIN_PULSE_WIDTH. intros H.
  rewrite (to_int_id (min this * 4)) by (unfold in_int; lia).
  rewrite to_int_id by (unfold in_int; lia). lia.
Qed.

Lemma SERVO_MAX_calibrated this :
  in_int8 (max this) ->
  SERVO_MAX this = calibrated_max this /\ 1892 <= calibrated_max this <= 2912.
Proof.
  unfold in_int8, SERVO_MAX, calibrated_max, MAX_PULSE_WIDTH. intros H.
  rewrite (to_int_id (max this * 4)) by (unfold in_int; lia).
  rewrite to_int_id by (unfold in_int; lia). lia.
Qed.

Lemma servo_load_ok st i s :
  0 <= i -> servos st !! Z.to_nat i = Some s -> servo_load st i = Ok s.
Proof.
  intros Hi Hs. unfold servo_load.
  destruct (i <? 0) eqn:E; [apply Z.ltb_lt in E; lia|]. now rewrite Hs.
Qed.

Lemma servo_store_ok st i f s :
  0 <= i -> servos st !! Z.to_nat i = Some s ->
  servo_store st i f = Ok (set_servos st (<[Z.to_nat i := f s]> (servos st))).
Proof.
  intros Hi Hs. unfold servo_store. now rewrite (servo_load_ok st i s).
Qed.

Lemma table_slot st i :
  table_ok st -> 0 <= i < MAX_SERVOS ->
  exists s, servos st !! Z.to_nat i = Some s.
Proof.
  unfold table_ok. intros Hlen Hi.
  destruct (lookup_lt_is_Some_2 (servos st) (Z.to_nat i)) as [s Hs]; [lia|eauto].
Qed.

Lemma servo_load_out st i :
  table_ok st -> MAX_SERVOS <= i -> servo_load st i = Fault (OutOfBounds i).
Proof.
  unfold table_ok, servo_load. intros Hlen Hi.
  destruct (i <? 0); [reflexivity|].
  rewrite (lookup_ge_None_2 (servos st) (Z.to_nat i)) by lia. reflexivity.
Qed.

Lemma lookup_after_store {A : Type} (l : list A) (i : nat) s x :
  l !! i = Some s -> <[i := x]> l !! i = Some x.
Proof. intros H. apply list_lookup_insert_eq. eapply lookup_lt_Some; eauto. Qed.

End TableFacts.

(** ** The arithmetic of a write *)

Section WriteArithmetic.

Context {P : Platform}.

Lemma usToTicks_pulse x :
  clock_ok -> 0 <= x <= 32767 ->
  usToTicks x = pulse_to_ticks x /\ 0 <= pulse_to_ticks x <= 4 * x.
Proof.
  unfold clock_ok, usToTicks, pulse_to_ticks. intros Hc Hx.
  rewrite (Z.quot_div_nonneg clockCyclesPerMicrosecond 16) by lia.
  assert (Hk : 0 <= clockCyclesPerMicrosecond / 16 <= 15).
  { split; [apply Z.div_pos; lia|].
    enough (clockCyclesPerMicrosecond / 16 < 16) by lia.
    apply Z.div_lt_upper_bound; lia. }
  set (k := clockCyclesPerMicrosecond / 16) in *.
  rewrite (to_long_id k) by lia.
  assert (Hkx : 0 <= k * x <= 15 * x).
  { split; [apply Z.mul_nonneg_nonneg; lia|].
    apply Z.mul_le_mono_nonneg_r; lia. }
  rewrite (to_long_id (k * x)) by lia.
  rewrite Z.quot_div_nonneg by lia.
  split; [reflexivity|].
  split; [apply Z.div_pos; lia|].
  apply Z.div_le_upper_bound; lia.
Qed.

Lemma map_angle this a :
  in_int8 (min this) -> in_int8 (max this) -> 0 <= a <= 180 ->
  map a 0 180 (SERVO_MIN this) (SERVO_MAX this) = Ok (angle_to_pulse this a)
  /\ calibrated_min this <= angle_to_pulse this a <= calibrated_max this.
Proof.
  intros Hmin Hmax Ha.
  destruct (SERVO_MIN_calibrated this Hmin) as [-> Hlo].
  destruct (SERVO_MAX_calibrated this Hmax) as [-> Hhi].
  unfold map, angle_to_pulse.
  set (lo := calibrated_min this) in *. set (hi := calibrated_max this) in *.
  assert (Hq : 0 <= a * (hi - lo) / 180 <= hi - lo).
  { split; [apply Z.div_pos; nia|]. apply Z.div_le_upper_bound; nia. }
  change (180 - 0) with 180. rewrite (to_long_id 180) by lia.
  change (180 =? 0) with false. cbv iota.
  rewrite Z.sub_0_r. rewrite (to_long_id a) by lia.
  rewrite (to_long_id (hi - lo)) by lia.
  rewrite (to_long_id (a * (hi - lo))) by nia.
  rewrite Z.quot_div_nonneg by nia.
  rewrite to_long_id by lia.
  split; [f_equal; lia | lia].
Qed.

Lemma constrain_clamp lo hi x : lo <= hi -> constrain x lo hi = clamp lo hi x.
Proof.
  unfold constrain, clamp. intros H.
  destruct (x <? lo) eqn:E1; [apply Z.ltb_lt in E1; lia|apply Z.ltb_ge in E1].
  destruct (x >? hi) eqn:E2; [apply Z.gtb_lt in E2; lia|].
  rewrite Z.gtb_ltb in E2. apply Z.ltb_ge in E2. lia.
Qed.

(** The angle-or-microseconds step shared by [write] and [write_speed]. *)
Lemma requested_pulse_range this v :
  in_int8 (min this) -> in_int8 (max this) -> in_int v ->
  0 <= requested_pulse this v <= 32767.
Proof.
  intros Hmin Hmax Hv. unfold requested_pulse, in_int in *.
  destruct (SERVO_MIN_calibrated this Hmin) as [_ Hlo].
  destruct (SERVO_MAX_calibrated this Hmax) as [_ Hhi].
  destruct (v <? MIN_PULSE_WIDTH) eqn:E.
  - destruct (map_angle this (clamp 0 180 v) Hmin Hmax) as [_ Hr];
      [unfold clamp; lia|lia].
  - apply Z.ltb_ge in E. unfold MIN_PULSE_WIDTH in E. lia.
Qed.

(** The tick value computed by [writeMicroseconds] and [write_speed]. *)
Lemma trimmed_ticks this us :
  clock_ok -> in_int8 (min this) -> in_int8 (max this) ->
  to_uint16
    (to_int (usToTicks
       (to_int (constrain us (SERVO_MIN this) (SERVO_MAX this) - TRIM_DURATION))))
  = pulse_to_ticks
      (clamp (calibrated_min this) (calibrated_max this) us - TRIM_DURATION).
Proof.
  intros Hc Hmin Hmax.
  destruct (SERVO_MIN_calibrated this Hmin) as [-> Hlo].
  destruct (SERVO_MAX_calibrated this Hmax) as [-> Hhi].
  rewrite constrain_clamp by lia.
  set (x := clamp (calibrated_min this) (calibrated_max this) us - TRIM_DURATION).
  assert (Hx : 31 <= x <= 2907)
    by (unfold x, clamp, TRIM_DURATION; lia).
  rewrite (to_int_id x) by (unfold in_int; lia).
  destruct (usToTicks_pulse x Hc) as [-> Ht]; [lia|].
  rewrite to_int_id by (unfold in_int; lia).
  apply to_uint16_id. unfold in_uint16. lia.
Qed.

End WriteArithmetic.

(** ** The write entry points *)

Section WriteFacts.

Context {P : Platform}.

(** The record that a write leaves in the slot of a servo. *)
Lemma writeMicroseconds_ok this st us s :
  clock_ok -> valid_servo this ->
  servos st !! Z.to_nat (servoIndex this) = Some s ->
  writeMicroseconds us this st
  = Ok (set_servos st
          (<[Z.to_nat (servoIndex this) :=
               {| Pin := Pin s;
                  ticks := pulse_to_ticks
                             (clamp (calibrated_min this) (calibrated_max this) us
                              - TRIM_DURATION);
                  value := to_uint16 us;
                  target := target s;
                  speed := speed s |}]> (servos st))).
Proof.
  intros Hc (Hidx & Hmin & Hmax) Hs. unfold writeMicroseconds.
  rewrite (servo_store_ok st _ _ s) by (lia || assumption).
  cbn [bind].
  replace ((servoIndex this >=? 0) && (servoIndex this <? MAX_SERVOS)) with true.
  2:{ symmetry. apply andb_true_intro. split; [apply Z.geb_le|apply Z.ltb_lt]; lia. }
  change (if us <? SERVO_MIN this then SERVO_MIN this
          else if us >? SERVO_MAX this then SERVO_MAX this else us)
    with (constrain us (SERVO_MIN this) (SERVO_MAX this)).
  rewrite (trimmed_ticks this us Hc Hmin Hmax).
  erewrite servo_store_ok; [|lia|cbn [servos set_servos]; eapply lookup_after_store; eauto].
  cbn [servos set_servos]. rewrite list_insert_insert_eq. reflexivity.
Qed.

(** The value that [write] hands over to [writeMicroseconds]. *)
Lemma write_requested this v :
  in_int8 (min this) -> in_int8 (max this) -> in_int v ->
  (if v <? MIN_PULSE_WIDTH then
     let* m := map (if v <? 0 then 0 else if v >? 180 then 180 else v)
                   0 180 (SERVO_MIN this) (SERVO_MAX this) in
     Ok (to_int m)
   else Ok v) = Ok (requested_pulse this v).
Proof.
  intros Hmin Hmax Hv. unfold requested_pulse.
  destruct (v <? MIN_PULSE_WIDTH) eqn:E; [|reflexivity].
  change (if v <? 0 then 0 else if v >? 180 then 180 else v) with (constrain v 0 180).
  rewrite constrain_clamp by lia.
  destruct (map_angle this (clamp 0 180 v) Hmin Hmax) as [-> Hr];
    [unfold clamp; lia|].
  cbn [bind]. f_equal. apply to_int_id.
  destruct (SERVO_MIN_calibrated this Hmin) as [_ Hlo].
  destruct (SERVO_MAX_calibrated this Hmax) as [_ Hhi].
  unfold in_int. lia.
Qed.

Lemma write_ok this st v s :
  clock_ok -> valid_servo this -> in_int v ->
  servos st !! Z.to_nat (servoIndex this) = Some s ->
  write v this st
  = Ok (set_servos st
          (<[Z.to_nat (servoIndex this) :=
               {| Pin := Pin s;
                  ticks := commanded_ticks this v;
                  value := requested_pulse this v;
                  target := target s;
                  speed := speed s |}]> (servos st))).
Proof.
  intros Hc Hv Hin Hs. pose proof Hv as (Hidx & Hmin & Hmax).
  unfold write. rewrite (write_requested this v Hmin Hmax Hin). cbn [bind].
  rewrite (writeMicroseconds_ok this st _ s Hc Hv Hs).
  rewrite to_uint16_id; [reflexivity|].
  pose proof (requested_pulse_range this v Hmin Hmax Hin).
  unfold in_uint16. lia.
Qed.

Lemma write_speed_ok this st v sp s :
  clock_ok -> valid_servo this -> in_int v -> sp <> 0 ->
  servos st !! Z.to_nat (servoIndex this) = Some s ->
  write_speed v sp this st
  = Ok (set_servos st
          (<[Z.to_nat (servoIndex this) :=
               {| Pin := Pin s;
                  ticks := ticks s;
                  value := to_uint16 v;
                  target := commanded_ticks this v;
                  speed := sp |}]> (servos st))).
Proof.
  intros Hc Hv Hin Hsp Hs. pose proof Hv as (Hidx & Hmin & Hmax).
  unfold write_speed.
  rewrite (servo_store_ok st _ _ s) by (lia || assumption).
  cbn [bind].
  replace (sp =? 0) with false by (symmetry; apply Z.eqb_neq; assumption).
  cbn [negb].
  pose proof (write_requested this v Hmin Hmax Hin) as Hreq.
  change (if v <? 0 then 0 else if v >? 180 then 180 else v)
    with (constrain v 0 180) in Hreq.
  rewrite Hreq. cbn [bind].
  replace ((servoIndex this >=? 0) && (servoIndex this <? MAX_SERVOS)) with true.
  2:{ symmetry. apply andb_true_intro. split; [apply Z.geb_le|apply Z.ltb_lt]; lia. }
  rewrite (trimmed_ticks this _ Hc Hmin Hmax).
  fold (commanded_ticks this v).
  erewrite servo_store_ok; [|lia|cbn [servos set_servos]; eapply lookup_after_store; eauto].
  cbn [bind].
  erewrite servo_store_ok; [|lia|cbn [servos set_servos]; eapply lookup_after_store;
                                   eapply lookup_after_store; eauto].
  cbn [servos set_servos]. rewrite !list_insert_insert_eq. reflexivity.
Qed.

(** With speed 0 the first store of [write_speed] is overwritten by the one
    of [writeMicroseconds]. *)
Lemma write_speed_zero this st v :
  write_speed v 0 this st = write v this st.
Proof.
  unfold write_speed. change (negb (0 =? 0)) with false. cbv iota.
  unfold servo_store at 1.
  destruct (servo_load st (servoIndex this)) as [s|f] eqn:Hload; cbn [bind].
  - unfold write.
    destruct (if v <? MIN_PULSE_WIDTH then _ else _) as [us|f]; cbn [bind];
      [|reflexivity].
    unfold writeMicroseconds.
    assert (Hsome : 0 <= servoIndex this /\
                    servos st !! Z.to_nat (servoIndex this) = Some s).
    { unfold servo_load in Hload.
      destruct (servoIndex this <? 0) eqn:E; [discriminate|].
      apply Z.ltb_ge in E.
      destruct (servos st !! Z.to_nat (servoIndex this)); [|discriminate].
      split; [assumption|congruence]. }
    destruct Hsome as [Hnn Hsome].
    erewrite (servo_store_ok (set_servos st _));
      [|assumption|cbn [servos set_servos]; eapply lookup_after_store; eauto].
    rewrite (servo_store_ok st _ _ s) by assumption.
    cbn [bind servos set_servos].
    destruct ((servoIndex this >=? 0) && (servoIndex this <? MAX_SERVOS)).
    + erewrite !servo_store_ok;
        try (cbn [servos set_servos]; repeat eapply lookup_after_store; eauto);
        try assumption.
      cbn [servos set_servos]. rewrite !list_insert_insert_eq. reflexivity.
    + rewrite list_insert_insert_eq. reflexivity.
  - unfold write.
    destruct (if v <? MIN_PULSE_WIDTH then _ else _) as [us|f'] eqn:Hconv;
      cbn [bind].
    + unfold writeMicroseconds, servo_store. rewrite Hload. reflexivity.
    + (* the division by 180 cannot fail *)
      exfalso.
      destruct (v <? MIN_PULSE_WIDTH); [|discriminate].
      unfold map in Hconv. change (to_long (180 - 0) =? 0) with false in Hconv.
      cbn [bind] in Hconv. discriminate.
Qed.

End WriteFacts.

(** ** Claims about the write protocol *)

Ltac by_computation :=
  repeat split; vm_compute; first [reflexivity | discriminate | (intros; lia)].

(** C1: for a servo with a valid index and calibrated bounds and every [int]
    value [v], [write v] takes [v] below 544 as an angle, clamped to [0,180]
    and mapped linearly onto the calibrated range, and [v] from 544 on as
    microseconds; the result is clamped to the calibrated range, reduced by
    the trim of 5, converted to ticks and stored at once in the [ticks] field
    of the servo's record. *)
Theorem write_stores_ticks_immediately {P : Platform} this st v :
  clock_ok -> valid_servo this -> table_ok st -> in_int v ->
  exists s,
    servos st !! Z.to_nat (servoIndex this) = Some s
    /\ write v this st
       = Ok (set_servos st
               (<[Z.to_nat (servoIndex this) :=
                    {| Pin := Pin s;
                       ticks := commanded_ticks this v;
                       value := requested_pulse this v;
                       target := target s;
                       speed := speed s |}]> (servos st)))
    /\ (v < 544 -> requested_pulse this v = angle_to_pulse this (clamp 0 180 v))
    /\ (544 <= v -> requested_pulse this v = v)
    /\ commanded_ticks this v
       = (clockCyclesPerMicrosecond / 16
          * (clamp (calibrated_min this) (calibrated_max this)
               (requested_pulse this v) - 5)) / 4.
Proof.
  intros Hc Hv Ht Hin.
  destruct (table_slot st (servoIndex this) Ht) as [s Hs]; [apply Hv|].
  exists s. split; [assumption|].
  split; [apply write_ok; assumption|].
  unfold requested_pulse, MIN_PULSE_WIDTH.
  repeat split.
  - intros Hlt. apply Z.ltb_lt in Hlt. now rewrite Hlt.
  - intros Hge. apply Z.ltb_ge in Hge. now rewrite Hge.
Qed.

Lemma write_stores_ticks_immediately_witness :
  exists s,
    servos first_attached !! Z.to_nat (servoIndex first_servo) = Some s
    /\ write (P := nano_every) 90 first_servo first_attached
       = Ok (set_servos first_attached
               (<[Z.to_nat (servoIndex first_servo) :=
                    {| Pin := Pin s;
                       ticks := commanded_ticks (P := nano_every) first_servo 90;
                       value := requested_pulse first_servo 90;
                       target := target s;
                       speed := speed s |}]> (servos first_attached)))
    /\ (90 < 544 -> requested_pulse first_servo 90
                    = angle_to_pulse first_servo (clamp 0 180 90))
    /\ (544 <= 90 -> requested_pulse first_servo 90 = 90)
    /\ commanded_ticks (P := nano_every) first_servo 90
       = (clockCyclesPerMicrosecond (Platform := nano_every) / 16
          * (clamp (calibrated_min first_servo) (calibrated_max first_servo)
               (requested_pulse first_servo 90) - 5)) / 4.
Proof.
  apply (write_stores_ticks_immediately (P := nano_every) first_servo first_attached 90);
    by_computation.
Defined.

(** C3: for a servo with a valid index, [write_speed v speed] with a speed
    other than 0 stores the clamped, trim-compensated tick result in [target]
    together with [speed] and leaves [ticks] as it was; with speed 0 it ends
    in exactly the state that [write v] ends in. *)
Theorem write_speed_sets_target {P : Platform} this st v sp :
  clock_ok -> valid_servo this -> table_ok st -> in_int v ->
  exists s,
    servos st !! Z.to_nat (servoIndex this) = Some s
    /\ (sp <> 0 ->
        write_speed v sp this st
        = Ok (set_servos st
                (<[Z.to_nat (servoIndex this) :=
                     {| Pin := Pin s;
                        ticks := ticks s;
                        value := to_uint16 v;
                        target := commanded_ticks this v;
                        speed := sp |}]> (servos st))))
    /\ exists st', write v this st = Ok st' /\ write_speed v 0 this st = Ok st'.
Proof.
  intros Hc Hv Ht Hin.
  destruct (table_slot st (servoIndex this) Ht) as [s Hs]; [apply Hv|].
  exists s. split; [assumption|]. split.
  - intros Hsp. apply write_speed_ok; assumption.
  - eexists. split; [apply (write_ok this st v s); assumption|].
    rewrite write_speed_zero. apply (write_ok this st v s); assumption.
Qed.

Lemma write_speed_sets_target_witness :
  exists s,
    servos first_attached !! Z.to_nat (servoIndex first_servo) = Some s
    /\ (100 <> 0 ->
        write_speed (P := nano_every) 45 100 first_servo first_attached
        = Ok (set_servos first_attached
                (<[Z.to_nat (servoIndex first_servo) :=
                     {| Pin := Pin s;
                        ticks := ticks s;
                        value := to_uint16 45;
                        target := commanded_ticks (P := nano_every) first_servo 45;
                        speed := 100 |}]> (servos first_attached))))
    /\ exists st', write (P := nano_every) 45 first_servo first_attached = Ok st'
                   /\ write_speed (P := nano_every) 45 0 first_servo first_attached
                      = Ok st'.
Proof.
  apply (write_speed_sets_target (P := nano_every) first_servo first_attached 45 100);
    by_computation.
Defined.

(** C8 fails on the code: [write 90] on the first servo of a sketch, attached
    with the default bounds, leaves 1472 in the record's [value] field, the
    pulse width in microseconds that 90 degrees maps to, and so does
    [write_speed 90 0]; [write_speed 90 100] and [writeMicroseconds 1500]
    leave their argument there. *)
Theorem write_records_converted_value :
  (exists st', write (P := nano_every) 90 first_servo first_attached = Ok st'
                  /\ value <$> servos st' !! 0%nat = Some 1472)
  /\ (exists st', write_speed (P := nano_every) 90 0 first_servo first_attached = Ok st'
                  /\ value <$> servos st' !! 0%nat = Some 1472)
  /\ (exists st', write_speed (P := nano_every) 90 100 first_servo first_attached = Ok st'
                  /\ value <$> servos st' !! 0%nat = Some 90)
  /\ (exists st', writeMicroseconds (P := nano_every) 1500 first_servo first_attached
                  = Ok st'
                  /\ value <$> servos st' !! 0%nat = Some 1500).
Proof.
  repeat split; eexists; (split; [vm_compute; reflexivity|reflexivity]).
Qed.

(** The concrete states are reached by the code itself. *)
Lemma first_attached_reached :
  (let* c := VarSpeedServo_new (P := nano_every) object_zero
               (boot_state (P := nano_every)) in
   attach (P := nano_every) 9 544 2400 (fst c) (snd c))
  = Ok (0, first_servo, first_attached).
Proof. vm_compute. reflexivity. Qed.

Lemma first_idle_reached :
  ServoHandler (P := nano_every) 0 first_attached = Ok first_idle.
Proof. vm_compute. reflexivity. Qed.

Lemma two_constructed_reached :
  VarSpeedServo_new (P := nano_every) object_zero first_attached
  = Ok (second_servo, two_constructed).
Proof. vm_compute. reflexivity. Qed.

Lemma first_at_45_reached :
  writeMicroseconds (P := nano_every) 1010 first_servo first_attached
  = Ok first_at_45.
Proof. vm_compute. reflexivity. Qed.

Lemma full_state_reached :
  construct (P := nano_every) 12 (boot_state (P := nano_every)) = Ok full_state.
Proof. vm_compute. reflexivity. Qed.

Lemma surplus_servo_constructed :
  VarSpeedServo_new (P := nano_every) object_zero full_state
  = Ok (surplus_servo, full_state).
Proof. vm_compute. reflexivity. Qed.

Section InvalidIndex.

Context {P : Platform}.

(** Once the table is full the constructor hands out the invalid index. *)
Lemma VarSpeedServo_new_full this st :
  MAX_SERVOS <= ServoCount st ->
  exists this', VarSpeedServo_new this st = Ok (this', st)
                /\ servoIndex this' = INVALID_SERVO.
Proof.
  intros Hfull. unfold VarSpeedServo_new.
  destruct (ServoCount st <? MAX_SERVOS) eqn:E; [apply Z.ltb_lt in E; lia|].
  eexists. split; reflexivity.
Qed.

Lemma readMicroseconds_invalid this st :
  servoIndex this = INVALID_SERVO -> readMicroseconds this st = Ok 0.
Proof.
  intros Hinv. unfold readMicroseconds. rewrite Hinv.
  rewrite Z.eqb_refl. reflexivity.
Qed.

(** The store to [servos[channel].value] comes before the test of [channel]:
    with the invalid index it lands outside the table. *)
Lemma writeMicroseconds_invalid this st v :
  capacity_ok -> table_ok st -> servoIndex this = INVALID_SERVO ->
  writeMicroseconds v this st = Fault (OutOfBounds 255).
Proof.
  intros (_ & _ & Hcap) Ht Hinv. unfold writeMicroseconds, servo_store.
  rewrite Hinv. unfold INVALID_SERVO.
  rewrite (servo_load_out st 255 Ht) by lia. reflexivity.
Qed.

Lemma write_speed_invalid this st v sp :
  capacity_ok -> table_ok st -> servoIndex this = INVALID_SERVO ->
  write_speed v sp this st = Fault (OutOfBounds 255).
Proof.
  intros (_ & _ & Hcap) Ht Hinv. unfold write_speed, servo_store.
  rewrite Hinv. unfold INVALID_SERVO.
  rewrite (servo_load_out st 255 Ht) by lia. reflexivity.
Qed.

Lemma write_invalid this st v :
  capacity_ok -> table_ok st -> servoIndex this = INVALID_SERVO ->
  write v this st = Fault (OutOfBounds 255).
Proof.
  intros Hcap Ht Hinv. unfold write.
  destruct (v <? MIN_PULSE_WIDTH).
  - unfold map. change (to_long (180 - 0) =? 0) with false. cbn [bind].
    now apply writeMicroseconds_invalid.
  - cbn [bind]. now apply writeMicroseconds_invalid.
Qed.

End InvalidIndex.

(** What the converted value does to [isMoving]: after [write 90] nothing
    moves, the servo reports 1469 us, and [isMoving] compares that with the
    recorded 1472. *)
Lemma isMoving_after_write_90 :
  (let* st' := write (P := nano_every) 90 first_servo first_attached in
   isMoving (P := nano_every) first_servo st') = Ok true.
Proof. vm_compute. reflexivity. Qed.

(** C4 fails on the code: the object constructed on a full table gets the
    invalid index 255 and [readMicroseconds] reports 0 for it, but each of
    [writeMicroseconds], [write] and [write_speed] first stores its argument
    through [servos[255].value], outside the 12 entries of the table, and only
    then tests the index. *)
Theorem surplus_servo_write_out_of_bounds :
  VarSpeedServo_new (P := nano_every) object_zero full_state
  = Ok (surplus_servo, full_state)
  /\ servoIndex surplus_servo = INVALID_SERVO
  /\ readMicroseconds (P := nano_every) surplus_servo full_state = Ok 0
  /\ writeMicroseconds (P := nano_every) 1500 surplus_servo full_state
     = Fault (OutOfBounds 255)
  /\ write (P := nano_every) 90 surplus_servo full_state = Fault (OutOfBounds 255)
  /\ write_speed (P := nano_every) 90 100 surplus_servo full_state
     = Fault (OutOfBounds 255).
Proof. repeat split; vm_compute; reflexivity. Qed.

(** ** The pulse scheduler *)

Section Handler.

Context {P : Platform}.

Lemma SERVO_INDEX_plain timer c :
  capacity_ok -> 0 <= timer < _Nbr_16timers -> -1 <= c <= SERVOS_PER_TIMER ->
  SERVO_INDEX timer c = timer * SERVOS_PER_TIMER + c
  /\ 0 <= timer * SERVOS_PER_TIMER <= MAX_SERVOS - SERVOS_PER_TIMER.
Proof.
  unfold capacity_ok, MAX_SERVOS, SERVO_INDEX. intros (Hspt & Hn & Hmax) Ht Hc.
  assert (Hprod : 0 <= timer * SERVOS_PER_TIMER
                  <= _Nbr_16timers * SERVOS_PER_TIMER - SERVOS_PER_TIMER).
  { split; [apply Z.mul_nonneg_nonneg; lia|].
    replace (_Nbr_16timers * SERVOS_PER_TIMER - SERVOS_PER_TIMER)
      with ((_Nbr_16timers - 1) * SERVOS_PER_TIMER) by lia.
    apply Z.mul_le_mono_nonneg_r; lia. }
  rewrite (to_int_id (timer * SERVOS_PER_TIMER)) by (unfold in_int; lia).
  rewrite to_int_id by (unfold in_int; lia).
  split; [reflexivity|assumption].
Qed.

Lemma index_load_ok st timer idx :
  0 <= timer -> currentServoIndex st !! Z.to_nat timer = Some idx ->
  index_load st timer = Ok idx.
Proof.
  intros Ht Hidx. unfold index_load.
  destruct (timer <? 0) eqn:E; [apply Z.ltb_lt in E; lia|]. now rewrite Hidx.
Qed.

Lemma index_store_ok st timer idx v :
  0 <= timer -> currentServoIndex st !! Z.to_nat timer = Some idx ->
  index_store st timer v
  = Ok (set_currentServoIndex st (<[Z.to_nat timer := v]> (currentServoIndex st))).
Proof.
  intros Ht Hidx. unfold index_store. now rewrite (index_load_ok st timer idx).
Qed.

Lemma cursor_slot st timer :
  handler_ready st -> 0 <= timer < _Nbr_16timers ->
  exists idx, currentServoIndex st !! Z.to_nat timer = Some idx.
Proof.
  intros (_ & _ & Hlen & _) Ht.
  destruct (lookup_lt_is_Some_2 (currentServoIndex st) (Z.to_nat timer)) as [i Hi];
    [lia|eauto].
Qed.

Lemma cursors_ok_store st t v l :
  cursors_ok st -> cursor_ok v -> l = <[t := v]> (currentServoIndex st) ->
  forall st', currentServoIndex st' = l -> cursors_ok st'.
Proof.
  intros Hok Hv -> st' Hst' t' idx. rewrite Hst'.
  destruct (decide (t = t')) as [<-|Hne].
  - intros Hl. apply list_lookup_insert_Some in Hl as [(_ & <- & _)|(Hne & _)];
      [assumption|congruence].
  - rewrite list_lookup_insert_ne by assumption. apply Hok.
Qed.

(** One interrupt, from a state whose cursor is the sentinel or a channel:
    the servo table is only read, the cursor moves on by one, or back to the
    sentinel once the channels are exhausted. *)
Lemma ServoHandler_step timer st idx :
  capacity_ok -> handler_ready st -> 0 <= timer < _Nbr_16timers ->
  currentServoIndex st !! Z.to_nat timer = Some idx -> cursor_ok idx ->
  exists st',
    ServoHandler timer st = Ok st'
    /\ servos st' = servos st
    /\ ServoCount st' = ServoCount st
    /\ in_uint16 (CCMP (timer_regs st'))
    /\ if (SERVO_INDEX timer (idx + 1) <? ServoCount st)
          && (idx + 1 <? SERVOS_PER_TIMER)
       then currentServoIndex st'
            = <[Z.to_nat timer := idx + 1]> (currentServoIndex st)
            /\ exists s, servos st !! Z.to_nat (SERVO_INDEX timer (idx + 1)) = Some s
                         /\ CCMP (timer_regs st') = to_uint16 (ticks s)
       else currentServoIndex st'
            = <[Z.to_nat timer := -1]> (currentServoIndex st)
            /\ CCMP (timer_regs st')
               = let tcCounterValue := if idx <? 0 then 0 else CCMP (timer_regs st) in
                 if to_ulong (tcCounterValue + 4) <? to_ulong (usToTicks REFRESH_INTERVAL)
                 then to_uint16 (usToTicks REFRESH_INTERVAL)
                 else to_uint16 (to_ulong (tcCounterValue + 4)).
Proof.
  intros Hcap Hready Ht Hidx Hcur.
  pose proof Hcap as (Hspt & Hn & Hmax).
  pose proof Hready as (Htab & Hcount & Hlen & Hreg).
  assert (Hrange : -1 <= idx < SERVOS_PER_TIMER) by (destruct Hcur; lia).
  unfold ServoHandler. rewrite (index_load_ok st timer idx) by (lia || assumption).
  cbn [bind].
  rewrite (to_int8_id (idx + 1)) by (unfold in_int8; lia).
  match goal with
  | |- context [bind ?c _] =>
      assert (H1 : exists st1,
                 c = Ok st1
                 /\ servos st1 = servos st
                 /\ ServoCount st1 = ServoCount st
                 /\ currentServoIndex st1 = currentServoIndex st
                 /\ CCMP (timer_regs st1)
                    = if idx <? 0 then 0 else CCMP (timer_regs st))
  end.
  { destruct (idx <? 0) eqn:Eneg.
    - eexists. split; [reflexivity|]. cbn. repeat split.
    - apply Z.ltb_ge in Eneg.
      destruct (SERVO_INDEX timer idx <? ServoCount st) eqn:Ereg.
      + apply Z.ltb_lt in Ereg.
        destruct (SERVO_INDEX_plain timer idx Hcap Ht) as [Hplain Hbase]; [lia|].
        destruct (table_slot st (SERVO_INDEX timer idx) Htab) as [s Hs]; [lia|].
        rewrite (servo_load_ok st _ s) by (lia || assumption). cbn [bind].
        destruct (isActive (Pin s)); eexists; (split; [reflexivity|]);
          cbn; repeat split.
      + eexists. split; [reflexivity|]. repeat split. }
  destruct H1 as (st1 & -> & Hs1 & Hc1 & Hi1 & Hr1). cbn [bind].
  erewrite index_store_ok; [|lia|rewrite Hi1; eassumption]. cbn [bind].
  cbn [ServoCount set_currentServoIndex]. rewrite Hc1, Hi1.
  destruct ((SERVO_INDEX timer (idx + 1) <? ServoCount st)
            && (idx + 1 <? SERVOS_PER_TIMER)) eqn:Enext.
  - apply andb_prop in Enext as [Ereg Ecap].
    apply Z.ltb_lt in Ereg. apply Z.ltb_lt in Ecap.
    destruct (SERVO_INDEX_plain timer (idx + 1) Hcap Ht) as [Hplain Hbase]; [lia|].
    destruct (table_slot st (SERVO_INDEX timer (idx + 1)) Htab) as [s Hs]; [lia|].
    erewrite servo_load_ok;
      [|lia|cbn [servos set_currentServoIndex]; rewrite Hs1; eassumption].
    cbn [bind].
    eexists. split; [reflexivity|].
    destruct (isActive (Pin s)); cbn;
      (repeat split; try assumption; try apply to_uint16_range;
       exists s; split; [assumption|reflexivity]).
  - cbn [timer_regs set_currentServoIndex]. rewrite Hr1. cbv zeta.
    destruct (to_ulong ((if idx <? 0 then 0 else CCMP (timer_regs st)) + 4)
              <? to_ulong (usToTicks REFRESH_INTERVAL)) eqn:Ewait;
      (erewrite index_store_ok;
         [|lia|cbn; eapply lookup_after_store; eassumption]);
      cbn [bind]; (eexists; split; [reflexivity|]);
      cbn; rewrite list_insert_insert_eq;
      (repeat split; try assumption; apply to_uint16_range).
Qed.

End Handler.

Section HandlerRuns.

Context {P : Platform}.

Lemma ServoHandler_preserves timer st :
  capacity_ok -> handler_ready st -> cursors_ok st -> 0 <= timer < _Nbr_16timers ->
  exists st', ServoHandler timer st = Ok st' /\ handler_ready st' /\ cursors_ok st'.
Proof.
  intros Hcap Hready Hcur Ht.
  destruct (cursor_slot st timer Hready Ht) as [idx Hidx].
  destruct (ServoHandler_step timer st idx Hcap Hready Ht Hidx (Hcur _ _ Hidx))
    as (st' & Hrun & Hs & Hc & Hreg & Hnext).
  pose proof Hready as (Htab & Hcount & Hlen & _).
  exists st'. split; [assumption|].
  destruct ((SERVO_INDEX timer (idx + 1) <? ServoCount st)
            && (idx + 1 <? SERVOS_PER_TIMER)) eqn:Enext.
  - destruct Hnext as [Hi _]. apply andb_prop in Enext as [_ Ecap].
    apply Z.ltb_lt in Ecap. split.
    + unfold handler_ready, table_ok. rewrite Hs, Hc, Hi, length_insert. auto.
    + eapply (cursors_ok_store st (Z.to_nat timer) (idx + 1)); eauto.
      right. destruct (Hcur _ _ Hidx); lia.
  - destruct Hnext as [Hi _]. split.
    + unfold handler_ready, table_ok. rewrite Hs, Hc, Hi, length_insert. auto.
    + eapply (cursors_ok_store st (Z.to_nat timer) (-1)); eauto. now left.
Qed.

Lemma run_handler_preserves timers : forall st,
  capacity_ok -> handler_ready st -> cursors_ok st ->
  Forall (fun t => 0 <= t < _Nbr_16timers) timers ->
  exists st', run_handler timers st = Ok st' /\ handler_ready st' /\ cursors_ok st'.
Proof.
  induction timers as [|t ts IH]; intros st Hcap Hready Hcur Hts.
  - exists st. split; [reflexivity|]. split; assumption.
  - apply Forall_cons in Hts as [Ht Hts].
    destruct (ServoHandler_preserves t st Hcap Hready Hcur Ht)
      as (st1 & Hrun & Hready1 & Hcur1).
    destruct (IH st1 Hcap Hready1 Hcur1 Hts) as (st' & Hrun' & Hfin).
    exists st'. split; [|assumption].
    cbn [run_handler]. rewrite Hrun. exact Hrun'.
Qed.

Lemma between_cycles_ok st : between_cycles st -> cursors_ok st.
Proof. intros H t idx Hl. left. eauto. Qed.

(** The zero-initialised cursors that a sketch starts from are channel 0. *)
Lemma boot_state_ok : capacity_ok -> handler_ready boot_state /\ cursors_ok boot_state.
Proof.
  intros (Hspt & Hn & Hmax). split.
  - unfold handler_ready, table_ok, boot_state, regs_zero, in_uint16. cbn.
    rewrite !length_replicate. unfold MAX_SERVOS in *. nia.
  - intros t idx Hl. cbn in Hl. apply lookup_replicate in Hl as [-> _].
    right. lia.
Qed.

End HandlerRuns.

(** The invariant holds from the zero-initialised globals of a sketch as
    well, whose cursors start at channel 0. *)
Lemma run_handler_from_boot {P : Platform} timers :
  capacity_ok ->
  Forall (fun t => 0 <= t < _Nbr_16timers) timers ->
  exists st', run_handler timers boot_state = Ok st' /\ cursors_ok st'.
Proof.
  intros Hcap Hts. destruct (boot_state_ok Hcap) as [Hready Hcur].
  destruct (run_handler_preserves timers boot_state Hcap Hready Hcur Hts)
    as (st' & Hrun & _ & Hok).
  exists st'. split; assumption.
Qed.

(** The exhausted branch on the value that the code reads. When
    [ServoHandler] finds the channels of a timer exhausted it takes the
    compare register [CCMP] for the counter value (0 when the cycle has just
    been started): with that value + 4 below [usToTicks 16000] the compare
    register is armed at exactly [usToTicks 16000], otherwise at the value
    + 4 (in the 16-bit register); either way the cursor of the timer is back
    at the sentinel -1. The register holds the ticks of the last channel, not
    the ticks elapsed in the cycle. *)
Theorem refresh_wait_arms_trigger {P : Platform} timer st idx :
  capacity_ok -> clock_ok -> handler_ready st -> 0 <= timer < _Nbr_16timers ->
  currentServoIndex st !! Z.to_nat timer = Some idx -> cursor_ok idx ->
  ~ (SERVO_INDEX timer (idx + 1) < ServoCount st /\ idx + 1 < SERVOS_PER_TIMER) ->
  let elapsed := if idx <? 0 then 0 else CCMP (timer_regs st) in
  exists st',
    ServoHandler timer st = Ok st'
    /\ (elapsed + 4 < usToTicks REFRESH_INTERVAL ->
        CCMP (timer_regs st') = usToTicks REFRESH_INTERVAL)
    /\ (usToTicks REFRESH_INTERVAL <= elapsed + 4 ->
        CCMP (timer_regs st') = (elapsed + 4) mod 65536
        /\ (elapsed + 4 <= 65535 -> CCMP (timer_regs st') = elapsed + 4))
    /\ currentServoIndex st' !! Z.to_nat timer = Some (-1).
Proof.
  intros Hcap Hclk Hready Ht Hidx Hcur Hdone elapsed.
  destruct (ServoHandler_step timer st idx Hcap Hready Ht Hidx Hcur)
    as (st' & Hrun & _ & _ & _ & Hnext).
  destruct ((SERVO_INDEX timer (idx + 1) <? ServoCount st)
            && (idx + 1 <? SERVOS_PER_TIMER)) eqn:Enext.
  { exfalso. apply Hdone. apply andb_prop in Enext as [E1 E2].
    split; apply Z.ltb_lt; assumption. }
  destruct Hnext as [Hi Harm]. cbv zeta in Harm. fold elapsed in Harm.
  pose proof Hready as (_ & _ & _ & Hreg).
  assert (Hel : 0 <= elapsed <= 65535).
  { unfold elapsed, in_uint16 in *. destruct (idx <? 0); lia. }
  destruct (usToTicks_pulse REFRESH_INTERVAL Hclk) as [Hus Hbound];
    [unfold REFRESH_INTERVAL; lia|].
  rewrite <- Hus in Hbound. clear Hus. clearbody elapsed.
  change (4 * REFRESH_INTERVAL) with 64000 in Hbound.
  rewrite (to_ulong_id (elapsed + 4)) in Harm by lia.
  rewrite (to_ulong_id (usToTicks REFRESH_INTERVAL)) in Harm by lia.
  rewrite (to_uint16_id (usToTicks REFRESH_INTERVAL)) in Harm
    by (unfold in_uint16; lia).
  exists st'. split; [assumption|]. split; [|split].
  - intros Hlt. apply Z.ltb_lt in Hlt. now rewrite Hlt in Harm.
  - intros Hge. apply Z.ltb_ge in Hge. rewrite Hge in Harm.
    split; [exact Harm|].
    intros Hfit. rewrite Harm. apply to_uint16_id. unfold in_uint16. lia.
  - rewrite Hi. eapply lookup_after_store; eassumption.
Qed.

Lemma refresh_wait_arms_trigger_witness :
  let elapsed := if 0 <? 0 then 0 else CCMP (timer_regs first_attached) in
  exists st',
    ServoHandler (P := nano_every) 0 first_attached = Ok st'
    /\ (elapsed + 4 < usToTicks (P := nano_every) REFRESH_INTERVAL ->
        CCMP (timer_regs st') = usToTicks (P := nano_every) REFRESH_INTERVAL)
    /\ (usToTicks (P := nano_every) REFRESH_INTERVAL <= elapsed + 4 ->
        CCMP (timer_regs st') = (elapsed + 4) mod 65536
        /\ (elapsed + 4 <= 65535 -> CCMP (timer_regs st') = elapsed + 4))
    /\ currentServoIndex st' !! Z.to_nat 0 = Some (-1).
Proof.
  apply (refresh_wait_arms_trigger (P := nano_every) 0 first_attached 0);
    try by_computation.
  - right. by_computation.
  - vm_compute. intros [H _]. discriminate H.
Defined.

(** The other branch, on a compare register that holds 5000: the trigger is
    armed 4 ticks later. *)
Lemma refresh_wait_late :
  CCMP <$> (timer_regs <$>
    match ServoHandler (P := nano_every) 0 (set_CCMP first_attached 5000) with
    | Ok st' => Some st'
    | Fault _ => None
    end) = Some 5004.
Proof. vm_compute. reflexivity. Qed.

(** C2 fails on the code: the value compared with the refresh interval is not
    the elapsed ticks of the cycle. Twelve servos are attached to pins 2 to
    13 at the default pulse, and the first, partial cycle has ended with the
    cursor at the sentinel. The thirteen interrupts of the next cycle arm 375
    ticks for each of the twelve channels: when the channels are exhausted
    4500 ticks have elapsed, 4504 with the guard is not below
    [usToTicks 16000] = 4000, and the claim has the trigger armed at 4504.
    The code reads the compare register, which holds the 375 ticks of the
    last channel, and arms a whole refresh interval of 4000 ticks. *)
Theorem refresh_wait_ignores_elapsed_ticks :
  exists st channels wait,
    (let* st0 := attach_each (P := nano_every) [2; 3; 4; 5; 6; 7; 8; 9; 10; 11; 12; 13]
                   (boot_state (P := nano_every)) in
     run_handler (P := nano_every) (replicate 12 0) st0) = Ok st
    /\ currentServoIndex st = [-1]
    /\ armed_values (P := nano_every) (replicate 13 0) st = Ok (channels ++ [wait])
    /\ channels = replicate 12 375
    /\ elapsed_ticks channels = 4500
    /\ usToTicks (P := nano_every) REFRESH_INTERVAL <= elapsed_ticks channels + 4
    /\ wait = usToTicks (P := nano_every) REFRESH_INTERVAL
    /\ wait <> elapsed_ticks channels + 4.
Proof.
  eexists _, (replicate 12 375), 4000.
  split; [vm_compute; reflexivity|].
  split; [reflexivity|].
  split; [vm_compute; reflexivity|].
  split; [reflexivity|].
  split; [reflexivity|].
  split; [vm_compute; discriminate|].
  split; [reflexivity|].
  vm_compute. discriminate.
Qed.

(** C9: the sentinel -1 is no channel index, and from a state in which every
    cursor is the sentinel every run of [ServoHandler] invocations completes
    and leaves each timer's cursor at the sentinel or at a channel index in
    [0, SERVOS_PER_TIMER). *)
Theorem cursor_sentinel_or_channel {P : Platform} timers st :
  capacity_ok -> handler_ready st -> between_cycles st ->
  Forall (fun t => 0 <= t < _Nbr_16timers) timers ->
  (forall c, 0 <= c < SERVOS_PER_TIMER -> c <> -1)
  /\ exists st',
       run_handler timers st = Ok st'
       /\ forall (t : nat) (idx : Z),
            currentServoIndex st' !! t = Some idx ->
            idx = -1 \/ 0 <= idx < SERVOS_PER_TIMER.
Proof.
  intros Hcap Hready Hidle Hts. split; [lia|].
  destruct (run_handler_preserves timers st Hcap Hready
              (between_cycles_ok st Hidle) Hts) as (st' & Hrun & _ & Hcur).
  exists st'. split; [assumption|exact Hcur].
Qed.

Lemma cursor_sentinel_or_channel_witness :
  (forall c, 0 <= c < SERVOS_PER_TIMER (Platform := nano_every) -> c <> -1)
  /\ exists st',
       run_handler (P := nano_every) [0; 0; 0] first_idle = Ok st'
       /\ forall (t : nat) (idx : Z),
            currentServoIndex st' !! t = Some idx ->
            idx = -1 \/ 0 <= idx < SERVOS_PER_TIMER (Platform := nano_every).
Proof.
  apply (cursor_sentinel_or_channel (P := nano_every) [0; 0; 0] first_idle).
  - by_computation.
  - by_computation.
  - intros [|t] idx Hl; [now inversion Hl|discriminate Hl].
  - repeat constructor; by_computation.
Defined.

(** ** The timer's life cycle *)

Section Lifecycle.

Context {P : Platform}.

Lemma owning_timer idx :
  capacity_ok -> 0 <= idx < MAX_SERVOS ->
  0 <= SERVO_INDEX_TO_TIMER idx < _Nbr_16timers.
Proof.
  unfold capacity_ok, MAX_SERVOS, SERVO_INDEX_TO_TIMER. intros (Hspt & Hn & _) Hidx.
  rewrite Z.quot_div_nonneg by lia. split.
  - apply Z.div_pos; lia.
  - apply Z.div_lt_upper_bound; lia.
Qed.

(** The scan of [isTimerActive] finds exactly the active channels. *)
Lemma isTimerActive_from_spec st timer :
  capacity_ok -> table_ok st -> 0 <= timer < _Nbr_16timers ->
  forall (n : nat) (c0 : Z),
    0 <= c0 -> c0 + Z.of_nat n <= SERVOS_PER_TIMER ->
    exists b,
      isTimerActive_from st timer c0 n = Ok b
      /\ (b = true <->
          exists c s,
            c0 <= c < c0 + Z.of_nat n
            /\ servos st !! Z.to_nat (timer * SERVOS_PER_TIMER + c) = Some s
            /\ isActive (Pin s) = true).
Proof.
  intros Hcap Htab Ht. induction n as [|n IH]; intros c0 Hc0 Hend.
  - exists false. split; [reflexivity|]. split; [discriminate|].
    intros (c & s & Hc & _). lia.
  - destruct (SERVO_INDEX_plain timer c0 Hcap Ht) as [Hplain Hbase]; [lia|].
    destruct (table_slot st (SERVO_INDEX timer c0) Htab) as [s Hs]; [lia|].
    cbn [isTimerActive_from].
    rewrite (servo_load_ok st _ s) by (lia || assumption). cbn [bind].
    rewrite Hplain in Hs.
    destruct (isActive (Pin s)) eqn:Eact.
    + exists true. split; [reflexivity|]. split; [|reflexivity].
      intros _. exists c0, s. repeat split; (lia || assumption).
    + destruct (IH (c0 + 1)) as (b & Hrun & Hb); [lia|lia|].
      exists b. split; [assumption|]. rewrite Hb. split.
      * intros (c & s' & Hc & Hrest). exists c, s'. split; [lia|assumption].
      * intros (c & s' & Hc & Hs' & Hact).
        destruct (Z.eq_dec c c0) as [->|Hne]; [congruence|].
        exists c, s'. repeat split; (lia || assumption).
Qed.

Lemma isTimerActive_spec st timer :
  capacity_ok -> table_ok st -> 0 <= timer < _Nbr_16timers ->
  exists b, isTimerActive st timer = Ok b /\ (b = true <-> channel_active st timer).
Proof.
  intros Hcap Htab Ht. pose proof Hcap as (Hspt & _).
  destruct (isTimerActive_from_spec st timer Hcap Htab Ht
              (Z.to_nat SERVOS_PER_TIMER) 0) as (b & Hrun & Hb); [lia|lia|].
  exists b. split; [exact Hrun|]. rewrite Hb. unfold channel_active.
  rewrite Z2Nat.id by lia. reflexivity.
Qed.

(** Writing the pin number of a record does not change which channels are
    active. *)
Lemma channel_active_set_nbr st l i pin s timer :
  servos st !! i = Some s -> servos l = <[i := set_nbr pin s]> (servos st) ->
  channel_active l timer <-> channel_active st timer.
Proof.
  intros Hs Hl. unfold channel_active. rewrite Hl.
  split; intros (c & s' & Hc & Hs' & Hact).
  - destruct (decide (i = Z.to_nat (timer * SERVOS_PER_TIMER + c))) as [->|Hne].
    + rewrite (lookup_after_store _ _ s) in Hs' by assumption.
      injection Hs' as <-. exists c, s. repeat split; (lia || assumption).
    + rewrite list_lookup_insert_ne in Hs' by assumption.
      exists c, s'. repeat split; (lia || assumption).
  - destruct (decide (i = Z.to_nat (timer * SERVOS_PER_TIMER + c))) as [->|Hne].
    + exists c, (set_nbr pin s).
      rewrite (lookup_after_store _ _ s) by assumption.
      repeat split; try lia. cbn. congruence.
    + exists c, s'. rewrite list_lookup_insert_ne by assumption.
      repeat split; (lia || assumption).
Qed.

Lemma channel_active_servos st st' timer :
  servos st' = servos st -> channel_active st' timer <-> channel_active st timer.
Proof. intros H. unfold channel_active. now rewrite H. Qed.

Lemma attach_ok pin mn mx this st s :
  capacity_ok -> 0 <= servoIndex this < MAX_SERVOS -> table_ok st ->
  servos st !! Z.to_nat (servoIndex this) = Some s ->
  exists this' st',
    attach pin mn mx this st = Ok (servoIndex this, this', st')
    /\ servos st'
       = <[Z.to_nat (servoIndex this) := set_isActive true (set_nbr pin s)]> (servos st)
    /\ ((~ channel_active st (SERVO_INDEX_TO_TIMER (servoIndex this))
         /\ timer_regs st'
            = timer_regs (initISR (SERVO_INDEX_TO_TIMER (servoIndex this)) st))
        \/ (channel_active st (SERVO_INDEX_TO_TIMER (servoIndex this))
            /\ timer_regs st' = timer_regs st)).
Proof.
  intros Hcap Hidx Htab Hs. unfold attach.
  destruct (servoIndex this <? MAX_SERVOS) eqn:E; [|apply Z.ltb_ge in E; lia].
  erewrite servo_store_ok; [|lia|cbn [servos emit]; eassumption]. cbn [bind].
  set (st2 := set_servos _ _).
  assert (Hs2 : servos st2 = <[Z.to_nat (servoIndex this) := set_nbr pin s]> (servos st))
    by reflexivity.
  assert (Htab2 : table_ok st2)
    by (unfold table_ok; rewrite Hs2, length_insert; exact Htab).
  destruct (isTimerActive_spec st2 _ Hcap Htab2 (owning_timer _ Hcap Hidx))
    as (b & -> & Hb).
  rewrite (channel_active_set_nbr st st2 _ pin s _ Hs Hs2) in Hb. cbn [bind].
  erewrite servo_store_ok;
    [|lia|destruct b; cbn; eapply lookup_after_store; eassumption].
  cbn [bind]. do 2 eexists. split; [reflexivity|].
  destruct b; cbn; rewrite list_insert_insert_eq; (split; [reflexivity|]).
  - right. split; [apply Hb|]; reflexivity.
  - left. split; [|reflexivity]. intros Hact. apply Hb in Hact. discriminate.
Qed.

Lemma detach_ok this st s :
  capacity_ok -> 0 <= servoIndex this < MAX_SERVOS -> table_ok st ->
  servos st !! Z.to_nat (servoIndex this) = Some s ->
  exists st',
    detach this st = Ok st'
    /\ servos st' = <[Z.to_nat (servoIndex this) := set_isActive false s]> (servos st)
    /\ ((~ channel_active st' (SERVO_INDEX_TO_TIMER (servoIndex this))
         /\ timer_regs st'
            = timer_regs (finISR (SERVO_INDEX_TO_TIMER (servoIndex this)) st))
        \/ (channel_active st' (SERVO_INDEX_TO_TIMER (servoIndex this))
            /\ timer_regs st' = timer_regs st)).
Proof.
  intros Hcap Hidx Htab Hs. unfold detach.
  erewrite servo_store_ok; [|lia|eassumption]. cbn [bind].
  set (st1 := set_servos _ _).
  assert (Htab1 : table_ok st1)
    by (unfold table_ok, st1; cbn; rewrite length_insert; exact Htab).
  destruct (isTimerActive_spec st1 _ Hcap Htab1 (owning_timer _ Hcap Hidx))
    as (b & -> & Hb).
  cbn [bind]. eexists. split; [reflexivity|]. split; [now destruct b|].
  destruct b.
  - right. split; [apply Hb|]; reflexivity.
  - left. split; [|reflexivity].
    rewrite (channel_active_servos st1) by reflexivity.
    intros Hact. apply Hb in Hact. discriminate.
Qed.

End Lifecycle.

(** C7: [attach] on a servo with a valid index initialises the interrupt of
    the owning timer if and only if no channel of that timer was active just
    before the call: then the clock is selected and the timer enabled in
    [CTRLA], [CTRLB] is the periodic interrupt mode and [INTCTRL] the capture
    interrupt; with a channel active the registers are left as they were.
    The scan runs on the state before the call and the servo's own flag is
    set in the state returned. [detach] clears the servo's flag and then
    disables the interrupt, writing 0 to [INTCTRL] and nothing else, if and
    only if no channel of that timer is still active; with a channel active
    the registers are left as they were. *)
Theorem timer_follows_active_channels {P : Platform} pin mn mx this st_a st_d :
  capacity_ok -> 0 <= servoIndex this < MAX_SERVOS ->
  table_ok st_a -> table_ok st_d ->
  let timer := SERVO_INDEX_TO_TIMER (servoIndex this) in
  (exists s this' st',
     servos st_a !! Z.to_nat (servoIndex this) = Some s
     /\ attach pin mn mx this st_a = Ok (servoIndex this, this', st')
     /\ servos st'
        = <[Z.to_nat (servoIndex this) := set_isActive true (set_nbr pin s)]>
            (servos st_a)
     /\ (~ channel_active st_a timer ->
         CTRLA (timer_regs st') = Z.lor TCB_CLKSEL_CLKTCA_gc TCB_ENABLE_bm
         /\ CTRLB (timer_regs st') = TCB_CNTMODE_INT_gc
         /\ INTCTRL (timer_regs st') = TCB_CAPTEI_bm
         /\ INTFLAGS (timer_regs st') = INTFLAGS (timer_regs st_a)
         /\ CCMP (timer_regs st') = CCMP (timer_regs st_a))
     /\ (channel_active st_a timer -> timer_regs st' = timer_regs st_a)
     /\ (channel_active st_a timer \/ ~ channel_active st_a timer))
  /\ (exists s st',
        servos st_d !! Z.to_nat (servoIndex this) = Some s
        /\ detach this st_d = Ok st'
        /\ servos st'
           = <[Z.to_nat (servoIndex this) := set_isActive false s]> (servos st_d)
        /\ (~ channel_active st' timer ->
            INTCTRL (timer_regs st') = 0
            /\ CTRLA (timer_regs st') = CTRLA (timer_regs st_d)
            /\ CTRLB (timer_regs st') = CTRLB (timer_regs st_d)
            /\ INTFLAGS (timer_regs st') = INTFLAGS (timer_regs st_d)
            /\ CCMP (timer_regs st') = CCMP (timer_regs st_d))
        /\ (channel_active st' timer -> timer_regs st' = timer_regs st_d)
        /\ (channel_active st' timer \/ ~ channel_active st' timer)).
Proof.
  intros Hcap Hidx Htab_a Htab_d timer. split.
  - destruct (table_slot st_a (servoIndex this) Htab_a Hidx) as [s Hs].
    destruct (attach_ok pin mn mx this st_a s Hcap Hidx Htab_a Hs)
      as (this' & st' & Hrun & Hservos & Hregs).
    exists s, this', st'. split; [assumption|]. split; [assumption|].
    split; [assumption|]. fold timer in Hregs.
    destruct Hregs as [[Hidle ->]|[Hact ->]].
    + split; [intros _; repeat split|].
      split; [intros Hact; contradiction|now right].
    + split; [intros Hidle; contradiction|].
      split; [reflexivity|now left].
  - destruct (table_slot st_d (servoIndex this) Htab_d Hidx) as [s Hs].
    destruct (detach_ok this st_d s Hcap Hidx Htab_d Hs)
      as (st' & Hrun & Hservos & Hregs).
    exists s, st'. split; [assumption|]. split; [assumption|].
    split; [assumption|]. fold timer in Hregs.
    destruct Hregs as [[Hidle ->]|[Hact ->]].
    + split; [intros _; repeat split|].
      split; [intros Hact; contradiction|now right].
    + split; [intros Hidle; contradiction|].
      split; [reflexivity|now left].
Qed.

Lemma timer_follows_active_channels_witness :
  let timer := SERVO_INDEX_TO_TIMER (P := nano_every) (servoIndex first_servo) in
  (exists s this' st',
     servos first_constructed !! Z.to_nat (servoIndex first_servo) = Some s
     /\ attach (P := nano_every) 9 544 2400 first_servo first_constructed
        = Ok (servoIndex first_servo, this', st')
     /\ servos st'
        = <[Z.to_nat (servoIndex first_servo) := set_isActive true (set_nbr 9 s)]>
            (servos first_constructed)
     /\ (~ channel_active (P := nano_every) first_constructed timer ->
         CTRLA (timer_regs st')
         = Z.lor (TCB_CLKSEL_CLKTCA_gc (Platform := nano_every))
                 (TCB_ENABLE_bm (Platform := nano_every))
         /\ CTRLB (timer_regs st') = TCB_CNTMODE_INT_gc (Platform := nano_every)
         /\ INTCTRL (timer_regs st') = TCB_CAPTEI_bm (Platform := nano_every)
         /\ INTFLAGS (timer_regs st') = INTFLAGS (timer_regs first_constructed)
         /\ CCMP (timer_regs st') = CCMP (timer_regs first_constructed))
     /\ (channel_active (P := nano_every) first_constructed timer ->
         timer_regs st' = timer_regs first_constructed)
     /\ (channel_active (P := nano_every) first_constructed timer
         \/ ~ channel_active (P := nano_every) first_constructed timer))
  /\ (exists s st',
        servos first_attached !! Z.to_nat (servoIndex first_servo) = Some s
        /\ detach (P := nano_every) first_servo first_attached = Ok st'
        /\ servos st'
           = <[Z.to_nat (servoIndex first_servo) := set_isActive false s]>
               (servos first_attached)
        /\ (~ channel_active (P := nano_every) st' timer ->
            INTCTRL (timer_regs st') = 0
            /\ CTRLA (timer_regs st') = CTRLA (timer_regs first_attached)
            /\ CTRLB (timer_regs st') = CTRLB (timer_regs first_attached)
            /\ INTFLAGS (timer_regs st') = INTFLAGS (timer_regs first_attached)
            /\ CCMP (timer_regs st') = CCMP (timer_regs first_attached))
        /\ (channel_active (P := nano_every) st' timer ->
            timer_regs st' = timer_regs first_attached)
        /\ (channel_active (P := nano_every) st' timer
            \/ ~ channel_active (P := nano_every) st' timer)).
Proof.
  apply (timer_follows_active_channels (P := nano_every) 9 544 2400
           first_servo first_constructed first_attached); by_computation.
Defined.

(** The two transitions in that sketch. The constructor leaves
    [first_constructed], where no channel is active: [attach] enables the
    timer and its interrupt. In [first_attached] the servo is the only active
    one: [detach] writes 0 to [INTCTRL]; a second servo attached meanwhile
    keeps the interrupt enabled. *)
Lemma first_constructed_reached :
  VarSpeedServo_new (P := nano_every) object_zero (boot_state (P := nano_every))
  = Ok (first_servo, first_constructed).
Proof. vm_compute. reflexivity. Qed.

Lemma first_attach_enables_timer :
  ~ channel_active (P := nano_every) first_constructed 0
  /\ timer_regs first_constructed = regs_zero
  /\ (let* r := attach (P := nano_every) 9 544 2400 first_servo first_constructed in
      Ok (timer_regs (snd r)))
     = Ok {| CTRLA := 5; CTRLB := 0; INTCTRL := 1; INTFLAGS := 0; CCMP := 0 |}.
Proof.
  split; [|split; vm_compute; reflexivity].
  intros (c & s & Hc & Hs & Hact).
  assert (Hcases : c = 0 \/ c = 1 \/ c = 2 \/ c = 3 \/ c = 4 \/ c = 5 \/ c = 6
                   \/ c = 7 \/ c = 8 \/ c = 9 \/ c = 10 \/ c = 11)
    by (cbn in Hc; lia).
  repeat (destruct Hcases as [->|Hcases];
          [vm_compute in Hs; injection Hs as <-; discriminate Hact|]).
  subst c. vm_compute in Hs. injection Hs as <-. discriminate Hact.
Qed.

Lemma last_detach_disables_interrupt :
  INTCTRL (timer_regs first_attached) = 1
  /\ (let* st' := detach (P := nano_every) first_servo first_attached in
      Ok (timer_regs st'))
     = Ok {| CTRLA := 5; CTRLB := 0; INTCTRL := 0; INTFLAGS := 0; CCMP := 0 |}
  /\ (let* a := attach (P := nano_every) 10 544 2400 second_servo two_constructed in
      let* st' := detach (P := nano_every) first_servo (snd a) in
      Ok (timer_regs st'))
     = Ok {| CTRLA := 5; CTRLB := 0; INTCTRL := 1; INTFLAGS := 0; CCMP := 0 |}.
Proof. repeat split; vm_compute; reflexivity. Qed.

(** ** Reading back and playing a sequence *)

Section Sequences.

Context {P : Platform}.

Lemma seq_ptr_eqb_eq p q : seq_ptr_eqb p q = true <-> p = q.
Proof.
  destruct p as [|a], q as [|b]; cbn; split; try congruence; try discriminate.
  - intros H. apply Z.eqb_eq in H. congruence.
  - intros H. injection H as ->. apply Z.eqb_refl.
Qed.

Lemma ticksToUs_ok t :
  4 <= clockCyclesPerMicrosecond ->
  ticksToUs t
  = Ok (to_uint16 (to_uint16 t * 16) / (clockCyclesPerMicrosecond / 4)).
Proof.
  intros Hclk. unfold ticksToUs.
  rewrite (Z.quot_div_nonneg clockCyclesPerMicrosecond 4) by lia.
  assert (Hd : 0 < clockCyclesPerMicrosecond / 4) by (apply Z.div_str_pos; lia).
  destruct (clockCyclesPerMicrosecond / 4 =? 0) eqn:E; [apply Z.eqb_eq in E; lia|].
  rewrite Z.quot_div_nonneg; [reflexivity| |assumption].
  pose proof (to_uint16_range (to_uint16 t * 16)) as Hr. unfold in_uint16 in Hr. lia.
Qed.

(** [read] does not stop on a registered servo. *)
Lemma read_total this st :
  4 <= clockCyclesPerMicrosecond -> valid_servo this -> table_ok st ->
  exists angle, read this st = Ok angle.
Proof.
  intros Hclk (Hidx & Hmin & Hmax) Htab.
  destruct (table_slot st (servoIndex this) Htab Hidx) as [s Hs].
  unfold read, readMicroseconds.
  rewrite (servo_load_ok st _ s) by (lia || assumption). cbn [bind].
  rewrite ticksToUs_ok by assumption.
  destruct (negb (servoIndex this =? INVALID_SERVO)); cbn [bind];
    unfold map;
    destruct (SERVO_MIN_calibrated this Hmin) as [-> Hlo];
    destruct (SERVO_MAX_calibrated this Hmax) as [-> Hhi];
    rewrite (to_long_id (calibrated_max this - calibrated_min this)) by lia;
    (destruct (calibrated_max this - calibrated_min this =? 0) eqn:E;
       [apply Z.eqb_eq in E; lia|]);
    cbn [bind]; eexists; reflexivity.
Qed.

(** A write with a speed does not stop on a registered servo. *)
Lemma write_speed_total this st v sp :
  0 <= servoIndex this < MAX_SERVOS -> table_ok st ->
  exists st', write_speed v sp this st = Ok st' /\ table_ok st'.
Proof.
  intros Hidx Htab.
  destruct (table_slot st (servoIndex this) Htab Hidx) as [s Hs].
  unfold write_speed, write, writeMicroseconds, map.
  change (to_long (180 - 0) =? 0) with false. cbv iota.
  rewrite (servo_store_ok st _ _ s) by (lia || assumption). cbn [bind].
  replace ((servoIndex this >=? 0) && (servoIndex this <? MAX_SERVOS)) with true.
  2:{ symmetry. apply andb_true_intro. split; [apply Z.geb_le|apply Z.ltb_lt]; lia. }
  destruct (negb (sp =? 0)); destruct (v <? MIN_PULSE_WIDTH); cbn [bind];
    repeat (erewrite servo_store_ok;
            [|lia|cbn [servos set_servos]; repeat eapply lookup_after_store; eauto];
            cbn [bind]);
    (eexists; split; [reflexivity|]);
    unfold table_ok; cbn [servos set_servos]; rewrite !length_insert; exact Htab.
Qed.

(** Closing the cases of [sequencePlay_cases]. *)
Ltac conj_only := repeat match goal with |- _ /\ _ => split end.

Ltac settle_reads :=
  repeat (constructor;
          [first [left; reflexivity | right; split; [reflexivity|assumption]]|]);
  constructor.

Ltac settle_play Eadv :=
  split; [reflexivity|];
  cbn [play_ret play_this play_state play_reads app];
  rewrite Eadv;
  conj_only;
  lazymatch goal with
  | |- Forall _ _ => settle_reads
  | |- valid_servo _ => assumption
  | |- _ => first [ reflexivity
                  | assumption
                  | (intros; contradiction)
                  | (intros; split; reflexivity)
                  | (intros; congruence) ]
  end.

Lemma read_set_sequence this seq pos st :
  read (set_sequence this seq pos) st = read this st.
Proof. reflexivity. Qed.

(** One call of [sequencePlay] on a registered servo: it returns, with the
    index it stored; the index moves only when the reported angle is the
    position of the waypoint in effect and the sequence is not stopped; the
    array is read at the index in effect, and for the write at the new one. *)
Lemma sequencePlay_cases sequenceIn numPositions loop startPos this st :
  4 <= clockCyclesPerMicrosecond -> valid_servo this -> table_ok st ->
  exists r angle,
    sequencePlay sequenceIn numPositions loop startPos this st = Ok r
    /\ read this st = Ok angle
    /\ play_ret r = curSeqPosition (play_this r)
    /\ curSequence (play_this r) = seq_addr sequenceIn
    /\ valid_servo (play_this r)
    /\ play_ret r
       = (let cur := index_in_effect sequenceIn startPos this in
          if (angle =? position (seq_at sequenceIn cur))
             && negb (cur =? CURRENT_SEQUENCE_STOP)
          then
            let pos := to_uint8 (cur + 1) in
            if pos >=? numPositions
            then (if loop then 0 else CURRENT_SEQUENCE_STOP)
            else pos
          else cur)
    /\ (play_ret r = CURRENT_SEQUENCE_STOP ->
        play_state r = st
        /\ play_reads r = [index_in_effect sequenceIn startPos this])
    /\ (curSequence this = seq_addr sequenceIn ->
        curSeqPosition this = CURRENT_SEQUENCE_STOP -> play_this r = this)
    /\ Forall (fun i => i = index_in_effect sequenceIn startPos this
                        \/ (i = play_ret r /\ play_ret r <> CURRENT_SEQUENCE_STOP))
         (play_reads r).
Proof.
  intros Hclk Hv Htab. pose proof Hv as (Hidx & Hmin & Hmax).
  destruct (read_total this st Hclk Hv Htab) as [angle Hread].
  unfold sequencePlay, index_in_effect.
  destruct (seq_ptr_eqb (curSequence this) (seq_addr sequenceIn)) eqn:Esame;
    cbn [negb]; cbv beta iota zeta; rewrite ?read_set_sequence, Hread; cbn [bind].
  - (* the array of the previous call *)
    pose proof (proj1 (seq_ptr_eqb_eq _ _) Esame) as Hsame.
    destruct ((angle =? position (seq_at sequenceIn (curSeqPosition this)))
              && negb (curSeqPosition this =? CURRENT_SEQUENCE_STOP)) eqn:Eadv.
    + cbn [curSeqPosition set_sequence curSequence].
      set (pos := if to_uint8 (curSeqPosition this + 1) >=? numPositions
                  then if loop then 0 else CURRENT_SEQUENCE_STOP
                  else to_uint8 (curSeqPosition this + 1)).
      assert (Hgo : curSeqPosition this <> CURRENT_SEQUENCE_STOP).
      { apply andb_prop in Eadv as [_ Ecur].
        apply negb_true_iff, Z.eqb_neq in Ecur. exact Ecur. }
      destruct (negb (pos =? curSeqPosition this)
                && negb (pos =? CURRENT_SEQUENCE_STOP)) eqn:Ewr.
      * destruct (write_speed_total
                    (set_sequence this (curSequence this) pos) st
                    (position (seq_at sequenceIn pos))
                    (seq_speed (seq_at sequenceIn pos)) Hidx Htab)
          as (st' & -> & _).
        cbn [bind]. eexists _, angle.
        apply andb_prop in Ewr as [_ Ens]. apply negb_true_iff, Z.eqb_neq in Ens.
        settle_play Eadv.
      * eexists _, angle. settle_play Eadv.
    + rewrite Z.eqb_refl. cbn [negb andb].
      eexists _, angle. settle_play Eadv.
  - (* a new array *)
    assert (Hnew : curSequence this <> seq_addr sequenceIn).
    { intros Hsame. apply seq_ptr_eqb_eq in Hsame. congruence. }
    cbn [curSeqPosition set_sequence curSequence].
    destruct ((angle =? position (seq_at sequenceIn startPos))
              && negb (startPos =? CURRENT_SEQUENCE_STOP)) eqn:Eadv.
    + cbn [curSeqPosition set_sequence curSequence].
      set (pos := if to_uint8 (startPos + 1) >=? numPositions
                  then if loop then 0 else CURRENT_SEQUENCE_STOP
                  else to_uint8 (startPos + 1)).
      destruct (negb (pos =? 255) && negb (pos =? CURRENT_SEQUENCE_STOP)) eqn:Ewr.
      * destruct (write_speed_total
                    (set_sequence (set_sequence this (seq_addr sequenceIn) startPos)
                       (seq_addr sequenceIn) pos) st
                    (position (seq_at sequenceIn pos))
                    (seq_speed (seq_at sequenceIn pos)) Hidx Htab)
          as (st' & -> & _).
        cbn [bind]. eexists _, angle.
        apply andb_prop in Ewr as [_ Ens]. apply negb_true_iff, Z.eqb_neq in Ens.
        settle_play Eadv.
      * eexists _, angle. settle_play Eadv.
    + cbn [curSeqPosition set_sequence curSequence].
      destruct (negb (startPos =? 255)
                && negb (startPos =? CURRENT_SEQUENCE_STOP)) eqn:Ewr.
      * destruct (write_speed_total
                    (set_sequence this (seq_addr sequenceIn) startPos) st
                    (position (seq_at sequenceIn startPos))
                    (seq_speed (seq_at sequenceIn startPos)) Hidx Htab)
          as (st' & -> & _).
        cbn [bind]. eexists _, angle.
        apply andb_prop in Ewr as [_ Ens]. apply negb_true_iff, Z.eqb_neq in Ens.
        settle_play Eadv.
      * eexists _, angle. settle_play Eadv.
Qed.

End Sequences.

Section SequenceClaims.

Context {P : Platform}.

Lemma index_in_effect_same sequenceIn startPos this :
  curSequence this = seq_addr sequenceIn ->
  index_in_effect sequenceIn startPos this = curSeqPosition this.
Proof.
  intros Hsame. unfold index_in_effect.
  now rewrite (proj2 (seq_ptr_eqb_eq _ _) Hsame).
Qed.

(** A call on a stopped sequence changes nothing and answers the sentinel. *)
Lemma sequencePlay_stopped sequenceIn numPositions loop startPos this st :
  4 <= clockCyclesPerMicrosecond -> valid_servo this -> table_ok st ->
  curSequence this = seq_addr sequenceIn ->
  curSeqPosition this = CURRENT_SEQUENCE_STOP ->
  sequencePlay sequenceIn numPositions loop startPos this st
  = Ok (stopped_call this (numPositions, startPos, st)).
Proof.
  intros Hclk Hv Htab Hsame Hstop.
  destruct (sequencePlay_cases sequenceIn numPositions loop startPos this st
              Hclk Hv Htab)
    as (r & angle & -> & _ & _ & _ & _ & Hret & Hquiet & Hthis & _).
  rewrite (index_in_effect_same _ _ _ Hsame), Hstop in Hret, Hquiet.
  cbv zeta in Hret. rewrite Z.eqb_refl, andb_false_r in Hret.
  destruct (Hquiet Hret) as [Hst Hreads]. specialize (Hthis Hsame Hstop).
  destruct r as [ret this' st' reads]. cbn in *. subst. reflexivity.
Qed.

Lemma poll_stopped sequenceIn this :
  4 <= clockCyclesPerMicrosecond -> valid_servo this ->
  curSequence this = seq_addr sequenceIn ->
  curSeqPosition this = CURRENT_SEQUENCE_STOP ->
  forall calls,
    Forall (fun call => table_ok (snd call)) calls ->
    poll sequenceIn calls this = Ok (stopped_call this <$> calls).
Proof.
  intros Hclk Hv Hsame Hstop. induction calls as [|[[n start] st] rest IH];
    intros Hall; [reflexivity|].
  apply Forall_cons in Hall as [Htab Hrest]. cbn [poll].
  rewrite (sequencePlay_stopped sequenceIn n false start this st) by assumption.
  cbn [bind stopped_call play_this]. rewrite (IH Hrest). reflexivity.
Qed.

(** Reads stay inside the array when the index in effect does. *)
Lemma sequencePlay_reads_inside sequenceIn numPositions loop startPos this st :
  4 <= clockCyclesPerMicrosecond -> valid_servo this -> table_ok st ->
  0 <= index_in_effect sequenceIn startPos this < numPositions ->
  numPositions <= 255 ->
  exists r,
    sequencePlay sequenceIn numPositions loop startPos this st = Ok r
    /\ Forall (fun i => 0 <= i < numPositions) (play_reads r).
Proof.
  intros Hclk Hv Htab Hcur Hn.
  destruct (sequencePlay_cases sequenceIn numPositions loop startPos this st
              Hclk Hv Htab)
    as (r & angle & Hrun & _ & _ & _ & _ & Hret & _ & _ & Hreads).
  exists r. split; [assumption|].
  eapply Forall_impl; [exact Hreads|]. cbv beta.
  intros i [->|[-> Hgo]]; [assumption|].
  cbv zeta in Hret. rewrite Hret in *.
  set (cur := index_in_effect sequenceIn startPos this) in *.
  rewrite (to_uint8_id (cur + 1)) in * by (unfold in_uint8; lia).
  destruct ((angle =? position (seq_at sequenceIn cur))
            && negb (cur =? CURRENT_SEQUENCE_STOP)); [|assumption].
  destruct (cur + 1 >=? numPositions) eqn:Eend.
  - destruct loop; [lia|contradiction].
  - rewrite Z.geb_leb in Eend. apply Z.leb_gt in Eend. lia.
Qed.

End SequenceClaims.

(** C5: every call of [sequencePlay] on a registered servo returns, and what
    it returns is the waypoint index it stored (or the stopped sentinel); at
    the last waypoint, once the reported position equals that waypoint's
    position, the index wraps to 0 when looping and otherwise becomes the
    stopped sentinel, without a write; a stopped sequence stays stopped: every
    later call on the same array without looping answers the sentinel and
    leaves the object and the globals as it found them. *)
Theorem sequence_stops_or_wraps {P : Platform}
    sequenceIn numPositions loop startPos this st :
  4 <= clockCyclesPerMicrosecond -> valid_servo this -> table_ok st ->
  let cur := index_in_effect sequenceIn startPos this in
  exists r angle,
    sequencePlay sequenceIn numPositions loop startPos this st = Ok r
    /\ read this st = Ok angle
    /\ play_ret r = curSeqPosition (play_this r)
    /\ curSequence (play_this r) = seq_addr sequenceIn
    /\ (0 <= cur < 255 -> cur = numPositions - 1 ->
        angle = position (seq_at sequenceIn cur) ->
        if loop then play_ret r = 0
        else play_ret r = CURRENT_SEQUENCE_STOP /\ play_state r = st)
    /\ (play_ret r = CURRENT_SEQUENCE_STOP ->
        forall calls,
          Forall (fun call => table_ok (snd call)) calls ->
          poll sequenceIn calls (play_this r)
          = Ok (stopped_call (play_this r) <$> calls)).
Proof.
  intros Hclk Hv Htab cur.
  destruct (sequencePlay_cases sequenceIn numPositions loop startPos this st
              Hclk Hv Htab)
    as (r & angle & Hrun & Hread & Hidx & Hseq & Hv' & Hret & Hquiet & _ & _).
  exists r, angle. split; [assumption|]. split; [assumption|].
  split; [assumption|]. split; [assumption|]. split.
  - intros Hcur Hlast Hangle. cbv zeta in Hret. fold cur in Hret.
    rewrite (to_uint8_id (cur + 1)) in Hret by (unfold in_uint8; lia).
    rewrite Hangle, Z.eqb_refl in Hret.
    replace (cur =? CURRENT_SEQUENCE_STOP) with false in Hret
      by (symmetry; apply Z.eqb_neq; unfold CURRENT_SEQUENCE_STOP; lia).
    cbn [negb andb] in Hret.
    replace (cur + 1 >=? numPositions) with true in Hret
      by (symmetry; apply Z.geb_le; lia).
    destruct loop; [assumption|].
    split; [assumption|]. apply Hquiet. assumption.
  - intros Hstop calls Hall.
    apply poll_stopped; try assumption. congruence.
Qed.

(** The hypotheses of the last waypoint case hold in the witness: the servo
    reports 45 degrees, the position of waypoint 1. *)
Lemma first_at_45_reports :
  read (P := nano_every) first_at_last first_at_45
  = Ok (position (seq_at two_waypoints 1)).
Proof. vm_compute. reflexivity. Qed.

(** At the last of two waypoints, with the servo reporting that waypoint's 45
    degrees, the call without looping stops the sequence and leaves the
    globals alone, and later calls keep answering the sentinel. *)
Lemma sequence_stops_or_wraps_witness :
  exists r,
    sequencePlay (P := nano_every) two_waypoints 2 false 0 first_at_last first_at_45
    = Ok r
    /\ play_ret r = CURRENT_SEQUENCE_STOP
    /\ play_ret r = curSeqPosition (play_this r)
    /\ play_state r = first_at_45
    /\ poll (P := nano_every) two_waypoints
         [(2, 0, first_at_45); (2, 0, first_attached)] (play_this r)
       = Ok [stopped_call (play_this r) (2, 0, first_at_45);
             stopped_call (play_this r) (2, 0, first_attached)].
Proof.
  destruct (sequence_stops_or_wraps (P := nano_every)
              two_waypoints 2 false 0 first_at_last first_at_45)
    as (r & angle & Hrun & Hread & Hidx & _ & Hlast & Hstay);
    [by_computation..|].
  rewrite first_at_45_reports in Hread. injection Hread as <-.
  destruct Hlast as [Hstop Hst]; [by_computation..|].
  exists r. repeat split; try assumption.
  apply (Hstay Hstop). repeat constructor; by_computation.
Defined.

(** C10 fails on the code: the array is read at the stored index before that
    index is compared with the stopped sentinel, and at the start position
    whatever [numPositions] is. With two waypoints, a call on the stopped
    sequence reads entry 255, and a first call with start position 5 reads
    entry 5, three times. *)
Theorem sequence_read_beyond_end :
  (exists r,
     sequencePlay (P := nano_every) two_waypoints 2 false 0 first_stopped first_at_45
     = Ok r
     /\ play_reads r = [255])
  /\ (exists r,
        sequencePlay (P := nano_every) two_waypoints 2 false 5 first_servo first_at_45
        = Ok r
        /\ play_reads r = [5; 5; 5]).
Proof. split; eexists; (split; [vm_compute; reflexivity|reflexivity]). Qed.

(** ** Reading back what was written *)

Section RoundTrip.

Context {P : Platform}.

Lemma quot_small_negative y d : -d < y < 0 -> Z.quot y d = 0.
Proof.
  intros H. replace y with (- (- y)) by lia.
  rewrite Z.quot_opp_l by lia. rewrite Z.quot_small; lia.
Qed.

(** [read] on a servo whose pulse is at most two microseconds below the
    calibrated minimum, at a 16 MHz clock. *)
Lemma read_at this st s :
  16 <= clockCyclesPerMicrosecond <= 19 ->
  valid_servo this -> servoIndex this <> INVALID_SERVO ->
  servos st !! Z.to_nat (servoIndex this) = Some s ->
  0 <= ticks s <= 4000 ->
  -2 <= 4 * ticks s + 6 - calibrated_min this <= 3000 ->
  read this st
  = Ok (Z.quot ((4 * ticks s + 6 - calibrated_min this) * 180)
          (calibrated_max this - calibrated_min this)).
Proof.
  intros Hclk (Hidx & Hmin & Hmax) Hvalid Hs Ht Hy.
  destruct (SERVO_MIN_calibrated this Hmin) as [Elo Hlo].
  destruct (SERVO_MAX_calibrated this Hmax) as [Ehi Hhi].
  unfold read, readMicroseconds.
  replace (servoIndex this =? INVALID_SERVO) with false
    by (symmetry; apply Z.eqb_neq; assumption).
  cbn [negb]. rewrite (servo_load_ok st _ s) by (lia || assumption). cbn [bind].
  rewrite ticksToUs_ok by lia. cbn [bind].
  replace (clockCyclesPerMicrosecond / 4) with 4
    by (apply (Z.div_unique_pos _ 4 4 (clockCyclesPerMicrosecond - 16)); lia).
  rewrite (to_uint16_id (ticks s)) by (unfold in_uint16; lia).
  rewrite (to_uint16_id (ticks s * 16)) by (unfold in_uint16; lia).
  replace (ticks s * 16) with (4 * ticks s * 4) by lia. rewrite Z.div_mul by lia.
  unfold TRIM_DURATION.
  rewrite (to_uint16_id (4 * ticks s + 5)) by (unfold in_uint16; lia).
  rewrite (to_int_id (4 * ticks s + 5)) by (unfold in_int; lia).
  rewrite (to_int_id (4 * ticks s + 5 + 1)) by (unfold in_int; lia).
  unfold map. rewrite Elo, Ehi.
  set (lo := calibrated_min this) in *. set (hi := calibrated_max this) in *.
  rewrite (to_long_id (hi - lo)) by lia.
  destruct (hi - lo =? 0) eqn:E; [apply Z.eqb_eq in E; lia|]. cbn [bind].
  change (180 - 0) with 180. rewrite (to_long_id 180) by lia.
  replace (4 * ticks s + 5 + 1 - lo) with (4 * ticks s + 6 - lo) by lia.
  set (y := 4 * ticks s + 6 - lo) in *.
  rewrite (to_long_id y) by lia. rewrite (to_long_id (y * 180)) by lia.
  assert (Hq : 0 <= Z.quot (y * 180) (hi - lo) <= 1000).
  { destruct (Z_lt_le_dec y 0) as [Hneg|Hpos].
    - rewrite quot_small_negative by lia. lia.
    - rewrite Z.quot_div_nonneg by lia. split.
      + apply Z.div_pos; lia.
      + apply Z.div_le_upper_bound; lia. }
  rewrite Z.add_0_r. rewrite to_long_id by lia.
  rewrite to_int_id by (unfold in_int; lia). reflexivity.
Qed.

(** The arithmetic of an angle written and read back: floor to microseconds,
    floor to ticks of four microseconds, and back. *)
Lemma angle_round_trip lo hi a :
  36 <= lo <= 1056 -> 1892 <= hi <= 2912 -> 0 <= a <= 180 ->
  let p := lo + a * (hi - lo) / 180 in
  let t := (p - 5) / 4 in
  lo <= p <= hi
  /\ 0 <= t <= 4000
  /\ -2 <= 4 * t + 6 - lo <= 3000
  /\ a - 1 <= Z.quot ((4 * t + 6 - lo) * 180) (hi - lo) <= a.
Proof.
  intros Hlo Hhi Ha p t.
  pose proof (Z.div_mod (a * (hi - lo)) 180 ltac:(lia)) as Hq.
  pose proof (Z.mod_pos_bound (a * (hi - lo)) 180 ltac:(lia)) as Hqr.
  pose proof (Z.div_mod (p - 5) 4 ltac:(lia)) as Ht.
  pose proof (Z.mod_pos_bound (p - 5) 4 ltac:(lia)) as Htr.
  fold t in Ht.
  set (q := a * (hi - lo) / 180) in *.
  assert (Hqb : 0 <= q <= hi - lo).
  { split; [apply Z.div_pos; nia|]. apply Z.div_le_upper_bound; nia. }
  assert (Hp : p = lo + q) by reflexivity.
  split; [lia|]. split; [lia|]. split; [lia|].
  set (y := 4 * t + 6 - lo).
  assert (Hy : q - 2 <= y <= q + 1) by (unfold y; lia).
  destruct (Z_lt_le_dec y 0) as [Hneg|Hpos].
  - rewrite quot_small_negative by lia.
    assert (q <= 1) by lia. 
    assert (a * (hi - lo) < 360) by lia.
    assert (a = 0) by nia. lia.
  - rewrite Z.quot_div_nonneg by lia. split.
    + apply Z.div_le_lower_bound; [lia|]. nia.
    + enough (y * 180 / (hi - lo) < a + 1) by lia.
      apply Z.div_lt_upper_bound; [lia|]. nia.
Qed.

End RoundTrip.

(** The round trip at a clock of 16 to 19 MHz, where
    [clockCyclesPerMicrosecond / 16] is 1 and [clockCyclesPerMicrosecond / 4]
    is 4: for a registered servo and every angle [a] in [0,180], [write a]
    followed by [read] returns [a] or, the conversions rounding downwards,
    [a - 1]. *)
Theorem read_after_write {P : Platform} this st a :
  16 <= clockCyclesPerMicrosecond <= 19 -> capacity_ok ->
  valid_servo this -> table_ok st -> 0 <= a <= 180 ->
  exists st' angle,
    write a this st = Ok st'
    /\ read this st' = Ok angle
    /\ a - 1 <= angle <= a.
Proof.
  intros Hclk Hcap Hv Htab Ha. pose proof Hv as (Hidx & Hmin & Hmax).
  destruct (table_slot st (servoIndex this) Htab Hidx) as [s Hs].
  destruct (SERVO_MIN_calibrated this Hmin) as [_ Hlo].
  destruct (SERVO_MAX_calibrated this Hmax) as [_ Hhi].
  destruct (angle_round_trip (calibrated_min this) (calibrated_max this) a
              Hlo Hhi Ha) as (Hp & Ht & Hy & Hr).
  assert (Hticks : commanded_ticks this a
                   = (calibrated_min this
                      + a * (calibrated_max this - calibrated_min this) / 180 - 5) / 4).
  { unfold commanded_ticks, requested_pulse, pulse_to_ticks, angle_to_pulse,
      MIN_PULSE_WIDTH, TRIM_DURATION.
    replace (a <? 544) with true by (symmetry; apply Z.ltb_lt; lia).
    replace (clamp 0 180 a) with a by (unfold clamp; lia).
    replace (clockCyclesPerMicrosecond / 16) with 1
      by (apply (Z.div_unique_pos _ 16 1 (clockCyclesPerMicrosecond - 16)); lia).
    rewrite Z.mul_1_l. f_equal. unfold clamp. lia. }
  eexists _, _. split.
  - apply (write_ok this st a s); try assumption.
    + unfold clock_ok. lia.
    + unfold in_int. lia.
  - split; [|exact Hr].
    erewrite read_at;
      [|assumption|assumption|
       destruct Hcap as (_ & _ & Hmax255); unfold INVALID_SERVO; lia|
       cbn [servos set_servos]; eapply lookup_after_store; eassumption|
       cbn [ticks]; rewrite Hticks; exact Ht|
       cbn [ticks]; rewrite Hticks; exact Hy].
    cbn [ticks]. rewrite Hticks. reflexivity.
Qed.

Lemma read_after_write_witness :
  exists st' angle,
    write (P := nano_every) 90 first_servo first_attached = Ok st'
    /\ read (P := nano_every) first_servo st' = Ok angle
    /\ 90 - 1 <= angle <= 90.
Proof.
  apply (read_after_write (P := nano_every) first_servo first_attached 90);
    by_computation.
Defined.

(** The angle read back after [write 90] with the default calibration is 89. *)
Lemma read_after_write_90 :
  (let* st' := write (P := nano_every) 90 first_servo first_attached in
   read (P := nano_every) first_servo st') = Ok 89.
Proof. vm_compute. reflexivity. Qed.

(** The same sketch at 20 MHz: one constructor and [attach(9)] leave the very
    same globals. *)
Lemma first_attached_reached_20MHz :
  (let* c := VarSpeedServo_new (P := nano_every_20MHz) object_zero
               (boot_state (P := nano_every_20MHz)) in
   attach (P := nano_every_20MHz) 9 544 2400 (fst c) (snd c))
  = Ok (0, first_servo, first_attached).
Proof. vm_compute. reflexivity. Qed.

(** C6 fails on the code at a 20 MHz clock. [usToTicks] divides the clock by
    16 first, which leaves 1 as it does at 16 MHz, and so stores a quarter of
    the microseconds; [ticksToUs] divides by [20 / 4 = 5] and gives 16/5 of
    the ticks back. With the default calibration [write 90] asks for 1472 us
    and stores 366 ticks, [readMicroseconds] then reports 1176 us and [read]
    61 degrees, not 90 or 89; [write 0] reads back -10 and [write 180] reads
    back 133. *)
Theorem read_after_write_off_at_20MHz :
  exists st' s,
    write (P := nano_every_20MHz) 90 first_servo first_attached = Ok st'
    /\ servos st' !! Z.to_nat (servoIndex first_servo) = Some s
    /\ value s = 1472
    /\ ticks s = 366
    /\ readMicroseconds (P := nano_every_20MHz) first_servo st' = Ok 1176
    /\ read (P := nano_every_20MHz) first_servo st' = Ok 61
    /\ (let* st0 := write (P := nano_every_20MHz) 0 first_servo first_attached in
        read (P := nano_every_20MHz) first_servo st0) = Ok (-10)
    /\ (let* st180 := write (P := nano_every_20MHz) 180 first_servo first_attached in
        read (P := nano_every_20MHz) first_servo st180) = Ok 133.
Proof.
  eexists _, _.
  split; [vm_compute; reflexivity|].
  split; [vm_compute; reflexivity|].
  repeat split; vm_compute; reflexivity.
Qed.

(** An attached servo has calibrated bounds: whatever [min] and [max] are
    passed, [attach] leaves [int8_t] trims in the object. *)
Lemma attach_calibrates {P : Platform} pin mn mx this st idx this' st' :
  attach pin mn mx this st = Ok (idx, this', st') ->
  0 <= servoIndex this < MAX_SERVOS ->
  valid_servo this'.
Proof.
  intros Hrun Hidx. unfold attach in Hrun.
  destruct (servoIndex this <? MAX_SERVOS) eqn:E; [|apply Z.ltb_ge in E; lia].
  destruct (servo_store _ _ _) as [st1|]; cbn [bind] in Hrun; [|discriminate].
  destruct (isTimerActive _ _) as [b|]; cbn [bind] in Hrun; [|discriminate].
  destruct (servo_store _ _ _) as [st2|]; cbn [bind] in Hrun; [|discriminate].
  injection Hrun as _ <- _. unfold valid_servo. cbn.
  split; [assumption|]. split; apply to_int8_range.
Qed.

(** ** What holds throughout a run *)

Section SketchFacts.

Context {P : Platform}.

Lemma idle_timers_range cursors :
  0 <= idle_timers cursors <= Z.of_nat (length cursors).
Proof.
  induction cursors as [|idx rest IH]; cbn [idle_timers length]; [lia|].
  destruct (idx =? -1); lia.
Qed.

Lemma idle_timers_insert cursors : forall (t : nat) v old,
  cursors !! t = Some old ->
  idle_timers (<[t := v]> cursors)
  = idle_timers cursors - (if old =? -1 then 1 else 0) + (if v =? -1 then 1 else 0).
Proof.
  induction cursors as [|idx rest IH]; intros [|t] v old Hl; try discriminate.
  - injection Hl as ->. cbn. lia.
  - cbn in Hl. cbn [idle_timers]. change (<[S t := v]> (idx :: rest))
      with (idx :: <[t := v]> rest).
    cbn [idle_timers]. rewrite (IH t v old Hl). lia.
Qed.

(** The comparison and the two casts of the refresh branch. *)
Lemma refresh_arm elapsed :
  clock_ok -> 0 <= elapsed <= 65535 ->
  (if to_ulong (elapsed + 4) <? to_ulong (usToTicks REFRESH_INTERVAL)
   then to_uint16 (usToTicks REFRESH_INTERVAL)
   else to_uint16 (to_ulong (elapsed + 4)))
  = (if elapsed + 4 <? usToTicks REFRESH_INTERVAL
     then usToTicks REFRESH_INTERVAL
     else (elapsed + 4) mod 65536)
  /\ 0 <= usToTicks REFRESH_INTERVAL <= armed_bound.
Proof.
  intros Hclk Hel.
  destruct (usToTicks_pulse REFRESH_INTERVAL Hclk) as [Hus Hbound];
    [unfold REFRESH_INTERVAL; lia|].
  rewrite <- Hus in Hbound. clear Hus.
  change (4 * REFRESH_INTERVAL) with 64000 in Hbound.
  rewrite (to_ulong_id (elapsed + 4)) by lia.
  rewrite (to_ulong_id (usToTicks REFRESH_INTERVAL)) by lia.
  rewrite (to_uint16_id (usToTicks REFRESH_INTERVAL)) by (unfold in_uint16; lia).
  split; [reflexivity|exact Hbound].
Qed.

Lemma sketch_inv_same st st' :
  same_schedule st st' -> sketch_inv st -> sketch_inv st'.
Proof.
  intros (Hs & Hc & Hi & Hr).
  unfold sketch_inv, handler_ready, table_ok, cursors_ok.
  rewrite Hs, Hc, Hi, Hr. auto.
Qed.

(** A store into the table keeps the invariant when it keeps the ticks
    bounded. *)
Lemma servo_store_inv st i f st' :
  servo_store st i f = Ok st' ->
  (forall s, 0 <= ticks s <= armed_bound -> 0 <= ticks (f s) <= armed_bound) ->
  sketch_inv st -> sketch_inv st'.
Proof.
  unfold servo_store, servo_load. intros Hrun Hf Hinv.
  destruct (i <? 0); [discriminate|].
  destruct (servos st !! Z.to_nat i) as [s|] eqn:Hs; [|discriminate].
  cbn [bind] in Hrun. injection Hrun as <-.
  destruct Hinv as ((Htab & Hrest) & Hcur & Hticks & Hreg).
  unfold sketch_inv, handler_ready, table_ok, cursors_ok.
  cbn [servos ServoCount currentServoIndex timer_regs set_servos].
  rewrite length_insert.
  split; [split; [exact Htab|exact Hrest]|].
  split; [exact Hcur|]. split; [|exact Hreg].
  intros j s' Hl. apply list_lookup_insert_Some in Hl
    as [(_ & <- & _)|(_ & Hl)]; [apply Hf|]; eapply Hticks; eassumption.
Qed.

Lemma ServoHandler_inv timer st st' :
  capacity_ok -> clock_ok -> 0 <= timer < _Nbr_16timers ->
  ServoHandler timer st = Ok st' ->
  sketch_inv st -> sketch_inv st'.
Proof.
  intros Hcap Hclk Ht Hrun (Hready & Hcur & Hticks & Hreg).
  destruct (cursor_slot st timer Hready Ht) as [idx Hidx].
  destruct (ServoHandler_step timer st idx Hcap Hready Ht Hidx (Hcur _ _ Hidx))
    as (st'' & Hrun' & Hs & Hc & Hreg' & Hnext).
  rewrite Hrun in Hrun'. injection Hrun' as <-.
  destruct (ServoHandler_preserves timer st Hcap Hready Hcur Ht)
    as (st'' & Hrun' & Hready' & Hcur').
  rewrite Hrun in Hrun'. injection Hrun' as <-.
  split; [assumption|]. split; [assumption|]. split.
  { rewrite Hs. exact Hticks. }
  pose proof (idle_timers_range (currentServoIndex st)) as Hidle.
  pose proof Hready as (_ & _ & Hlen & Hccmp).
  assert (Hn : _Nbr_16timers <= 255).
  { destruct Hcap as (Hspt & Hn & Hmax). unfold MAX_SERVOS in Hmax. nia. }
  assert (Hrange : idx = -1 \/ 0 <= idx) by (destruct (Hcur _ _ Hidx); lia).
  destruct ((SERVO_INDEX timer (idx + 1) <? ServoCount st)
            && (idx + 1 <? SERVOS_PER_TIMER)).
  - destruct Hnext as (-> & s & Hslot & ->).
    rewrite (idle_timers_insert _ _ _ _ Hidx).
    pose proof (Hticks _ _ Hslot) as Hb.
    rewrite to_uint16_id by (unfold in_uint16, armed_bound in *; lia).
    replace (idx + 1 =? -1) with false by (symmetry; apply Z.eqb_neq; lia).
    destruct (idx =? -1) eqn:E; [|lia].
    apply Z.eqb_eq in E. subst idx.
    assert (1 <= idle_timers (currentServoIndex st)); [|lia].
    clear -Hidx. revert Hidx. generalize (Z.to_nat timer).
    induction (currentServoIndex st) as [|i rest IH]; intros [|t] Hl;
      try discriminate; cbn in *.
    + injection Hl as ->. pose proof (idle_timers_range rest). cbn. lia.
    + specialize (IH t Hl). destruct (i =? -1); lia.
  - destruct Hnext as (-> & ->). cbv zeta.
    rewrite (idle_timers_insert _ _ _ _ Hidx).
    change (-1 =? -1) with true. cbv iota.
    set (elapsed := if idx <? 0 then 0 else CCMP (timer_regs st)).
    assert (Hel : 0 <= elapsed <= 65535
                  /\ (idx = -1 -> elapsed = 0)
                  /\ (0 <= idx -> elapsed = CCMP (timer_regs st))).
    { unfold elapsed, in_uint16 in *. destruct (idx <? 0) eqn:E.
      - apply Z.ltb_lt in E. lia.
      - apply Z.ltb_ge in E. lia. }
    destruct Hel as (Hel & Hel0 & Hel1).
    destruct (refresh_arm elapsed Hclk Hel) as [-> HR]. clearbody elapsed.
    unfold armed_bound in *.
    destruct (elapsed + 4 <? usToTicks REFRESH_INTERVAL).
    + destruct (idx =? -1); lia.
    + destruct Hrange as [->|Hpos].
      * rewrite (Hel0 eq_refl). change ((0 + 4) mod 65536) with 4.
        change (-1 =? -1) with true. cbv iota. lia.
      * rewrite (Hel1 Hpos) in *.
        replace (idx =? -1) with false by (symmetry; apply Z.eqb_neq; lia).
        rewrite Z.mod_small by lia. lia.
Qed.

End SketchFacts.

Section SketchCalls.

Context {P : Platform}.

Lemma keeps_ticks_bounded (f : servo_t -> servo_t) :
  (forall s, ticks (f s) = ticks s) ->
  forall s, 0 <= ticks s <= armed_bound -> 0 <= ticks (f s) <= armed_bound.
Proof. intros Hf s Hs. now rewrite Hf. Qed.

Lemma set_ticks_bounded v :
  0 <= v <= armed_bound ->
  forall s, 0 <= ticks s <= armed_bound -> 0 <= ticks (set_ticks v s) <= armed_bound.
Proof. intros Hv s _. exact Hv. Qed.

(** The ticks of a write stay far below the bound. *)
Lemma trimmed_ticks_bounded this us :
  clock_ok -> object_typed this ->
  0 <= pulse_to_ticks
         (clamp (calibrated_min this) (calibrated_max this) us - TRIM_DURATION)
    <= armed_bound.
Proof.
  intros Hclk [Hmin Hmax].
  destruct (SERVO_MIN_calibrated this Hmin) as [_ Hlo].
  destruct (SERVO_MAX_calibrated this Hmax) as [_ Hhi].
  set (x := clamp (calibrated_min this) (calibrated_max this) us - TRIM_DURATION).
  assert (Hx : 31 <= x <= 2907) by (unfold x, clamp, TRIM_DURATION; lia).
  destruct (usToTicks_pulse x Hclk) as [_ Hb]; [lia|].
  unfold armed_bound. lia.
Qed.

Lemma writeMicroseconds_inv value this st st' :
  clock_ok -> object_typed this ->
  writeMicroseconds value this st = Ok st' ->
  sketch_inv st -> sketch_inv st'.
Proof.
  intros Hclk Hty Hrun Hinv. unfold writeMicroseconds in Hrun.
  destruct (servo_store st _ _) as [st1|] eqn:E1; cbn [bind] in Hrun; [|discriminate].
  apply servo_store_inv in E1; [|now apply keeps_ticks_bounded|assumption].
  destruct ((servoIndex this >=? 0) && (servoIndex this <? MAX_SERVOS));
    [|injection Hrun as <-; assumption].
  change (if value <? SERVO_MIN this then SERVO_MIN this
          else if value >? SERVO_MAX this then SERVO_MAX this else value)
    with (constrain value (SERVO_MIN this) (SERVO_MAX this)) in Hrun.
  rewrite (trimmed_ticks this value Hclk (proj1 Hty) (proj2 Hty)) in Hrun.
  apply servo_store_inv in Hrun; [assumption| |assumption].
  apply set_ticks_bounded, trimmed_ticks_bounded; assumption.
Qed.

Lemma write_inv value this st st' :
  clock_ok -> object_typed this ->
  write value this st = Ok st' ->
  sketch_inv st -> sketch_inv st'.
Proof.
  intros Hclk Hty Hrun Hinv. unfold write in Hrun.
  destruct (if value <? MIN_PULSE_WIDTH then _ else _) as [us|];
    cbn [bind] in Hrun; [|discriminate].
  eapply writeMicroseconds_inv; eassumption.
Qed.

Lemma write_speed_inv value speed this st st' :
  clock_ok -> object_typed this ->
  write_speed value speed this st = Ok st' ->
  sketch_inv st -> sketch_inv st'.
Proof.
  intros Hclk Hty Hrun Hinv. unfold write_speed in Hrun.
  destruct (servo_store st _ _) as [st1|] eqn:E1; cbn [bind] in Hrun; [|discriminate].
  apply servo_store_inv in E1; [|now apply keeps_ticks_bounded|assumption].
  destruct (negb (speed =? 0)); [|eapply write_inv; eassumption].
  destruct (if value <? MIN_PULSE_WIDTH then _ else _) as [us|];
    cbn [bind] in Hrun; [|discriminate].
  destruct ((servoIndex this >=? 0) && (servoIndex this <? MAX_SERVOS));
    [|injection Hrun as <-; assumption].
  destruct (servo_store st1 _ _) as [st2|] eqn:E2; cbn [bind] in Hrun; [|discriminate].
  apply servo_store_inv in E2; [|now apply keeps_ticks_bounded|assumption].
  apply servo_store_inv in Hrun; [assumption|now apply keeps_ticks_bounded|assumption].
Qed.

Lemma VarSpeedServo_new_inv this this' st st' :
  capacity_ok -> clock_ok ->
  VarSpeedServo_new this st = Ok (this', st') ->
  sketch_inv st -> sketch_inv st'.
Proof.
  intros Hcap Hclk Hrun Hinv. unfold VarSpeedServo_new in Hrun.
  destruct (ServoCount st <? MAX_SERVOS) eqn:Efree;
    [|injection Hrun as _ <-; assumption].
  apply Z.ltb_lt in Efree.
  destruct (servo_store _ _ _) as [st1|] eqn:E1; cbn [bind] in Hrun; [|discriminate].
  injection Hrun as _ <-.
  apply servo_store_inv in E1; [assumption| |].
  - apply set_ticks_bounded.
    destruct (usToTicks_pulse DEFAULT_PULSE_WIDTH Hclk) as [-> Hb];
      [unfold DEFAULT_PULSE_WIDTH; lia|].
    unfold DEFAULT_PULSE_WIDTH, armed_bound in *.
    rewrite to_uint16_id by (unfold in_uint16; lia). lia.
  - destruct Hinv as ((Htab & Hcount & Hrest) & Hcur & Hticks & Hreg).
    destruct Hcap as (_ & _ & Hmax).
    split; [|split; [exact Hcur|split; [exact Hticks|exact Hreg]]].
    split; [exact Htab|]. split; [|exact Hrest].
    cbn [ServoCount set_ServoCount].
    rewrite to_uint8_id by (unfold in_uint8; lia). lia.
Qed.

Lemma attach_inv pin min_arg max_arg this idx this' st st' :
  attach pin min_arg max_arg this st = Ok (idx, this', st') ->
  sketch_inv st -> sketch_inv st'.
Proof.
  intros Hrun Hinv. unfold attach in Hrun.
  destruct (servoIndex this <? MAX_SERVOS);
    [|injection Hrun as _ _ <-; assumption].
  destruct (servo_store _ _ _) as [st1|] eqn:E1; cbn [bind] in Hrun; [|discriminate].
  apply servo_store_inv in E1;
    [|now apply keeps_ticks_bounded
     |apply (sketch_inv_same st); [repeat split|assumption]].
  destruct (isTimerActive _ _) as [active|]; cbn [bind] in Hrun; [|discriminate].
  destruct (servo_store _ _ _) as [st2|] eqn:E2; cbn [bind] in Hrun; [|discriminate].
  injection Hrun as _ _ <-.
  apply servo_store_inv in E2; [assumption|now apply keeps_ticks_bounded|].
  destruct active; [assumption|].
  apply (sketch_inv_same st1); [repeat split|assumption].
Qed.

Lemma detach_inv this st st' :
  detach this st = Ok st' -> sketch_inv st -> sketch_inv st'.
Proof.
  intros Hrun Hinv. unfold detach in Hrun.
  destruct (servo_store _ _ _) as [st1|] eqn:E1; cbn [bind] in Hrun; [|discriminate].
  apply servo_store_inv in E1; [|now apply keeps_ticks_bounded|assumption].
  destruct (isTimerActive _ _) as [active|]; cbn [bind] in Hrun; [|discriminate].
  injection Hrun as <-. destruct active; [assumption|].
  apply (sketch_inv_same st1); [repeat split|assumption].
Qed.

Lemma sequencePlay_inv sequenceIn numPositions loop startPos this st r :
  clock_ok -> object_typed this ->
  sequencePlay sequenceIn numPositions loop startPos this st = Ok r ->
  sketch_inv st -> sketch_inv (play_state r).
Proof.
  intros Hclk Hty Hrun Hinv. unfold sequencePlay in Hrun.
  destruct (negb (seq_ptr_eqb (curSequence this) (seq_addr sequenceIn)));
    cbv beta iota zeta in Hrun;
    (destruct (read _ st); cbn [bind] in Hrun; [|discriminate]);
    repeat match type of Hrun with
           | context [if ?c then _ else _] => destruct c
           end;
    cbn [bind] in Hrun;
    try (injection Hrun as <-; exact Hinv);
    match type of Hrun with
    | context [write_speed ?v ?sp ?obj ?s] =>
        destruct (write_speed v sp obj s) as [st1|] eqn:Ewr;
        cbn [bind] in Hrun; [|discriminate];
        injection Hrun as <-;
        apply (write_speed_inv v sp obj st st1 Hclk); [exact Hty|exact Ewr|exact Hinv]
    end.
Qed.

(** Every state of a run satisfies the invariant. *)
Lemma reachable_inv st :
  capacity_ok -> clock_ok -> reachable st -> sketch_inv st.
Proof.
  intros Hcap Hclk Hreach. induction Hreach as [|st st' _ IH Hstep].
  - destruct (boot_state_ok Hcap) as [Hready Hcur].
    split; [assumption|]. split; [assumption|]. split.
    + intros i s Hl. cbn in Hl. apply lookup_replicate in Hl as [-> _].
      cbn. unfold armed_bound. lia.
    + cbn. pose proof (idle_timers_range
                         (replicate (Z.to_nat _Nbr_16timers) 0)).
      unfold armed_bound. lia.
  - destruct Hstep.
    + eapply ServoHandler_inv; eassumption.
    + eapply VarSpeedServo_new_inv; eassumption.
    + eapply attach_inv; eassumption.
    + eapply detach_inv; eassumption.
    + eapply writeMicroseconds_inv; eassumption.
    + eapply write_inv; eassumption.
    + eapply write_speed_inv; eassumption.
    + eapply sequencePlay_inv; eassumption.
Qed.

(** In every state of a run an interrupt of a timer returns; its cursor is
    then the sentinel or a channel; and when the channels are exhausted the
    compare register holds the refresh interval or, without wrapping, the
    value read plus 4. *)
Lemma reachable_interrupt st timer idx :
  capacity_ok -> clock_ok -> reachable st ->
  0 <= timer < _Nbr_16timers ->
  currentServoIndex st !! Z.to_nat timer = Some idx ->
  exists st',
    ServoHandler timer st = Ok st'
    /\ cursors_ok st'
    /\ (~ (SERVO_INDEX timer (idx + 1) < ServoCount st
           /\ idx + 1 < SERVOS_PER_TIMER) ->
        let elapsed := if idx <? 0 then 0 else CCMP (timer_regs st) in
        CCMP (timer_regs st')
        = if elapsed + 4 <? usToTicks REFRESH_INTERVAL
          then usToTicks REFRESH_INTERVAL
          else elapsed + 4).
Proof.
  intros Hcap Hclk Hreach Ht Hidx.
  destruct (reachable_inv st Hcap Hclk Hreach) as (Hready & Hcur & Hticks & Hreg).
  destruct (ServoHandler_preserves timer st Hcap Hready Hcur Ht)
    as (st' & Hrun & _ & Hcur').
  exists st'. split; [assumption|]. split; [assumption|].
  intros Hdone elapsed.
  destruct (ServoHandler_step timer st idx Hcap Hready Ht Hidx (Hcur _ _ Hidx))
    as (st'' & Hrun' & _ & _ & _ & Hnext).
  rewrite Hrun in Hrun'. injection Hrun' as <-.
  destruct ((SERVO_INDEX timer (idx + 1) <? ServoCount st)
            && (idx + 1 <? SERVOS_PER_TIMER)) eqn:Enext.
  { exfalso. apply Hdone. apply andb_prop in Enext as [E1 E2].
    split; apply Z.ltb_lt; assumption. }
  destruct Hnext as [_ ->]. cbv zeta. fold elapsed.
  pose proof Hready as (_ & _ & Hlen & Hccmp).
  pose proof (idle_timers_range (currentServoIndex st)) as Hidle.
  assert (Hn : _Nbr_16timers <= 255).
  { destruct Hcap as (Hspt & Hn & Hmax). unfold MAX_SERVOS in Hmax. nia. }
  assert (Hel : 0 <= elapsed <= 65531).
  { unfold elapsed, in_uint16, armed_bound in *. destruct (idx <? 0); lia. }
  destruct (refresh_arm elapsed Hclk) as [-> _]; [lia|].
  rewrite (Z.mod_small (elapsed + 4)) by lia. reflexivity.
Qed.

End SketchCalls.

(** * Further properties of the code *)

(** ** Interrupts and the position of a servo *)

Section Waiting.

Context {P : Platform}.

Lemma servo_load_servos st st' i :
  servos st' = servos st -> servo_load st' i = servo_load st i.
Proof. intros H. unfold servo_load. now rewrite H. Qed.

Lemma readMicroseconds_servos this st st' :
  servos st' = servos st -> readMicroseconds this st' = readMicroseconds this st.
Proof.
  intros H. unfold readMicroseconds. now rewrite (servo_load_servos st st' _ H).
Qed.

Lemma read_servos this st st' :
  servos st' = servos st -> read this st' = read this st.
Proof. intros H. unfold read. now rewrite (readMicroseconds_servos this st st' H). Qed.

(** A run of interrupts reads the table and leaves it as it is. *)
Lemma run_handler_servos timers : forall st,
  capacity_ok -> handler_ready st -> cursors_ok st ->
  Forall (fun t => 0 <= t < _Nbr_16timers) timers ->
  exists st',
    run_handler timers st = Ok st'
    /\ handler_ready st' /\ cursors_ok st'
    /\ servos st' = servos st /\ ServoCount st' = ServoCount st.
Proof.
  induction timers as [|t ts IH]; intros st Hcap Hready Hcur Hts.
  - exists st. repeat split; assumption || reflexivity || apply Hready.
  - apply Forall_cons in Hts as [Ht Hts].
    destruct (cursor_slot st t Hready Ht) as [idx Hidx].
    destruct (ServoHandler_step t st idx Hcap Hready Ht Hidx (Hcur _ _ Hidx))
      as (st1 & Hrun & Hs & Hc & _).
    destruct (ServoHandler_preserves t st Hcap Hready Hcur Ht)
      as (st1' & Hrun' & Hready1 & Hcur1).
    rewrite Hrun in Hrun'. injection Hrun' as <-.
    destruct (IH st1 Hcap Hready1 Hcur1 Hts)
      as (st' & Hrest & Hready' & Hcur' & Hs' & Hc').
    exists st'. cbn [run_handler]. rewrite Hrun. cbn [bind].
    split; [assumption|]. split; [assumption|]. split; [assumption|].
    split; congruence.
Qed.

Lemma readMicroseconds_total this st :
  4 <= clockCyclesPerMicrosecond -> valid_servo this -> table_ok st ->
  exists us, readMicroseconds this st = Ok us.
Proof.
  intros Hclk (Hidx & _) Htab.
  destruct (table_slot st (servoIndex this) Htab Hidx) as [s Hs].
  unfold readMicroseconds.
  destruct (negb (servoIndex this =? INVALID_SERVO)); [|eexists; reflexivity].
  rewrite (servo_load_ok st _ s) by (lia || assumption). cbn [bind].
  rewrite ticksToUs_ok by assumption. eexists. reflexivity.
Qed.

(** A loop whose condition only looks at the table returns at once or stays
    in the loop, however many delays it is granted. *)
Lemma poll_until_settled (arrived : state -> result bool) delays : forall st b,
  capacity_ok -> handler_ready st -> cursors_ok st ->
  (forall st1 st2, servos st2 = servos st1 -> arrived st2 = arrived st1) ->
  arrived st = Ok b ->
  Forall (Forall (fun t => 0 <= t < _Nbr_16timers)) delays ->
  poll_until arrived delays st = Ok (if b then Some st else None).
Proof.
  induction delays as [|d rest IH]; intros st b Hcap Hready Hcur Hdep Harr Hall;
    cbn [poll_until]; rewrite Harr; cbn [bind]; destruct b; try reflexivity.
  apply Forall_cons in Hall as [Hd Hrest].
  destruct (run_handler_servos d st Hcap Hready Hcur Hd)
    as (st' & Hrun & Hready' & Hcur' & Hs & _).
  unfold delay. rewrite Hrun. cbn [bind].
  apply (IH st' false); try assumption.
  rewrite (Hdep st st' Hs). exact Harr.
Qed.

Lemma at_angle_servos value this st1 st2 :
  servos st2 = servos st1 -> at_angle value this st2 = at_angle value this st1.
Proof. intros H. unfold at_angle. now rewrite (read_servos this st1 st2 H). Qed.

Lemma at_pulse_servos value this st1 st2 :
  servos st2 = servos st1 -> at_pulse value this st2 = at_pulse value this st1.
Proof.
  intros H. unfold at_pulse. now rewrite (readMicroseconds_servos this st1 st2 H).
Qed.

End Waiting.

(** X1: a run of interrupts, of whatever timers and however long, returns and
    leaves the servo table and the servo count as they were, so that [read]
    and [readMicroseconds] answer after it what they answered before:
    nothing in the handler moves a servo towards its target. *)
Theorem interrupts_leave_servos {P : Platform} timers this st :
  capacity_ok -> handler_ready st -> cursors_ok st ->
  Forall (fun t => 0 <= t < _Nbr_16timers) timers ->
  exists st',
    run_handler timers st = Ok st'
    /\ servos st' = servos st
    /\ ServoCount st' = ServoCount st
    /\ read this st' = read this st
    /\ readMicroseconds this st' = readMicroseconds this st.
Proof.
  intros Hcap Hready Hcur Hts.
  destruct (run_handler_servos timers st Hcap Hready Hcur Hts)
    as (st' & Hrun & _ & _ & Hs & Hc).
  exists st'. split; [assumption|]. split; [assumption|]. split; [assumption|].
  split; [apply read_servos|apply readMicroseconds_servos]; assumption.
Qed.

Lemma interrupts_leave_servos_witness :
  exists st',
    run_handler (P := nano_every) [0; 0; 0; 0] first_attached = Ok st'
    /\ servos st' = servos first_attached
    /\ ServoCount st' = ServoCount first_attached
    /\ read (P := nano_every) first_servo st'
       = read (P := nano_every) first_servo first_attached
    /\ readMicroseconds (P := nano_every) first_servo st'
       = readMicroseconds (P := nano_every) first_servo first_attached.
Proof.
  apply (interrupts_leave_servos (P := nano_every) [0; 0; 0; 0]
           first_servo first_attached).
  - by_computation.
  - by_computation.
  - intros [|t] idx Hl; [injection Hl as <-; right; by_computation|discriminate Hl].
  - repeat constructor; by_computation.
Defined.

(** X2: a blocking write with a speed other than 0 on a registered servo
    stores the target and then polls the reported value (degrees below 544,
    microseconds from there on); the reported value is the one from before
    the call, so the call returns at once when the servo already reported
    [value] and is otherwise still in its loop after any number of delays,
    whatever interrupts fire. *)
Theorem blocking_write_returns_only_if_there {P : Platform}
    value speed delays this st :
  4 <= clockCyclesPerMicrosecond <= 255 -> capacity_ok ->
  handler_ready st -> cursors_ok st -> valid_servo this ->
  in_int value -> speed <> 0 ->
  Forall (Forall (fun t => 0 <= t < _Nbr_16timers)) delays ->
  exists st1 r,
    write_speed value speed this st = Ok st1
    /\ reported value this st = Ok r
    /\ write_wait value speed true delays this st
       = Ok (if r =? value then Some st1 else None).
Proof.
  intros Hclk Hcap Hready Hcur Hv Hin Hsp Hall.
  pose proof Hready as (Htab & Hcount & Hlen & Hreg).
  destruct (table_slot st (servoIndex this) Htab (proj1 Hv)) as [s Hs].
  assert (Hclk' : clock_ok) by (unfold clock_ok; lia).
  pose proof (write_speed_ok this st value speed s Hclk' Hv Hin Hsp Hs) as Hwr.
  set (st1 := set_servos st _) in Hwr.
  assert (Hready1 : handler_ready st1).
  { unfold handler_ready, table_ok, st1. cbn. rewrite length_insert.
    repeat split; assumption || apply Hcount || apply Hreg. }
  assert (Hus : readMicroseconds this st1 = readMicroseconds this st).
  { unfold readMicroseconds, servo_load, st1. cbn [servos set_servos].
    rewrite (lookup_after_store _ _ s) by assumption. rewrite Hs.
    destruct (servoIndex this <? 0); reflexivity. }
  assert (Hread : read this st1 = read this st)
    by (unfold read; now rewrite Hus).
  exists st1. unfold write_wait, reported. rewrite Hwr. cbn [bind].
  destruct (value <? MIN_PULSE_WIDTH).
  - destruct (read_total this st (proj1 Hclk) Hv Htab) as [r Hr].
    exists r. split; [reflexivity|]. split; [assumption|].
    apply (poll_until_settled (at_angle value this) delays st1 (r =? value));
      try assumption.
    + intros sa sb. apply at_angle_servos.
    + unfold at_angle. rewrite Hread, Hr. reflexivity.
  - destruct (readMicroseconds_total this st (proj1 Hclk) Hv Htab) as [r Hr].
    exists r. split; [reflexivity|]. split; [assumption|].
    apply (poll_until_settled (at_pulse value this) delays st1 (r =? value));
      try assumption.
    + intros sa sb. apply at_pulse_servos.
    + unfold at_pulse. rewrite Hus, Hr. reflexivity.
Qed.

(** The first servo is at 1505 us, which [read] reports as 93 degrees: a
    blocking move to 45 degrees at speed 100 is still polling after three
    delays. *)
Lemma blocking_write_returns_only_if_there_witness :
  write_wait (P := nano_every) 45 100 true [[0]; [0; 0]; []]
    first_servo first_attached
  = Ok None.
Proof.
  destruct (blocking_write_returns_only_if_there (P := nano_every)
              45 100 [[0]; [0; 0]; []] first_servo first_attached)
    as (st1 & r & _ & Hrep & Hwait).
  - by_computation.
  - by_computation.
  - by_computation.
  - intros [|t] idx Hl; [injection Hl as <-; right; by_computation|discriminate Hl].
  - by_computation.
  - by_computation.
  - discriminate.
  - repeat constructor; by_computation.
  - assert (Hr : r = 93) by (vm_compute in Hrep; congruence).
    rewrite Hr in Hwait. exact Hwait.
Defined.

(** X3: on a registered servo [wait] returns exactly when [isMoving] answers
    false: it then returns at once with the globals untouched; when
    [isMoving] answers true [wait] is still in its loop after any number of
    delays, whatever interrupts fire. *)
Theorem wait_returns_iff_not_moving {P : Platform} delays this st :
  4 <= clockCyclesPerMicrosecond -> capacity_ok ->
  handler_ready st -> cursors_ok st -> valid_servo this ->
  Forall (Forall (fun t => 0 <= t < _Nbr_16timers)) delays ->
  exists moving,
    isMoving this st = Ok moving
    /\ wait delays this st = Ok (if moving then None else Some st).
Proof.
  intros Hclk Hcap Hready Hcur Hv Hall.
  pose proof Hready as (Htab & _).
  destruct (table_slot st (servoIndex this) Htab (proj1 Hv)) as [s Hs].
  unfold isMoving, wait.
  rewrite (servo_load_ok st _ s) by (apply Hv || assumption). cbn [bind].
  destruct (to_int (value s) <? MIN_PULSE_WIDTH).
  - destruct (read_total this st Hclk Hv Htab) as [r Hr]. rewrite Hr. cbn [bind].
    exists (negb (r =? to_int (value s))). split; [reflexivity|].
    rewrite (poll_until_settled (at_angle (to_int (value s)) this) delays st
               (r =? to_int (value s))); try assumption.
    + now destruct (r =? to_int (value s)).
    + intros sa sb. apply at_angle_servos.
    + unfold at_angle. rewrite Hr. reflexivity.
  - destruct (readMicroseconds_total this st Hclk Hv Htab) as [r Hr].
    rewrite Hr. cbn [bind].
    exists (negb (r =? to_int (value s))). split; [reflexivity|].
    rewrite (poll_until_settled (at_pulse (to_int (value s)) this) delays st
               (r =? to_int (value s))); try assumption.
    + now destruct (r =? to_int (value s)).
    + intros sa sb. apply at_pulse_servos.
    + unfold at_pulse. rewrite Hr. reflexivity.
Qed.

(** After [writeMicroseconds 1009] the first servo reports 1009 us: it is
    not moving and [wait] returns. *)
Lemma wait_returns_iff_not_moving_witness :
  exists st,
    writeMicroseconds (P := nano_every) 1009 first_servo first_attached = Ok st
    /\ isMoving (P := nano_every) first_servo st = Ok false
    /\ wait (P := nano_every) [[0]; [0]] first_servo st = Ok (Some st).
Proof.
  eexists. split; [vm_compute; reflexivity|].
  match goal with
  | |- isMoving _ ?st = _ /\ _ =>
      destruct (wait_returns_iff_not_moving (P := nano_every) [[0]; [0]]
                  first_servo st) as (moving & Hmov & Hwait)
  end.
  - by_computation.
  - by_computation.
  - by_computation.
  - intros [|t] idx Hl; [injection Hl as <-; right; by_computation|discriminate Hl].
  - by_computation.
  - repeat constructor; by_computation.
  - assert (Hm : moving = false) by (vm_compute in Hmov; congruence).
    rewrite Hm in Hmov, Hwait. split; assumption.
Defined.

(** ** Pulse widths written and read back *)

Section PulseRoundTrip.

Context {P : Platform}.

(** [readMicroseconds] at a 16 MHz clock: four microseconds a tick, and the
    trim on top. *)
Lemma readMicroseconds_at this st s :
  16 <= clockCyclesPerMicrosecond <= 19 ->
  0 <= servoIndex this -> servoIndex this <> INVALID_SERVO ->
  servos st !! Z.to_nat (servoIndex this) = Some s ->
  0 <= ticks s <= 4000 ->
  readMicroseconds this st = Ok (4 * ticks s + 5).
Proof.
  intros Hclk Hidx Hvalid Hs Ht. unfold readMicroseconds.
  replace (servoIndex this =? INVALID_SERVO) with false
    by (symmetry; apply Z.eqb_neq; assumption).
  cbn [negb]. rewrite (servo_load_ok st _ s) by assumption. cbn [bind].
  rewrite ticksToUs_ok by lia. cbn [bind].
  replace (clockCyclesPerMicrosecond / 4) with 4
    by (apply (Z.div_unique_pos _ 4 4 (clockCyclesPerMicrosecond - 16)); lia).
  rewrite (to_uint16_id (ticks s)) by (unfold in_uint16; lia).
  rewrite (to_uint16_id (ticks s * 16)) by (unfold in_uint16; lia).
  replace (ticks s * 16) with (4 * ticks s * 4) by lia. rewrite Z.div_mul by lia.
  unfold TRIM_DURATION.
  rewrite (to_uint16_id (4 * ticks s + 5)) by (unfold in_uint16; lia).
  rewrite (to_int_id (4 * ticks s + 5)) by (unfold in_int; lia). reflexivity.
Qed.

(** The ticks of a clamped pulse at a 16 MHz clock. *)
Lemma pulse_to_ticks_16MHz x :
  16 <= clockCyclesPerMicrosecond <= 19 -> pulse_to_ticks x = x / 4.
Proof.
  intros Hclk. unfold pulse_to_ticks.
  replace (clockCyclesPerMicrosecond / 16) with 1
    by (apply (Z.div_unique_pos _ 16 1 (clockCyclesPerMicrosecond - 16)); lia).
  now rewrite Z.mul_1_l.
Qed.

Lemma clamped_ticks lo hi c :
  36 <= lo <= 1056 -> 1892 <= hi <= 2912 -> lo <= c <= hi ->
  let t := (c - 5) / 4 in
  0 <= t <= 4000 /\ c - 3 <= 4 * t + 5 <= c /\ (4 * t + 5 = c <-> c mod 4 = 1).
Proof.
  intros Hlo Hhi Hc t.
  pose proof (Z.div_mod (c - 5) 4 ltac:(lia)) as Hdm.
  pose proof (Z.mod_pos_bound (c - 5) 4 ltac:(lia)) as Hr.
  fold t in Hdm.
  pose proof (Z.div_mod c 4 ltac:(lia)) as Hdc.
  pose proof (Z.mod_pos_bound c 4 ltac:(lia)) as Hrc.
  split; [lia|]. split; [lia|]. split; intros H; lia.
Qed.

(** What [writeMicroseconds] leaves and [readMicroseconds] then finds. *)
Lemma writeMicroseconds_read_back this st us s :
  16 <= clockCyclesPerMicrosecond <= 19 -> capacity_ok -> valid_servo this ->
  servos st !! Z.to_nat (servoIndex this) = Some s ->
  let c := clamp (calibrated_min this) (calibrated_max this) us in
  exists st',
    writeMicroseconds us this st = Ok st'
    /\ servos st' !! Z.to_nat (servoIndex this)
       = Some {| Pin := Pin s; ticks := (c - 5) / 4; value := to_uint16 us;
                 target := target s; speed := speed s |}
    /\ readMicroseconds this st' = Ok (4 * ((c - 5) / 4) + 5).
Proof.
  intros Hclk Hcap Hv Hs c. pose proof Hv as (Hidx & Hmin & Hmax).
  destruct (SERVO_MIN_calibrated this Hmin) as [_ Hlo].
  destruct (SERVO_MAX_calibrated this Hmax) as [_ Hhi].
  assert (Hc : calibrated_min this <= c <= calibrated_max this)
    by (unfold c, clamp; lia).
  destruct (clamped_ticks _ _ c Hlo Hhi Hc) as (Ht & _).
  eexists. split.
  - apply (writeMicroseconds_ok this st us s); try assumption.
    unfold clock_ok. lia.
  - fold c. unfold TRIM_DURATION. rewrite pulse_to_ticks_16MHz by assumption.
    cbn [servos set_servos]. rewrite (lookup_after_store _ _ s) by assumption.
    split; [reflexivity|].
    set (s' := {| Pin := Pin s; ticks := (c - 5) / 4; value := to_uint16 us;
                  target := target s; speed := speed s |}).
    apply (readMicroseconds_at this _ s'); try assumption.
    + lia.
    + destruct Hcap as (_ & _ & H255). unfold INVALID_SERVO. lia.
    + cbn [servos set_servos]. eapply lookup_after_store; eassumption.
Qed.

End PulseRoundTrip.

(** X4: on a registered servo at a 16 MHz clock, [readMicroseconds] after
    [writeMicroseconds us] returns the pulse width clamped to the calibrated
    range, rounded down to the tick of 4 us: between 3 below the clamped
    value and the clamped value itself. For [us] inside the calibrated range
    that is within 3 us below [us]. *)
Theorem readMicroseconds_after_writeMicroseconds {P : Platform} us this st :
  16 <= clockCyclesPerMicrosecond <= 19 -> capacity_ok ->
  valid_servo this -> table_ok st ->
  exists st' r,
    writeMicroseconds us this st = Ok st'
    /\ readMicroseconds this st' = Ok r
    /\ clamp (calibrated_min this) (calibrated_max this) us - 3 <= r
       <= clamp (calibrated_min this) (calibrated_max this) us
    /\ (calibrated_min this <= us <= calibrated_max this -> us - 3 <= r <= us).
Proof.
  intros Hclk Hcap Hv Htab. pose proof Hv as (Hidx & Hmin & Hmax).
  destruct (table_slot st (servoIndex this) Htab Hidx) as [s Hs].
  destruct (writeMicroseconds_read_back this st us s Hclk Hcap Hv Hs)
    as (st' & Hwr & _ & Hrd).
  destruct (SERVO_MIN_calibrated this Hmin) as [_ Hlo].
  destruct (SERVO_MAX_calibrated this Hmax) as [_ Hhi].
  set (c := clamp (calibrated_min this) (calibrated_max this) us) in *.
  assert (Hc : calibrated_min this <= c <= calibrated_max this)
    by (unfold c, clamp; lia).
  destruct (clamped_ticks _ _ c Hlo Hhi Hc) as (_ & Hr & _).
  exists st', (4 * ((c - 5) / 4) + 5).
  split; [assumption|]. split; [assumption|]. split; [exact Hr|].
  intros Hin. replace us with c by (unfold c, clamp; lia). exact Hr.
Qed.

Lemma readMicroseconds_after_writeMicroseconds_witness :
  exists st' r,
    writeMicroseconds (P := nano_every) 1500 first_servo first_attached = Ok st'
    /\ readMicroseconds (P := nano_every) first_servo st' = Ok r
    /\ clamp (calibrated_min first_servo) (calibrated_max first_servo) 1500 - 3 <= r
       <= clamp (calibrated_min first_servo) (calibrated_max first_servo) 1500
    /\ (calibrated_min first_servo <= 1500 <= calibrated_max first_servo ->
        1500 - 3 <= r <= 1500).
Proof.
  apply (readMicroseconds_after_writeMicroseconds (P := nano_every)
           1500 first_servo first_attached); by_computation.
Defined.

(** X5: on a registered servo at a 16 MHz clock, after [writeMicroseconds us]
    with [us] from 544 on and inside the calibrated range, [isMoving] answers
    false exactly when [us] leaves remainder 1 modulo 4; for every other
    pulse width the servo is reported as moving although nothing moves. *)
Theorem isMoving_after_writeMicroseconds {P : Platform} us this st :
  16 <= clockCyclesPerMicrosecond <= 19 -> capacity_ok ->
  valid_servo this -> table_ok st ->
  544 <= us -> calibrated_min this <= us <= calibrated_max this ->
  exists st' moving,
    writeMicroseconds us this st = Ok st'
    /\ isMoving this st' = Ok moving
    /\ (moving = false <-> us mod 4 = 1).
Proof.
  intros Hclk Hcap Hv Htab Hus Hin. pose proof Hv as (Hidx & Hmin & Hmax).
  destruct (table_slot st (servoIndex this) Htab Hidx) as [s Hs].
  destruct (writeMicroseconds_read_back this st us s Hclk Hcap Hv Hs)
    as (st' & Hwr & Hslot & Hrd).
  destruct (SERVO_MIN_calibrated this Hmin) as [_ Hlo].
  destruct (SERVO_MAX_calibrated this Hmax) as [_ Hhi].
  replace (clamp (calibrated_min this) (calibrated_max this) us) with us in *
    by (unfold clamp; lia).
  destruct (clamped_ticks _ _ us Hlo Hhi Hin) as (_ & _ & Hiff).
  exists st', (negb (4 * ((us - 5) / 4) + 5 =? us)).
  split; [assumption|]. split.
  - unfold isMoving. rewrite (servo_load_ok st' _ _ (proj1 Hidx) Hslot).
    cbn [bind value].
    rewrite (to_uint16_id us) by (unfold in_uint16; lia).
    rewrite (to_int_id us) by (unfold in_int; lia).
    replace (us <? MIN_PULSE_WIDTH) with false
      by (symmetry; apply Z.ltb_ge; unfold MIN_PULSE_WIDTH; lia).
    rewrite Hrd. reflexivity.
  - rewrite <- Hiff. rewrite negb_false_iff. apply Z.eqb_eq.
Qed.

Lemma isMoving_after_writeMicroseconds_witness :
  exists st' moving,
    writeMicroseconds (P := nano_every) 1500 first_servo first_attached = Ok st'
    /\ isMoving (P := nano_every) first_servo st' = Ok moving
    /\ (moving = false <-> 1500 mod 4 = 1).
Proof.
  apply (isMoving_after_writeMicroseconds (P := nano_every)
           1500 first_servo first_attached); by_computation.
Defined.

(** ** Angles read back *)

Section AngleReadBack.

Context {P : Platform}.

Lemma read_calibrated this st s :
  16 <= clockCyclesPerMicrosecond <= 19 -> capacity_ok -> valid_servo this ->
  servos st !! Z.to_nat (servoIndex this) = Some s ->
  ticks_calibrated this (ticks s) ->
  read this st = Ok (angle_of_ticks this (ticks s))
  /\ 0 <= angle_of_ticks this (ticks s) <= 180.
Proof.
  intros Hclk Hcap Hv Hs (c & Hc & Ht). pose proof Hv as (Hidx & Hmin & Hmax).
  destruct (SERVO_MIN_calibrated this Hmin) as [_ Hlo].
  destruct (SERVO_MAX_calibrated this Hmax) as [_ Hhi].
  destruct (clamped_ticks _ _ c Hlo Hhi Hc) as (Hb & Hr & _).
  rewrite <- Ht in Hb, Hr.
  split.
  - apply read_at; try assumption; try lia.
    destruct Hcap as (_ & _ & H255). unfold INVALID_SERVO. lia.
  - unfold angle_of_ticks.
    set (lo := calibrated_min this) in *. set (hi := calibrated_max this) in *.
    set (y := 4 * ticks s + 6 - lo).
    assert (Hy : -2 <= y <= hi - lo + 1) by (unfold y; lia).
    destruct (Z_lt_le_dec y 0) as [Hneg|Hpos].
    + rewrite quot_small_negative by lia. lia.
    + rewrite Z.quot_div_nonneg by lia. split.
      * apply Z.div_pos; lia.
      * enough (y * 180 / (hi - lo) < 181) by lia.
        apply Z.div_lt_upper_bound; lia.
Qed.

(** The ticks that [write] stores are calibrated. *)
Lemma commanded_ticks_calibrated this v :
  16 <= clockCyclesPerMicrosecond <= 19 -> valid_servo this ->
  ticks_calibrated this (commanded_ticks this v).
Proof.
  intros Hclk (_ & Hmin & Hmax).
  destruct (SERVO_MIN_calibrated this Hmin) as [_ Hlo].
  destruct (SERVO_MAX_calibrated this Hmax) as [_ Hhi].
  exists (clamp (calibrated_min this) (calibrated_max this) (requested_pulse this v)).
  split; [unfold clamp; lia|].
  unfold commanded_ticks, TRIM_DURATION. now apply pulse_to_ticks_16MHz.
Qed.

(** The ticks of an angle grow with the angle. *)
Lemma commanded_ticks_mono this v w :
  clock_ok -> in_int8 (min this) -> in_int8 (max this) ->
  v <= w -> (w < 544 \/ 544 <= v) ->
  commanded_ticks this v <= commanded_ticks this w.
Proof.
  intros Hclk Hmin Hmax Hvw Hside.
  destruct (SERVO_MIN_calibrated this Hmin) as [_ Hlo].
  destruct (SERVO_MAX_calibrated this Hmax) as [_ Hhi].
  unfold commanded_ticks, pulse_to_ticks.
  assert (Hk : 0 <= clockCyclesPerMicrosecond / 16)
    by (apply Z.div_pos; unfold clock_ok in Hclk; lia).
  apply Z.div_le_mono; [lia|].
  apply Z.mul_le_mono_nonneg_l; [assumption|].
  enough (requested_pulse this v <= requested_pulse this w)
    by (unfold clamp; lia).
  unfold requested_pulse, MIN_PULSE_WIDTH.
  destruct Hside as [Hw|Hv].
  - replace (v <? 544) with true by (symmetry; apply Z.ltb_lt; lia).
    replace (w <? 544) with true by (symmetry; apply Z.ltb_lt; lia).
    unfold angle_to_pulse.
    enough (clamp 0 180 v * (calibrated_max this - calibrated_min this) / 180
            <= clamp 0 180 w * (calibrated_max this - calibrated_min this) / 180)
      by lia.
    apply Z.div_le_mono; [lia|].
    apply Z.mul_le_mono_nonneg_r; [lia|unfold clamp; lia].
  - replace (v <? 544) with false by (symmetry; apply Z.ltb_ge; lia).
    replace (w <? 544) with false by (symmetry; apply Z.ltb_ge; lia).
    assumption.
Qed.

End AngleReadBack.

(** X6: on a registered servo at a 16 MHz clock, whatever [int] is written
    with [write], as an angle or as microseconds, in range or not, [read]
    afterwards returns an angle between 0 and 180. *)
Theorem read_after_write_in_range {P : Platform} v this st :
  16 <= clockCyclesPerMicrosecond <= 19 -> capacity_ok ->
  valid_servo this -> table_ok st -> in_int v ->
  exists st' angle,
    write v this st = Ok st'
    /\ read this st' = Ok angle
    /\ 0 <= angle <= 180.
Proof.
  intros Hclk Hcap Hv Htab Hin.
  destruct (table_slot st (servoIndex this) Htab (proj1 Hv)) as [s Hs].
  assert (Hclk' : clock_ok) by (unfold clock_ok; lia).
  pose proof (write_ok this st v s Hclk' Hv Hin Hs) as Hwr.
  set (s' := {| Pin := Pin s; ticks := commanded_ticks this v;
                value := requested_pulse this v;
                target := target s; speed := speed s |}) in Hwr.
  destruct (read_calibrated this (set_servos st (<[Z.to_nat (servoIndex this) := s']>
                                                   (servos st))) s'
              Hclk Hcap Hv) as [Hrd Hrange].
  - cbn [servos set_servos]. eapply lookup_after_store; eassumption.
  - apply commanded_ticks_calibrated; assumption.
  - eexists _, _. split; [exact Hwr|]. split; [exact Hrd|exact Hrange].
Qed.

Lemma read_after_write_in_range_witness :
  exists st' angle,
    write (P := nano_every) 30000 first_servo first_attached = Ok st'
    /\ read (P := nano_every) first_servo st' = Ok angle
    /\ 0 <= angle <= 180.
Proof.
  apply (read_after_write_in_range (P := nano_every)
           30000 first_servo first_attached); by_computation.
Defined.

(** X7: on a registered servo the ticks that [write] stores grow with the
    value written as long as both values are angles (below 544) or both are
    microseconds (from 544 on). Across 544 the order breaks: 543 is an angle
    and saturates at 180 degrees, 544 is the shortest pulse. *)
Theorem write_ticks_monotone {P : Platform} v w this st :
  clock_ok -> valid_servo this -> table_ok st -> in_int v -> in_int w ->
  v <= w -> (w < 544 \/ 544 <= v) ->
  exists st1 st2 s1 s2,
    write v this st = Ok st1 /\ write w this st = Ok st2
    /\ servos st1 !! Z.to_nat (servoIndex this) = Some s1
    /\ servos st2 !! Z.to_nat (servoIndex this) = Some s2
    /\ ticks s1 <= ticks s2.
Proof.
  intros Hclk Hv Htab Hiv Hiw Hvw Hside.
  destruct (table_slot st (servoIndex this) Htab (proj1 Hv)) as [s Hs].
  eexists _, _, _, _.
  split; [apply (write_ok this st v s); assumption|].
  split; [apply (write_ok this st w s); assumption|].
  cbn [servos set_servos].
  split; [eapply lookup_after_store; eassumption|].
  split; [eapply lookup_after_store; eassumption|].
  cbn [ticks]. apply commanded_ticks_mono; try assumption; apply Hv.
Qed.

Lemma write_ticks_monotone_witness :
  exists st1 st2 s1 s2,
    write (P := nano_every) 10 first_servo first_attached = Ok st1
    /\ write (P := nano_every) 170 first_servo first_attached = Ok st2
    /\ servos st1 !! Z.to_nat (servoIndex first_servo) = Some s1
    /\ servos st2 !! Z.to_nat (servoIndex first_servo) = Some s2
    /\ ticks s1 <= ticks s2.
Proof.
  apply (write_ticks_monotone (P := nano_every) 10 170 first_servo first_attached);
    try by_computation.
  left. by_computation.
Defined.

(** Across the threshold: 543 commands the longest pulse, 544 the shortest. *)
Lemma write_ticks_across_544 :
  (ticks <$> (match write (P := nano_every) 543 first_servo first_attached with
              | Ok st' => servos st' !! 0%nat | Fault _ => None end)) = Some 598
  /\ (ticks <$> (match write (P := nano_every) 544 first_servo first_attached with
                 | Ok st' => servos st' !! 0%nat | Fault _ => None end)) = Some 134.
Proof. split; vm_compute; reflexivity. Qed.

(** ** Stopping *)

Section Stopping.

Context {P : Platform}.

Lemma commanded_ticks_angle this a :
  16 <= clockCyclesPerMicrosecond <= 19 ->
  in_int8 (min this) -> in_int8 (max this) -> 0 <= a <= 180 ->
  commanded_ticks this a
  = (calibrated_min this
     + a * (calibrated_max this - calibrated_min this) / 180 - 5) / 4.
Proof.
  intros Hclk Hmin Hmax Ha.
  destruct (SERVO_MIN_calibrated this Hmin) as [_ Hlo].
  destruct (SERVO_MAX_calibrated this Hmax) as [_ Hhi].
  destruct (angle_round_trip (calibrated_min this) (calibrated_max this) a
              Hlo Hhi Ha) as (Hp & _).
  unfold commanded_ticks, requested_pulse, angle_to_pulse,
    MIN_PULSE_WIDTH, TRIM_DURATION.
  rewrite pulse_to_ticks_16MHz by assumption.
  replace (a <? 544) with true by (symmetry; apply Z.ltb_lt; lia).
  replace (clamp 0 180 a) with a by (unfold clamp; lia).
  f_equal. unfold clamp. lia.
Qed.

(** Writing back the angle read never asks for more ticks than there were. *)
Lemma ticks_of_angle_read lo hi c :
  36 <= lo <= 1056 -> 1892 <= hi <= 2912 -> lo <= c <= hi ->
  let t := (c - 5) / 4 in
  let r := Z.quot ((4 * t + 6 - lo) * 180) (hi - lo) in
  (lo + r * (hi - lo) / 180 - 5) / 4 <= t.
Proof.
  intros Hlo Hhi Hc t r.
  destruct (clamped_ticks lo hi c Hlo Hhi Hc) as (_ & Hr & _). fold t in Hr.
  set (y := 4 * t + 6 - lo) in *.
  assert (Hy : -2 <= y <= hi - lo + 1) by (unfold y; lia).
  assert (Hq : r * (hi - lo) / 180 <= Z.max y 0).
  { unfold r. destruct (Z_lt_le_dec y 0) as [Hneg|Hpos].
    - rewrite quot_small_negative by lia. rewrite Z.mul_0_l.
      rewrite Z.div_0_l by lia. lia.
    - rewrite Z.quot_div_nonneg by lia.
      apply Z.div_le_upper_bound; [lia|].
      pose proof (Z.mul_div_le (y * 180) (hi - lo) ltac:(lia)). lia. }
  enough ((lo + r * (hi - lo) / 180 - 5) / 4 < t + 1) by lia.
  apply Z.div_lt_upper_bound; [lia|]. unfold y in *. lia.
Qed.

End Stopping.

(** X8: on a registered servo at a 16 MHz clock whose ticks are those of a
    pulse in its calibrated range, [stop] writes back the angle that [read]
    reports: only the [ticks] and [value] fields of the servo's record
    change (a target and a speed stored by a speed-limited write stay), the
    ticks do not grow, and [read] afterwards reports the same angle or one
    degree less. The servo is not held where it is. *)
Theorem stop_writes_back_the_angle_read {P : Platform} this st s :
  16 <= clockCyclesPerMicrosecond <= 19 -> capacity_ok ->
  valid_servo this -> table_ok st ->
  servos st !! Z.to_nat (servoIndex this) = Some s ->
  ticks_calibrated this (ticks s) ->
  exists st' s' angle angle',
    read this st = Ok angle
    /\ stop this st = Ok st'
    /\ st' = set_servos st (<[Z.to_nat (servoIndex this) := s']> (servos st))
    /\ Pin s' = Pin s /\ target s' = target s /\ speed s' = speed s
    /\ ticks s' <= ticks s
    /\ read this st' = Ok angle'
    /\ angle - 1 <= angle' <= angle.
Proof.
  intros Hclk Hcap Hv Htab Hs Hcal. pose proof Hv as (Hidx & Hmin & Hmax).
  destruct (SERVO_MIN_calibrated this Hmin) as [_ Hlo].
  destruct (SERVO_MAX_calibrated this Hmax) as [_ Hhi].
  destruct (read_calibrated this st s Hclk Hcap Hv Hs Hcal) as [Hrd Hrange].
  set (angle := angle_of_ticks this (ticks s)) in *.
  assert (Hclk' : clock_ok) by (unfold clock_ok; lia).
  assert (Hin : in_int angle) by (unfold in_int; lia).
  pose proof (write_ok this st angle s Hclk' Hv Hin Hs) as Hwr.
  set (s' := {| Pin := Pin s; ticks := commanded_ticks this angle;
                value := requested_pulse this angle;
                target := target s; speed := speed s |}) in Hwr.
  set (st' := set_servos st _) in Hwr.
  destruct (read_calibrated this st' s' Hclk Hcap Hv) as [Hrd' _].
  { unfold st'. cbn [servos set_servos]. eapply lookup_after_store; eassumption. }
  { apply commanded_ticks_calibrated; assumption. }
  pose proof (commanded_ticks_angle this angle Hclk Hmin Hmax Hrange) as Hticks.
  destruct (angle_round_trip (calibrated_min this) (calibrated_max this) angle
              Hlo Hhi Hrange) as (_ & _ & _ & Hback).
  exists st', s', angle, (angle_of_ticks this (ticks s')).
  split; [exact Hrd|]. split; [unfold stop; rewrite Hrd; exact Hwr|].
  split; [reflexivity|]. split; [reflexivity|]. split; [reflexivity|].
  split; [reflexivity|]. split.
  - cbn [ticks s']. rewrite Hticks. destruct Hcal as (c & Hc & Ht).
    unfold angle, angle_of_ticks. rewrite Ht.
    apply (ticks_of_angle_read _ _ c Hlo Hhi Hc).
  - split; [exact Hrd'|].
    unfold angle_of_ticks. cbn [ticks s']. rewrite Hticks. exact Hback.
Qed.

(** The first servo is at 375 ticks and reports 93 degrees; [stop] leaves it
    at 374 ticks. *)
Lemma stop_writes_back_the_angle_read_witness :
  exists st' s',
    read (P := nano_every) first_servo first_attached = Ok 93
    /\ stop (P := nano_every) first_servo first_attached = Ok st'
    /\ servos st' !! 0%nat = Some s'
    /\ ticks s' <= 375.
Proof.
  destruct (stop_writes_back_the_angle_read (P := nano_every)
              first_servo first_attached
              {| Pin := {| nbr := 9; isActive := true |};
                 ticks := 375; value := 0; target := 0; speed := 0 |})
    as (st' & s' & angle & angle' & Hrd & Hstop & Hst & _ & _ & _ & Hle & _).
  - by_computation.
  - by_computation.
  - by_computation.
  - by_computation.
  - reflexivity.
  - exists 1505. by_computation.
  - exists st', s'. split; [vm_compute; reflexivity|].
    split; [exact Hstop|]. split; [rewrite Hst; reflexivity|exact Hle].
Defined.

(** ** Attaching and detaching *)

Section Attaching.

Context {P : Platform}.

(** The object that [attach] leaves. *)
Lemma attach_object pin mn mx this st idx this' st' :
  attach pin mn mx this st = Ok (idx, this', st') ->
  servoIndex this < MAX_SERVOS ->
  this' = {| servoIndex := servoIndex this;
             min := to_int8 (Z.quot (to_int (MIN_PULSE_WIDTH - mn)) 4);
             max := to_int8 (Z.quot (to_int (MAX_PULSE_WIDTH - mx)) 4);
             curSeqPosition := curSeqPosition this;
             curSequence := curSequence this |}.
Proof.
  intros Hrun Hidx. unfold attach in Hrun.
  destruct (servoIndex this <? MAX_SERVOS) eqn:E; [|apply Z.ltb_ge in E; lia].
  destruct (servo_store _ _ _) as [st1|]; cbn [bind] in Hrun; [|discriminate].
  destruct (isTimerActive _ _) as [b|]; cbn [bind] in Hrun; [|discriminate].
  destruct (servo_store _ _ _) as [st2|]; cbn [bind] in Hrun; [|discriminate].
  injection Hrun as _ <- _. reflexivity.
Qed.

(** A quarter of the distance to the default, and back. *)
Lemma trim_resolution d :
  -515 <= d <= 511 ->
  in_int8 (Z.quot d 4)
  /\ d - 3 <= 4 * Z.quot d 4 <= d + 3
  /\ (d mod 4 = 0 -> 4 * Z.quot d 4 = d).
Proof.
  intros Hd. destruct (Z_lt_le_dec d 0) as [Hneg|Hpos].
  - replace d with (- (- d)) by lia. rewrite Z.quot_opp_l by lia.
    rewrite Z.quot_div_nonneg by lia.
    pose proof (Z.div_mod (- d) 4 ltac:(lia)) as Hdm.
    pose proof (Z.mod_pos_bound (- d) 4 ltac:(lia)) as Hr.
    pose proof (Z.div_mod (- - d) 4 ltac:(lia)) as Hdm'.
    pose proof (Z.mod_pos_bound (- - d) 4 ltac:(lia)) as Hr'.
    unfold in_int8. repeat split; try lia.
  - rewrite Z.quot_div_nonneg by lia.
    pose proof (Z.div_mod d 4 ltac:(lia)) as Hdm.
    pose proof (Z.mod_pos_bound d 4 ltac:(lia)) as Hr.
    unfold in_int8. repeat split; try lia.
Qed.

Lemma isTimerActive_servos st st' timer :
  servos st' = servos st -> isTimerActive st' timer = isTimerActive st timer.
Proof.
  intros H. unfold isTimerActive. generalize 0.
  induction (Z.to_nat SERVOS_PER_TIMER) as [|n IH]; intros c; [reflexivity|].
  cbn [isTimerActive_from]. rewrite (servo_load_servos st st' _ H).
  destruct (servo_load st (SERVO_INDEX timer c)) as [s|]; cbn [bind]; [|reflexivity].
  destruct (isActive (Pin s)); [reflexivity|apply IH].
Qed.

End Attaching.

(** X9: [attach pin min max] on a registered servo, with [min] in
    [33,1059] and [max] in [1889,2915], leaves a calibrated range whose ends
    are within 3 us of the ones asked for, and exactly those when they differ
    from 544 and 2400 by a multiple of 4: the trims are kept in steps of
    4 us. *)
Theorem attach_calibrates_within_3us {P : Platform} pin mn mx this st :
  capacity_ok -> 0 <= servoIndex this < MAX_SERVOS -> table_ok st ->
  33 <= mn <= 1059 -> 1889 <= mx <= 2915 ->
  exists this' st',
    attach pin mn mx this st = Ok (servoIndex this, this', st')
    /\ mn - 3 <= SERVO_MIN this' <= mn + 3
    /\ mx - 3 <= SERVO_MAX this' <= mx + 3
    /\ ((MIN_PULSE_WIDTH - mn) mod 4 = 0 -> SERVO_MIN this' = mn)
    /\ ((MAX_PULSE_WIDTH - mx) mod 4 = 0 -> SERVO_MAX this' = mx).
Proof.
  intros Hcap Hidx Htab Hmn Hmx.
  destruct (table_slot st (servoIndex this) Htab Hidx) as [s Hs].
  destruct (attach_ok pin mn mx this st s Hcap Hidx Htab Hs)
    as (this' & st' & Hrun & _).
  pose proof (attach_object _ _ _ _ _ _ _ _ Hrun (proj2 Hidx)) as Hobj.
  exists this', st'. split; [assumption|].
  unfold MIN_PULSE_WIDTH, MAX_PULSE_WIDTH in *.
  destruct (trim_resolution (544 - mn)) as (Hq1 & Hr1 & He1); [lia|].
  destruct (trim_resolution (2400 - mx)) as (Hq2 & Hr2 & He2); [lia|].
  assert (Hmin : min this' = Z.quot (544 - mn) 4).
  { rewrite Hobj. cbn [min].
    rewrite (to_int_id (544 - mn)) by (unfold in_int; lia).
    now apply to_int8_id. }
  assert (Hmax : max this' = Z.quot (2400 - mx) 4).
  { rewrite Hobj. cbn [max].
    rewrite (to_int_id (2400 - mx)) by (unfold in_int; lia).
    now apply to_int8_id. }
  destruct (SERVO_MIN_calibrated this') as [-> _]; [rewrite Hmin; exact Hq1|].
  destruct (SERVO_MAX_calibrated this') as [-> _]; [rewrite Hmax; exact Hq2|].
  unfold calibrated_min, calibrated_max, MIN_PULSE_WIDTH, MAX_PULSE_WIDTH.
  rewrite Hmin, Hmax.
  split; [lia|]. split; [lia|]. split; intros H; [specialize (He1 H)|specialize (He2 H)]; lia.
Qed.

Lemma attach_calibrates_within_3us_witness :
  exists this' st',
    attach (P := nano_every) 9 1001 2001 first_servo first_attached
    = Ok (servoIndex first_servo, this', st')
    /\ 1001 - 3 <= SERVO_MIN this' <= 1001 + 3
    /\ 2001 - 3 <= SERVO_MAX this' <= 2001 + 3
    /\ ((MIN_PULSE_WIDTH - 1001) mod 4 = 0 -> SERVO_MIN this' = 1001)
    /\ ((MAX_PULSE_WIDTH - 2001) mod 4 = 0 -> SERVO_MAX this' = 2001).
Proof.
  apply (attach_calibrates_within_3us (P := nano_every) 9 1001 2001
           first_servo first_attached); by_computation.
Defined.

(** Outside that range the trim does not fit its [int8_t]: a minimum of 0 us
    is kept as 1024 us. *)
Lemma attach_min_zero_wraps :
  (let* r := attach (P := nano_every) 9 0 2400 first_servo first_attached in
   Ok (SERVO_MIN (snd (fst r)))) = Ok 1024.
Proof. vm_compute. reflexivity. Qed.

(** X10: on a registered servo, [attached] answers true after [attach] and
    false after [detach], and a second [detach] changes nothing more. *)
Theorem attached_follows_attach_and_detach {P : Platform} pin mn mx this st :
  capacity_ok -> 0 <= servoIndex this < MAX_SERVOS -> table_ok st ->
  (exists this' st',
     attach pin mn mx this st = Ok (servoIndex this, this', st')
     /\ attached this' st' = Ok true)
  /\ (exists st',
        detach this st = Ok st'
        /\ attached this st' = Ok false
        /\ detach this st' = Ok st').
Proof.
  intros Hcap Hidx Htab.
  destruct (table_slot st (servoIndex this) Htab Hidx) as [s Hs]. split.
  - destruct (attach_ok pin mn mx this st s Hcap Hidx Htab Hs)
      as (this' & st' & Hrun & Hservos & _).
    pose proof (attach_object _ _ _ _ _ _ _ _ Hrun (proj2 Hidx)) as Hobj.
    exists this', st'. split; [assumption|].
    unfold attached. rewrite Hobj. cbn [servoIndex].
    erewrite servo_load_ok;
      [|lia|rewrite Hservos; eapply lookup_after_store; eassumption].
    reflexivity.
  - unfold detach at 1.
    rewrite (servo_store_ok st _ _ s) by (lia || assumption). cbn [bind].
    set (st1 := set_servos st _).
    assert (Hs1 : servos st1 !! Z.to_nat (servoIndex this)
                  = Some (set_isActive false s))
      by (unfold st1; cbn [servos set_servos]; eapply lookup_after_store; eassumption).
    assert (Htab1 : table_ok st1)
      by (unfold table_ok, st1; cbn; rewrite length_insert; exact Htab).
    destruct (isTimerActive_spec st1 _ Hcap Htab1 (owning_timer _ Hcap Hidx))
      as (b & Hb & _).
    rewrite Hb. cbn [bind]. eexists. split; [reflexivity|].
    assert (Hsame : servos (if b then st1
                            else finISR (SERVO_INDEX_TO_TIMER (servoIndex this)) st1)
                    = servos st1) by (now destruct b).
    split.
    + unfold attached. rewrite (servo_load_servos st1 _ _ Hsame).
      rewrite (servo_load_ok st1 _ _ (proj1 Hidx) Hs1). reflexivity.
    + unfold detach.
      erewrite servo_store_ok; [|lia|rewrite Hsame; exact Hs1]. cbn [bind].
      rewrite Hsame.
      replace (<[Z.to_nat (servoIndex this) := set_isActive false (set_isActive false s)]>
                 (servos st1)) with (servos st1)
        by (symmetry; apply list_insert_id; exact Hs1).
      rewrite (isTimerActive_servos st1) by (now destruct b).
      rewrite Hb. cbn [bind]. now destruct b.
Qed.

Lemma attached_follows_attach_and_detach_witness :
  (exists this' st',
     attach (P := nano_every) 10 544 2400 second_servo two_constructed
     = Ok (servoIndex second_servo, this', st')
     /\ attached this' st' = Ok true)
  /\ (exists st',
        detach (P := nano_every) second_servo two_constructed = Ok st'
        /\ attached second_servo st' = Ok false
        /\ detach (P := nano_every) second_servo st' = Ok st').
Proof.
  apply (attached_follows_attach_and_detach (P := nano_every) 10 544 2400
           second_servo two_constructed); by_computation.
Defined.

(** X11: an object constructed when the table is full gets the invalid
    index; [attach] on it returns that index and leaves the globals, the pins
    and the timer as they were, and [readMicroseconds] reports 0. *)
Theorem surplus_servo_cannot_attach {P : Platform} pin mn mx this st :
  capacity_ok -> MAX_SERVOS <= ServoCount st ->
  exists this',
    VarSpeedServo_new this st = Ok (this', st)
    /\ servoIndex this' = INVALID_SERVO
    /\ attach pin mn mx this' st = Ok (INVALID_SERVO, this', st)
    /\ readMicroseconds this' st = Ok 0.
Proof.
  intros (_ & _ & Hmax) Hfull.
  destruct (VarSpeedServo_new_full this st Hfull) as (this' & Hnew & Hinv).
  exists this'. split; [assumption|]. split; [assumption|]. split.
  - unfold attach. rewrite Hinv.
    replace (INVALID_SERVO <? MAX_SERVOS) with false; [reflexivity|].
    symmetry. apply Z.ltb_ge. unfold INVALID_SERVO. lia.
  - now apply readMicroseconds_invalid.
Qed.

Lemma surplus_servo_cannot_attach_witness :
  exists this',
    VarSpeedServo_new (P := nano_every) object_zero full_state = Ok (this', full_state)
    /\ servoIndex this' = INVALID_SERVO
    /\ attach (P := nano_every) 9 544 2400 this' full_state
       = Ok (INVALID_SERVO, this', full_state)
    /\ readMicroseconds (P := nano_every) this' full_state = Ok 0.
Proof.
  apply (surplus_servo_cannot_attach (P := nano_every) 9 544 2400
           object_zero full_state); by_computation.
Defined.

(** ** A whole refresh cycle *)

Section CycleFacts.

Context {P : Platform}.

Lemma channel_edge_servos level st st' timer c :
  servos st' = servos st -> ServoCount st' = ServoCount st ->
  channel_edge level st' timer c = channel_edge level st timer c.
Proof. intros Hs Hc. unfold channel_edge. now rewrite Hs, Hc. Qed.

Lemma channel_edge_registered level st timer c s :
  0 <= c < SERVOS_PER_TIMER -> SERVO_INDEX timer c < ServoCount st ->
  servos st !! Z.to_nat (SERVO_INDEX timer c) = Some s ->
  channel_edge level st timer c = edge level s.
Proof.
  intros Hc Hreg Hs. unfold channel_edge. rewrite Hs.
  replace (0 <=? c) with true by (symmetry; apply Z.leb_le; lia).
  replace (c <? SERVOS_PER_TIMER) with true by (symmetry; apply Z.ltb_lt; lia).
  replace (SERVO_INDEX timer c <? ServoCount st) with true
    by (symmetry; apply Z.ltb_lt; lia).
  reflexivity.
Qed.

Lemma channel_edge_exhausted level st timer c :
  (SERVO_INDEX timer c <? ServoCount st) && (c <? SERVOS_PER_TIMER) = false ->
  channel_edge level st timer c = [].
Proof.
  intros H. unfold channel_edge.
  apply andb_false_iff in H as [H|H]; rewrite H;
    rewrite ?andb_false_r; reflexivity.
Qed.

(** The pins that one interrupt drives: the channel it leaves goes low, the
    channel it enters goes high. *)
Lemma ServoHandler_edges timer st idx :
  capacity_ok -> handler_ready st -> 0 <= timer < _Nbr_16timers ->
  currentServoIndex st !! Z.to_nat timer = Some idx -> cursor_ok idx ->
  exists st',
    ServoHandler timer st = Ok st'
    /\ pins st' = channel_edge HIGH st timer (idx + 1)
                  ++ channel_edge LOW st timer idx ++ pins st.
Proof.
  intros Hcap Hready Ht Hidx Hcur.
  pose proof Hcap as (Hspt & Hn & Hmax).
  pose proof Hready as (Htab & Hcount & Hlen & Hreg).
  assert (Hrange : -1 <= idx < SERVOS_PER_TIMER) by (destruct Hcur; lia).
  unfold ServoHandler. rewrite (index_load_ok st timer idx) by (lia || assumption).
  cbn [bind].
  rewrite (to_int8_id (idx + 1)) by (unfold in_int8; lia).
  match goal with
  | |- context [bind ?c _] =>
      assert (H1 : exists st1,
                 c = Ok st1
                 /\ servos st1 = servos st
                 /\ ServoCount st1 = ServoCount st
                 /\ currentServoIndex st1 = currentServoIndex st
                 /\ pins st1 = channel_edge LOW st timer idx ++ pins st)
  end.
  { unfold channel_edge. destruct (idx <? 0) eqn:Eneg.
    - apply Z.ltb_lt in Eneg.
      replace (0 <=? idx) with false by (symmetry; apply Z.leb_gt; lia).
      eexists. split; [reflexivity|]. cbn. repeat split.
    - apply Z.ltb_ge in Eneg.
      replace (0 <=? idx) with true by (symmetry; apply Z.leb_le; lia).
      replace (idx <? SERVOS_PER_TIMER) with true by (symmetry; apply Z.ltb_lt; lia).
      cbn [andb].
      destruct (SERVO_INDEX timer idx <? ServoCount st) eqn:Ereg.
      + apply Z.ltb_lt in Ereg.
        destruct (SERVO_INDEX_plain timer idx Hcap Ht) as [Hplain Hbase]; [lia|].
        destruct (table_slot st (SERVO_INDEX timer idx) Htab) as [s Hs]; [lia|].
        rewrite (servo_load_ok st _ s) by (lia || assumption). cbn [bind].
        rewrite Hs. unfold edge.
        destruct (isActive (Pin s)); eexists; (split; [reflexivity|]);
          cbn; repeat split.
      + eexists. split; [reflexivity|]. repeat split. }
  destruct H1 as (st1 & -> & Hs1 & Hc1 & Hi1 & Hp1). cbn [bind].
  erewrite index_store_ok; [|lia|rewrite Hi1; eassumption]. cbn [bind].
  cbn [ServoCount set_currentServoIndex]. rewrite Hc1.
  unfold channel_edge at 1.
  replace (0 <=? idx + 1) with true by (symmetry; apply Z.leb_le; lia).
  cbn [andb]. rewrite (andb_comm (idx + 1 <? SERVOS_PER_TIMER)).
  destruct ((SERVO_INDEX timer (idx + 1) <? ServoCount st)
            && (idx + 1 <? SERVOS_PER_TIMER)) eqn:Enext.
  - apply andb_prop in Enext as [Ereg Ecap].
    apply Z.ltb_lt in Ereg. apply Z.ltb_lt in Ecap.
    destruct (SERVO_INDEX_plain timer (idx + 1) Hcap Ht) as [Hplain Hbase]; [lia|].
    destruct (table_slot st (SERVO_INDEX timer (idx + 1)) Htab) as [s Hs]; [lia|].
    erewrite servo_load_ok;
      [|lia|cbn [servos set_currentServoIndex]; rewrite Hs1; eassumption].
    cbn [bind]. rewrite Hs. unfold edge.
    eexists. split; [reflexivity|].
    destruct (isActive (Pin s)); cbn; rewrite Hp1; reflexivity.
  - cbv zeta.
    match goal with
    | |- context [if ?c then set_CCMP _ _ else set_CCMP _ _] => destruct c
    end;
      (erewrite index_store_ok;
         [|lia|cbn; rewrite Hi1; eapply lookup_after_store; eassumption]);
      cbn [bind]; (eexists; split; [reflexivity|]);
      cbn; rewrite Hp1; reflexivity.
Qed.

Lemma pulse_falls_last s : rev (pulse s) = edge LOW s ++ edge HIGH s.
Proof. unfold pulse, edge. now destruct (isActive (Pin s)). Qed.

(** From channel [k] on: the interrupts left in the cycle drive the pulses of
    the channels left, after the falling edge of the channel before. *)
Lemma cycle_from timer (m : nat) : forall (k : nat) st,
  capacity_ok -> handler_ready st -> 0 <= timer < _Nbr_16timers ->
  currentServoIndex st !! Z.to_nat timer = Some (Z.of_nat k - 1) ->
  Z.of_nat (k + m)
  = Z.max 0 (Z.min SERVOS_PER_TIMER (ServoCount st - timer * SERVOS_PER_TIMER)) ->
  exists st',
    run_handler (replicate (S m) timer) st = Ok st'
    /\ servos st' = servos st
    /\ ServoCount st' = ServoCount st
    /\ currentServoIndex st' = <[Z.to_nat timer := -1]> (currentServoIndex st)
    /\ pins st'
       = rev (flat_map pulse
                (take m (drop (Z.to_nat (timer * SERVOS_PER_TIMER) + k) (servos st))))
         ++ channel_edge LOW st timer (Z.of_nat k - 1) ++ pins st
    /\ CCMP (timer_regs st')
       = refresh_compare
           match last (take m (drop (Z.to_nat (timer * SERVOS_PER_TIMER) + k)
                                 (servos st))) with
           | Some s => to_uint16 (ticks s)
           | None => if Z.of_nat k =? 0 then 0 else CCMP (timer_regs st)
           end.
Proof.
  induction m as [|m IH]; intros k st Hcap Hready Ht Hidx Hn.
  - pose proof Hcap as (Hspt & Hnbr & Hmax).
    pose proof Hready as (Htab & Hcount & Hlen & Hreg).
    assert (Hcur : cursor_ok (Z.of_nat k - 1)) by (unfold cursor_ok; lia).
    destruct (ServoHandler_step timer st _ Hcap Hready Ht Hidx Hcur)
      as (st' & Hrun & Hs & Hc & _ & Hnext).
    destruct (ServoHandler_edges timer st _ Hcap Hready Ht Hidx Hcur)
      as (st'' & Hrun' & Hp).
    rewrite Hrun in Hrun'. injection Hrun' as <-.
    destruct (SERVO_INDEX_plain timer (Z.of_nat k - 1 + 1) Hcap Ht) as [Hplain Hbase];
      [lia|].
    assert (Enext : (SERVO_INDEX timer (Z.of_nat k - 1 + 1) <? ServoCount st)
                    && (Z.of_nat k - 1 + 1 <? SERVOS_PER_TIMER) = false).
    { apply andb_false_iff.
      destruct (Z_lt_le_dec (Z.of_nat k) SERVOS_PER_TIMER);
        [left|right]; apply Z.ltb_ge; lia. }
    rewrite Enext in Hnext. destruct Hnext as [Hi Hccmp].
    exists st'. cbn [replicate run_handler]. rewrite Hrun. cbn [bind].
    split; [reflexivity|]. split; [assumption|]. split; [assumption|].
    split; [assumption|]. split.
    + rewrite Hp, (channel_edge_exhausted HIGH st timer _ Enext). reflexivity.
    + rewrite Hccmp. cbn [take last]. unfold refresh_compare. cbv zeta.
      destruct (Z.of_nat k =? 0) eqn:E0;
        [apply Z.eqb_eq in E0
        |apply Z.eqb_neq in E0].
      * replace (Z.of_nat k - 1 <? 0) with true by (symmetry; apply Z.ltb_lt; lia).
        reflexivity.
      * replace (Z.of_nat k - 1 <? 0) with false by (symmetry; apply Z.ltb_ge; lia).
        reflexivity.
  - pose proof Hcap as (Hspt & Hnbr & Hmax).
    pose proof Hready as (Htab & Hcount & Hlen & Hreg).
    assert (Hcur : cursor_ok (Z.of_nat k - 1)) by (unfold cursor_ok; lia).
    destruct (ServoHandler_step timer st _ Hcap Hready Ht Hidx Hcur)
      as (st1 & Hrun & Hs & Hc & Hreg1 & Hnext).
    destruct (ServoHandler_edges timer st _ Hcap Hready Ht Hidx Hcur)
      as (st'' & Hrun' & Hp).
    rewrite Hrun in Hrun'. injection Hrun' as <-.
    destruct (SERVO_INDEX_plain timer (Z.of_nat k - 1 + 1) Hcap Ht) as [Hplain Hbase];
      [lia|].
    assert (Enext : (SERVO_INDEX timer (Z.of_nat k - 1 + 1) <? ServoCount st)
                    && (Z.of_nat k - 1 + 1 <? SERVOS_PER_TIMER) = true).
    { apply andb_true_iff. split; apply Z.ltb_lt; lia. }
    rewrite Enext in Hnext. destruct Hnext as (Hi & s & Hslot & Hccmp).
    assert (Hready1 : handler_ready st1).
    { unfold handler_ready, table_ok. rewrite Hs, Hc, Hi, length_insert. auto. }
    assert (Hidx1 : currentServoIndex st1 !! Z.to_nat timer
                    = Some (Z.of_nat (S k) - 1)).
    { rewrite Hi. replace (Z.of_nat (S k) - 1) with (Z.of_nat k - 1 + 1) by lia.
      eapply lookup_after_store; eassumption. }
    destruct (IH (S k) st1 Hcap Hready1 Ht Hidx1) as
      (st' & Hrun2 & Hs2 & Hc2 & Hi2 & Hp2 & Hccmp2); [rewrite Hc; lia|].
    exists st'.
    change (replicate (S (S m)) timer) with (timer :: replicate (S m) timer).
    cbn [run_handler]. rewrite Hrun. cbn [bind].
    split; [assumption|]. split; [congruence|]. split; [congruence|].
    split; [rewrite Hi2, Hi; apply list_insert_insert_eq|].
    assert (Hk : servos st !! (Z.to_nat (timer * SERVOS_PER_TIMER) + k)%nat = Some s).
    { rewrite <- Hslot. f_equal. lia. }
    rewrite (drop_S _ _ _ Hk).
    replace (S (Z.to_nat (timer * SERVOS_PER_TIMER) + k))
      with (Z.to_nat (timer * SERVOS_PER_TIMER) + S k)%nat by lia.
    rewrite Hs in Hp2, Hccmp2.
    assert (Hlow : channel_edge LOW st1 timer (Z.of_nat (S k) - 1) = edge LOW s).
    { rewrite (channel_edge_servos LOW st st1 timer _ Hs Hc).
      replace (Z.of_nat (S k) - 1) with (Z.of_nat k - 1 + 1) by lia.
      apply channel_edge_registered; [lia|lia|assumption]. }
    assert (Hhigh : channel_edge HIGH st timer (Z.of_nat k - 1 + 1) = edge HIGH s)
      by (apply channel_edge_registered; [lia|lia|assumption]).
    split.
    + rewrite Hp2, Hlow, Hp, Hhigh. cbn [take flat_map].
      rewrite rev_app_distr, pulse_falls_last, <- !app_assoc. reflexivity.
    + rewrite Hccmp2. cbn [take]. rewrite last_cons. f_equal.
      destruct (last _); [reflexivity|].
      replace (Z.of_nat (S k) =? 0) with false by (symmetry; apply Z.eqb_neq; lia).
      assumption.
Qed.

End CycleFacts.

(** X12: a whole refresh cycle.  From the sentinel, one interrupt more than
    the timer has registered channels brings the cursor back to the sentinel;
    on the way every active channel gets one pulse, high then low, in channel
    order, and an inactive channel none; the servo records are not touched;
    and the refresh wait that is armed at the end is computed from the ticks
    of the last channel alone (from 0 with no channel). *)
Theorem refresh_cycle_pulses {P : Platform} timer st :
  capacity_ok -> handler_ready st -> 0 <= timer < _Nbr_16timers ->
  currentServoIndex st !! Z.to_nat timer = Some (-1) ->
  exists st',
    run_handler (replicate (S (length (timer_channels st timer))) timer) st = Ok st'
    /\ servos st' = servos st
    /\ currentServoIndex st' = currentServoIndex st
    /\ pins st' = rev (flat_map pulse (timer_channels st timer)) ++ pins st
    /\ CCMP (timer_regs st')
       = refresh_compare match last (timer_channels st timer) with
                         | Some s => to_uint16 (ticks s)
                         | None => 0
                         end.
Proof.
  intros Hcap Hready Ht Hidx.
  pose proof Hcap as (Hspt & Hnbr & Hmax).
  pose proof Hready as (Htab & Hcount & Hlen & Hreg).
  destruct (SERVO_INDEX_plain timer 0 Hcap Ht) as [_ Hbase]; [lia|].
  assert (Hn : length (timer_channels st timer)
               = Z.to_nat (Z.min SERVOS_PER_TIMER
                             (ServoCount st - timer * SERVOS_PER_TIMER))).
  { unfold timer_channels. rewrite length_take, length_drop.
    unfold table_ok in Htab. lia. }
  destruct (cycle_from timer (length (timer_channels st timer)) 0 st
              Hcap Hready Ht Hidx) as (st' & Hrun & Hs & Hc & Hi & Hp & Hccmp);
    [rewrite Hn; lia|].
  exists st'. split; [assumption|]. split; [assumption|].
  split; [rewrite Hi; apply list_insert_id; assumption|].
  rewrite Nat.add_0_r in Hp, Hccmp.
  assert (Hall : take (length (timer_channels st timer))
                   (drop (Z.to_nat (timer * SERVOS_PER_TIMER)) (servos st))
                 = timer_channels st timer).
  { rewrite Hn. reflexivity. }
  rewrite Hall in Hp, Hccmp. split.
  - rewrite Hp. unfold channel_edge. reflexivity.
  - exact Hccmp.
Qed.

Lemma refresh_cycle_pulses_witness :
  exists st',
    run_handler (P := nano_every)
      (replicate (S (length (timer_channels (P := nano_every) first_idle 0))) 0)
      first_idle = Ok st'
    /\ servos st' = servos first_idle
    /\ currentServoIndex st' = currentServoIndex first_idle
    /\ pins st'
       = rev (flat_map pulse (timer_channels (P := nano_every) first_idle 0))
         ++ pins first_idle
    /\ CCMP (timer_regs st')
       = refresh_compare (P := nano_every)
           match last (timer_channels (P := nano_every) first_idle 0) with
           | Some s => to_uint16 (ticks s)
           | None => 0
           end.
Proof.
  apply (refresh_cycle_pulses (P := nano_every) 0 first_idle); by_computation.
Defined.

(** In that sketch the cycle is two interrupts, one pulse on pin 9. *)
Lemma first_idle_cycle :
  (let* st' := run_handler (P := nano_every) [0; 0] first_idle in
   Ok (pins st', CCMP (timer_regs st')))
  = Ok ([digitalWrite 9 LOW; digitalWrite 9 HIGH] ++ pins first_idle, 4000).
Proof. vm_compute. reflexivity. Qed.

(** ** Playback at reduced speed *)

Section StuckPlayback.

Context {P : Platform}.

Lemma readMicroseconds_ticks this st st' s s' :
  0 <= servoIndex this ->
  servos st !! Z.to_nat (servoIndex this) = Some s ->
  servos st' !! Z.to_nat (servoIndex this) = Some s' ->
  ticks s' = ticks s ->
  readMicroseconds this st' = readMicroseconds this st.
Proof.
  intros Hi Hs Hs' Ht. unfold readMicroseconds.
  rewrite (servo_load_ok st _ s Hi Hs), (servo_load_ok st' _ s' Hi Hs').
  cbn [bind]. rewrite Ht. reflexivity.
Qed.

(** A call that finds the servo away from a waypoint with a speed: the index
    stays, and so does what [read] reports. *)
Lemma sequencePlay_waiting sequenceIn numPositions loop startPos this st angle :
  clock_ok -> valid_servo this -> table_ok st ->
  let cur := index_in_effect sequenceIn startPos this in
  cur <> CURRENT_SEQUENCE_STOP ->
  in_int (position (seq_at sequenceIn cur)) ->
  seq_speed (seq_at sequenceIn cur) <> 0 ->
  read this st = Ok angle ->
  angle <> position (seq_at sequenceIn cur) ->
  exists r,
    sequencePlay sequenceIn numPositions loop startPos this st = Ok r
    /\ play_ret r = cur
    /\ valid_servo (play_this r)
    /\ index_in_effect sequenceIn startPos (play_this r) = cur
    /\ read (play_this r) (play_state r) = Ok angle
    /\ length (servos (play_state r)) = length (servos st)
    /\ ServoCount (play_state r) = ServoCount st
    /\ currentServoIndex (play_state r) = currentServoIndex st
    /\ timer_regs (play_state r) = timer_regs st.
Proof.
  intros Hclock Hvalid Htab cur Hcur Hpos Hsp Hread Hne.
  unfold index_in_effect in cur. unfold sequencePlay.
  destruct (seq_ptr_eqb (curSequence this) (seq_addr sequenceIn)) eqn:Eseq;
    cbn [negb]; subst cur.
  - rewrite Hread. cbn [bind].
    replace (angle =? position (seq_at sequenceIn (curSeqPosition this)))
      with false by (symmetry; apply Z.eqb_neq; assumption).
    cbn [andb]. rewrite Z.eqb_refl. cbn [negb andb].
    eexists. split; [reflexivity|]. cbn [play_ret play_this play_state].
    unfold index_in_effect. rewrite Eseq. repeat split; try assumption; apply Hvalid.
  - rewrite read_set_sequence, Hread. cbn [bind curSeqPosition set_sequence].
    replace (angle =? position (seq_at sequenceIn startPos))
      with false by (symmetry; apply Z.eqb_neq; assumption).
    cbn [andb].
    change (curSeqPosition (set_sequence this (seq_addr sequenceIn) startPos))
      with startPos.
    replace (startPos =? 255) with false
      by (symmetry; apply Z.eqb_neq; exact Hcur).
    replace (startPos =? CURRENT_SEQUENCE_STOP) with false
      by (symmetry; apply Z.eqb_neq; exact Hcur).
    cbn [negb andb].
    destruct (table_slot st (servoIndex this) Htab (proj1 Hvalid)) as [s Hs].
    rewrite (write_speed_ok (set_sequence this (seq_addr sequenceIn) startPos)
               st _ _ s Hclock Hvalid Hpos Hsp Hs).
    cbn [bind]. eexists. split; [reflexivity|].
    cbn [play_ret play_this play_state servos set_servos ServoCount
         currentServoIndex timer_regs].
    split; [reflexivity|]. split; [exact Hvalid|]. split.
    { unfold index_in_effect. cbn [curSequence set_sequence curSeqPosition].
      now rewrite (proj2 (seq_ptr_eqb_eq _ _) eq_refl). }
    split.
    { rewrite read_set_sequence, <- Hread. unfold read.
      erewrite (readMicroseconds_ticks this st _ s);
        [reflexivity|apply Hvalid|exact Hs
        |cbn [servos set_servos]; eapply lookup_after_store; exact Hs
        |reflexivity]. }
    rewrite length_insert. repeat split.
Qed.

End StuckPlayback.

(** X13: a sketch that polls [sequencePlay] while the servo is away from the
    waypoint in effect, and that waypoint has a speed other than 0: every
    call returns the same index, however many calls and interrupts follow.
    The move at reduced speed stores a target only, nothing moves [ticks]
    towards it, and [read] keeps reporting the angle it reported before. *)
Theorem speed_limited_playback_never_advances {P : Platform}
    sequenceIn numPositions loop startPos gaps this st angle :
  capacity_ok -> clock_ok -> valid_servo this ->
  handler_ready st -> cursors_ok st ->
  Forall (Forall (fun t => 0 <= t < _Nbr_16timers)) gaps ->
  let cur := index_in_effect sequenceIn startPos this in
  cur <> CURRENT_SEQUENCE_STOP ->
  in_int (position (seq_at sequenceIn cur)) ->
  seq_speed (seq_at sequenceIn cur) <> 0 ->
  read this st = Ok angle ->
  angle <> position (seq_at sequenceIn cur) ->
  replay sequenceIn numPositions loop startPos gaps this st
  = Ok (replicate (length gaps) cur).
Proof.
  intros Hcap Hclock Hvalid Hready Hcursors Hgaps cur Hcur Hpos Hsp Hread Hne.
  revert this st Hvalid Hready Hcursors cur Hcur Hpos Hsp Hread Hne.
  induction Hgaps as [|g gaps Hg _ IH];
    intros this st Hvalid Hready Hcursors cur Hcur Hpos Hsp Hread Hne;
    [reflexivity|].
  destruct (sequencePlay_waiting sequenceIn numPositions loop startPos this st angle
              Hclock Hvalid (proj1 Hready) Hcur Hpos Hsp Hread Hne)
    as (r & Hrun & Hret & Hvalid' & Hcur' & Hread' & Hlen & Hcount & Hidx & Hregs).
  assert (Hready' : handler_ready (play_state r)).
  { destruct Hready as (Htab & Hc & Hl & Hreg).
    unfold handler_ready, table_ok. rewrite Hlen, Hcount, Hidx, Hregs. auto. }
  assert (Hcursors' : cursors_ok (play_state r)).
  { intros t idx. rewrite Hidx. apply Hcursors. }
  destruct (run_handler_servos g (play_state r) Hcap Hready' Hcursors' Hg)
    as (st' & Hdelay & Hready'' & Hcursors'' & Hservos & _).
  cbn [replay]. rewrite Hrun. cbn [bind]. unfold delay. rewrite Hdelay. cbn [bind].
  rewrite (IH (play_this r) st' Hvalid' Hready'' Hcursors'');
    try (rewrite Hcur'; assumption).
  - cbn [bind length replicate]. rewrite Hret, Hcur'. reflexivity.
  - rewrite (read_servos _ _ _ Hservos). exact Hread'.
Qed.

Lemma speed_limited_playback_never_advances_witness :
  replay (P := nano_every) two_waypoints 2 true 0 [[0]; []; [0; 0]]
    first_servo first_at_45
  = Ok (replicate (length [[0]; []; [0; 0]])
          (index_in_effect two_waypoints 0 first_servo)).
Proof.
  apply (speed_limited_playback_never_advances (P := nano_every)
           two_waypoints 2 true 0 [[0]; []; [0; 0]] first_servo first_at_45 45).
  - by_computation.
  - by_computation.
  - by_computation.
  - by_computation.
  - intros [|t] idx Hl; [injection Hl as <-; right; by_computation|discriminate Hl].
  - repeat constructor; by_computation.
  - by_computation.
  - by_computation.
  - by_computation.
  - by_computation.
  - by_computation.
Defined.

(** ** Registered servos along a run *)

Section Registration.

Context {P : Platform}.

Lemma servo_store_count st i f st' :
  servo_store st i f = Ok st' -> ServoCount st' = ServoCount st.
Proof.
  unfold servo_store. destruct (servo_load st i); cbn [bind]; [|discriminate].
  intros H. injection H as <-. reflexivity.
Qed.

Lemma writeMicroseconds_count value this st st' :
  writeMicroseconds value this st = Ok st' -> ServoCount st' = ServoCount st.
Proof.
  unfold writeMicroseconds. intros Hrun.
  destruct (servo_store st _ _) as [st1|] eqn:E1; cbn [bind] in Hrun; [|discriminate].
  apply servo_store_count in E1.
  destruct ((servoIndex this >=? 0) && (servoIndex this <? MAX_SERVOS));
    [apply servo_store_count in Hrun|injection Hrun as <-]; congruence.
Qed.

Lemma write_count value this st st' :
  write value this st = Ok st' -> ServoCount st' = ServoCount st.
Proof.
  unfold write. intros Hrun.
  destruct (if value <? MIN_PULSE_WIDTH then _ else _) as [us|];
    cbn [bind] in Hrun; [|discriminate].
  eapply writeMicroseconds_count; eassumption.
Qed.

Lemma write_speed_count value speed this st st' :
  write_speed value speed this st = Ok st' -> ServoCount st' = ServoCount st.
Proof.
  unfold write_speed. intros Hrun.
  destruct (servo_store st _ _) as [st1|] eqn:E1; cbn [bind] in Hrun; [|discriminate].
  apply servo_store_count in E1.
  destruct (negb (speed =? 0));
    [|apply write_count in Hrun; congruence].
  destruct (if value <? MIN_PULSE_WIDTH then _ else _) as [us|];
    cbn [bind] in Hrun; [|discriminate].
  destruct ((servoIndex this >=? 0) && (servoIndex this <? MAX_SERVOS));
    [|injection Hrun as <-; assumption].
  destruct (servo_store st1 _ _) as [st2|] eqn:E2; cbn [bind] in Hrun; [|discriminate].
  apply servo_store_count in E2. apply servo_store_count in Hrun. congruence.
Qed.

Lemma attach_count pin min_arg max_arg this idx this' st st' :
  attach pin min_arg max_arg this st = Ok (idx, this', st') ->
  ServoCount st' = ServoCount st.
Proof.
  unfold attach. intros Hrun.
  destruct (servoIndex this <? MAX_SERVOS);
    [|injection Hrun as _ _ <-; reflexivity].
  destruct (servo_store _ _ _) as [st1|] eqn:E1; cbn [bind] in Hrun; [|discriminate].
  apply servo_store_count in E1. cbn [ServoCount emit] in E1.
  destruct (isTimerActive _ _) as [active|]; cbn [bind] in Hrun; [|discriminate].
  destruct (servo_store _ _ _) as [st2|] eqn:E2; cbn [bind] in Hrun; [|discriminate].
  injection Hrun as _ _ <-. apply servo_store_count in E2.
  rewrite E2, <- E1. now destruct active.
Qed.

Lemma detach_count this st st' :
  detach this st = Ok st' -> ServoCount st' = ServoCount st.
Proof.
  unfold detach. intros Hrun.
  destruct (servo_store _ _ _) as [st1|] eqn:E1; cbn [bind] in Hrun; [|discriminate].
  apply servo_store_count in E1.
  destruct (isTimerActive _ _) as [active|]; cbn [bind] in Hrun; [|discriminate].
  injection Hrun as <-. rewrite <- E1. now destruct active.
Qed.

Lemma sequencePlay_count sequenceIn numPositions loop startPos this st r :
  sequencePlay sequenceIn numPositions loop startPos this st = Ok r ->
  ServoCount (play_state r) = ServoCount st.
Proof.
  unfold sequencePlay. intros Hrun.
  destruct (negb (seq_ptr_eqb (curSequence this) (seq_addr sequenceIn)));
    cbv beta iota zeta in Hrun;
    (destruct (read _ st); cbn [bind] in Hrun; [|discriminate]);
    repeat match type of Hrun with
           | context [if ?c then _ else _] => destruct c
           end;
    cbn [bind] in Hrun;
    try (injection Hrun as <-; reflexivity);
    match type of Hrun with
    | context [write_speed ?v ?sp ?obj ?s] =>
        destruct (write_speed v sp obj s) as [st1|] eqn:Ewr;
        cbn [bind] in Hrun; [|discriminate];
        injection Hrun as <-;
        exact (write_speed_count v sp obj st st1 Ewr)
    end.
Qed.

End Registration.

(** X14: along a run from the zero-initialised globals no step lowers
    [ServoCount], and it never exceeds [MAX_SERVOS]: only the constructor
    changes it, by one, and neither [detach] nor any other call gives a slot
    back. *)
Theorem slots_are_never_released {P : Platform} st st' :
  capacity_ok -> clock_ok -> reachable st -> sketch_step st st' ->
  0 <= ServoCount st <= ServoCount st'
  /\ ServoCount st' <= ServoCount st + 1
  /\ ServoCount st' <= MAX_SERVOS.
Proof.
  intros Hcap Hclk Hreach Hstep.
  pose proof (reachable_inv st Hcap Hclk Hreach) as ((_ & Hcount & _) & _).
  pose proof (reachable_inv st' Hcap Hclk (reachable_step st st' Hreach Hstep))
    as ((_ & Hcount' & _) & _).
  assert (Hcases : ServoCount st' = ServoCount st
                   \/ ServoCount st' = ServoCount st + 1); [|lia].
  destruct Hstep as [timer st st' Ht Hrun|this this' st st' Hrun| | | | | |].
  - left. destruct (reachable_inv st Hcap Hclk Hreach) as (Hready & Hcur & _).
    destruct (cursor_slot st timer Hready Ht) as [idx Hidx].
    destruct (ServoHandler_step timer st idx Hcap Hready Ht Hidx (Hcur _ _ Hidx))
      as (st'' & Hrun' & _ & Hc & _).
    congruence.
  - unfold VarSpeedServo_new in Hrun.
    destruct (ServoCount st <? MAX_SERVOS) eqn:Efree;
      [|injection Hrun as _ <-; now left].
    apply Z.ltb_lt in Efree. right.
    destruct (servo_store _ _ _) as [st1|] eqn:E1; cbn [bind] in Hrun; [|discriminate].
    injection Hrun as _ <-. apply servo_store_count in E1. rewrite E1.
    cbn [ServoCount set_ServoCount].
    destruct Hcap as (_ & _ & Hmax).
    apply to_uint8_id. unfold in_uint8. lia.
  - left. eapply attach_count; eassumption.
  - left. eapply detach_count; eassumption.
  - left. eapply writeMicroseconds_count; eassumption.
  - left. eapply write_count; eassumption.
  - left. eapply write_speed_count; eassumption.
  - left. eapply sequencePlay_count; eassumption.
Qed.

Lemma slots_are_never_released_witness :
  0 <= ServoCount first_attached <= ServoCount two_constructed
  /\ ServoCount two_constructed <= ServoCount first_attached + 1
  /\ ServoCount two_constructed <= MAX_SERVOS (P := nano_every).
Proof.
  apply (slots_are_never_released (P := nano_every) first_attached two_constructed).
  - by_computation.
  - by_computation.
  - eapply reachable_step;
      [eapply reachable_step;
         [apply reachable_boot
         |eapply (step_new object_zero); vm_compute; reflexivity]
      |eapply (step_attach 9 544 2400 first_servo 0 first_servo);
         vm_compute; reflexivity].
  - apply (step_new object_zero second_servo). vm_compute. reflexivity.
Defined.

(** ** Stopping a sequence *)

Section StoppedSequence.

Context {P : Platform}.



End StoppedSequence.



(** An object that has played nothing yet: [sequenceStop] does not keep it
    from playing afterwards. *)
Lemma sequenceStop_before_playing :
  (let* c := sequenceStop (P := nano_every) first_servo first_at_45 in
   let* r := sequencePlay (P := nano_every) two_waypoints 2 false 0 (fst c) (snd c) in
   Ok (play_ret r)) = Ok 0.
Proof. vm_compute. reflexivity. Qed.

(** ** The indices of the objects *)

(** X16: objects constructed one after the other get the slots in order,
    from the number of servos registered before: no slot is handed out
    twice, and once the table is full every further object gets the invalid
    index 255. *)
Theorem constructors_hand_out_slots_in_order {P : Platform} (n : nat) : forall st,
  capacity_ok -> table_ok st -> 0 <= ServoCount st <= MAX_SERVOS ->
  exists l,
    construct_indices n st = Ok l
    /\ length l = n
    /\ forall i : nat, (i < n)%nat ->
         l !! i = Some (if ServoCount st + Z.of_nat i <? MAX_SERVOS
                        then ServoCount st + Z.of_nat i
                        else INVALID_SERVO).
Proof.
  induction n as [|n IH]; intros st Hcap Htab Hcount.
  - exists []. split; [reflexivity|]. split; [reflexivity|]. intros i Hi. lia.
  - cbn [construct_indices]. unfold VarSpeedServo_new.
    pose proof Hcap as (_ & _ & Hmax).
    destruct (ServoCount st <? MAX_SERVOS) eqn:Efree.
    + apply Z.ltb_lt in Efree.
      destruct (table_slot st (ServoCount st) Htab) as [s Hs]; [lia|].
      erewrite servo_store_ok; [|lia|cbn [servos set_ServoCount]; exact Hs].
      cbn [bind fst snd servoIndex].
      match goal with
      | |- context [construct_indices n ?st1] =>
          destruct (IH st1 Hcap) as (l & -> & Hlen & Hl)
      end.
      { unfold table_ok. cbn. rewrite length_insert. exact Htab. }
      { cbn. rewrite to_uint8_id by (unfold in_uint8; lia). lia. }
      cbn [bind]. eexists. split; [reflexivity|].
      split; [cbn; now rewrite Hlen|].
      intros [|i] Hi.
      * cbn. rewrite Z.add_0_r.
        replace (ServoCount st <? MAX_SERVOS) with true
          by (symmetry; apply Z.ltb_lt; lia).
        reflexivity.
      * rewrite lookup_cons_ne_0 by lia. change (Nat.pred (S i)) with i.
        rewrite (Hl i) by lia.
        cbn [ServoCount set_servos set_ServoCount].
        rewrite to_uint8_id by (unfold in_uint8; lia).
        replace (ServoCount st + 1 + Z.of_nat i)
          with (ServoCount st + Z.of_nat (S i)) by lia.
        reflexivity.
    + apply Z.ltb_ge in Efree. cbn [bind fst snd servoIndex].
      destruct (IH st Hcap Htab Hcount) as (l & -> & Hlen & Hl).
      cbn [bind]. eexists. split; [reflexivity|].
      split; [cbn; now rewrite Hlen|].
      intros [|i] Hi.
      * cbn. rewrite Z.add_0_r.
        replace (ServoCount st <? MAX_SERVOS) with false
          by (symmetry; apply Z.ltb_ge; lia).
        reflexivity.
      * rewrite lookup_cons_ne_0 by lia. change (Nat.pred (S i)) with i.
        rewrite (Hl i) by lia.
        replace (ServoCount st + Z.of_nat i <? MAX_SERVOS) with false
          by (symmetry; apply Z.ltb_ge; lia).
        replace (ServoCount st + Z.of_nat (S i) <? MAX_SERVOS) with false
          by (symmetry; apply Z.ltb_ge; lia).
        reflexivity.
Qed.

Lemma constructors_hand_out_slots_in_order_witness :
  exists l,
    construct_indices (P := nano_every) 3 first_attached = Ok l
    /\ length l = 3%nat
    /\ forall i : nat, (i < 3)%nat ->
         l !! i = Some (if ServoCount first_attached + Z.of_nat i
                           <? MAX_SERVOS (P := nano_every)
                        then ServoCount first_attached + Z.of_nat i
                        else INVALID_SERVO).
Proof.
  apply (constructors_hand_out_slots_in_order (P := nano_every) 3 first_attached);
    by_computation.
Defined.

(** ** Looping playback *)

(** X17: the two-argument [sequencePlay] (looping, from waypoint 0) on an
    array of 1 to 255 waypoints: if the index the object holds for that array
    is inside the array, the call returns an index inside the array, never
    the stop value 255, reads the array only inside its bounds, and leaves
    the object with that index for the same array, so that the same holds
    for the next call. *)
Theorem looping_playback_stays_inside {P : Platform} sequenceIn numPositions this st :
  4 <= clockCyclesPerMicrosecond -> valid_servo this -> table_ok st ->
  1 <= numPositions <= 255 ->
  (curSequence this = seq_addr sequenceIn -> 0 <= curSeqPosition this < numPositions) ->
  exists r,
    sequencePlay_looping sequenceIn numPositions this st = Ok r
    /\ 0 <= play_ret r < numPositions
    /\ curSequence (play_this r) = seq_addr sequenceIn
    /\ curSeqPosition (play_this r) = play_ret r
    /\ valid_servo (play_this r)
    /\ Forall (fun i => 0 <= i < numPositions) (play_reads r).
Proof.
  intros Hclk Hvalid Htab Hn Hinside. unfold sequencePlay_looping.
  assert (Hcur : 0 <= index_in_effect sequenceIn 0 this < numPositions).
  { unfold index_in_effect.
    destruct (seq_ptr_eqb (curSequence this) (seq_addr sequenceIn)) eqn:E; [|lia].
    apply Hinside. now apply seq_ptr_eqb_eq. }
  destruct (sequencePlay_cases sequenceIn numPositions true 0 this st Hclk Hvalid Htab)
    as (r & angle & Hrun & _ & Hpos & Hseq & Hvalid' & Hret & _).
  destruct (sequencePlay_reads_inside sequenceIn numPositions true 0 this st
              Hclk Hvalid Htab Hcur (proj2 Hn)) as (r' & Hrun' & Hreads).
  rewrite Hrun in Hrun'. injection Hrun' as <-.
  exists r. split; [assumption|]. split; [|auto].
  rewrite Hret. cbv zeta.
  destruct ((angle =? position (seq_at sequenceIn (index_in_effect sequenceIn 0 this)))
            && negb (index_in_effect sequenceIn 0 this =? CURRENT_SEQUENCE_STOP));
    [|assumption].
  rewrite to_uint8_id by (unfold in_uint8; lia).
  destruct (index_in_effect sequenceIn 0 this + 1 >=? numPositions) eqn:E; [lia|].
  rewrite Z.geb_leb in E. apply Z.leb_gt in E. lia.
Qed.

Lemma looping_playback_stays_inside_witness :
  exists r,
    sequencePlay_looping (P := nano_every) two_waypoints 2 first_at_last first_at_45
    = Ok r
    /\ 0 <= play_ret r < 2
    /\ curSequence (play_this r) = seq_addr two_waypoints
    /\ curSeqPosition (play_this r) = play_ret r
    /\ valid_servo (P := nano_every) (play_this r)
    /\ Forall (fun i => 0 <= i < 2) (play_reads r).
Proof.
  apply (looping_playback_stays_inside (P := nano_every)
           two_waypoints 2 first_at_last first_at_45); by_computation.
Defined.

(** With a count of 0 the same call reads and commands waypoint 0 all the
    same. *)
Lemma looping_playback_of_nothing :
  (let* r := sequencePlay_looping (P := nano_every) two_waypoints 0
               first_servo first_at_45 in
   Ok (play_ret r, play_reads r)) = Ok (0, [0; 0; 0]).
Proof. vm_compute. reflexivity. Qed.

(** X18: the one-argument [attach] resets the calibration: whatever trims
    the object carried, afterwards both are 0 and the range is exactly 544 to
    2400 us. *)
Theorem attach_default_resets_range {P : Platform} pin this st :
  capacity_ok -> 0 <= servoIndex this < MAX_SERVOS -> table_ok st ->
  exists this' st',
    attach_default pin this st = Ok (servoIndex this, this', st')
    /\ min this' = 0 /\ max this' = 0
    /\ SERVO_MIN this' = MIN_PULSE_WIDTH
    /\ SERVO_MAX this' = MAX_PULSE_WIDTH.
Proof.
  intros Hcap Hidx Htab. unfold attach_default.
  destruct (table_slot st (servoIndex this) Htab Hidx) as [s Hs].
  destruct (attach_ok pin MIN_PULSE_WIDTH MAX_PULSE_WIDTH this st s Hcap Hidx Htab Hs)
    as (this' & st' & Hrun & _).
  pose proof (attach_object _ _ _ _ _ _ _ _ Hrun (proj2 Hidx)) as Hobj.
  exists this', st'. split; [assumption|].
  rewrite Hobj. repeat split.
Qed.

Lemma attach_default_resets_range_witness :
  exists this' st',
    attach_default (P := nano_every) 9
      {| servoIndex := 0; min := 100; max := -100;
         curSeqPosition := 0; curSequence := initSeq_ptr |} first_attached
    = Ok (0, this', st')
    /\ min this' = 0 /\ max this' = 0
    /\ SERVO_MIN this' = MIN_PULSE_WIDTH
    /\ SERVO_MAX this' = MAX_PULSE_WIDTH.
Proof.
  apply (attach_default_resets_range (P := nano_every) 9
           {| servoIndex := 0; min := 100; max := -100;
              curSeqPosition := 0; curSequence := initSeq_ptr |} first_attached);
    by_computation.
Defined.
